(** * The ERA5 timestep merge engine ([conbine.py])

    A shallow embedding of [check_data_info],
    [extract_datetime_from_filename], [parse_datetime_string],
    [merge_data] and [main], together with the library operations they
    call (string methods, [pathlib] stems, [datetime.strptime] for the
    three format strings in use, the numpy array operations [squeeze],
    indexing along the first axis and [stack], and attribute access on an
    xarray dataset), followed by the properties of the merge engine.

    Conventions.
    - A Python [str] is a [string]; a character stands for the code point
      of the same number (so the model covers code points below 256).
    - An array element is represented by an integer, a code of its value
      in the element type of the array.  Elements are copied, except that
      [np.stack] converts its arguments to a common element type; what
      numpy takes as that type and what a converted element is are taken
      as given.
    - Python exceptions are values of [exn]; a computation that may raise
      returns a [result]. *)

From Stdlib Require Import String Ascii List ZArith Lia Bool Arith DecimalString
  DecimalNat OrdersEx Sorted.
From stdpp Require Import gmap strings list.

(** ** Exceptions *)

Inductive exn : Type :=
| ValueError
| IndexError
| AttributeError
| OSError
| TypeError
| Other (class_name : string).

Inductive result (A : Type) : Type :=
| Ok (a : A)
| Raise (e : exn).

Arguments Ok {A} a.
Arguments Raise {A} e.

(** Sequencing: the first exception raised ends the computation.  This
    gives the [x ← r; k] notation for [result]. *)
#[global] Instance result_bind : MBind result :=
  fun A B (k : A -> result B) (r : result A) =>
    match r with
    | Ok a => k a
    | Raise e => Raise e
    end.

#[global] Instance result_ret : MRet result := fun A a => Ok a.

(** ** Python string methods *)

Module Py.

(** [c.isdigit()] for a single character.  Below code point 256 the
    characters with the Unicode digit property are the ASCII digits and
    the superscripts two, three and one. *)
Definition char_isdigit (c : ascii) : bool :=
  let n := nat_of_ascii c in
  ((48 <=? n) && (n <=? 57)) || (n =? 178) || (n =? 179) || (n =? 185).

Fixpoint all_chars (p : ascii -> bool) (s : string) : bool :=
  match s with
  | EmptyString => true
  | String c r => p c && all_chars p r
  end.

(** [s.isdigit()]: at least one character, and all of them digits. *)
Definition isdigit (s : string) : bool :=
  match s with
  | EmptyString => false
  | _ => all_chars char_isdigit s
  end.

(** [s.split(sep)] for a one-character separator: never returns the
    empty list, and keeps empty fields. *)
Fixpoint split (sep : ascii) (s : string) : list string :=
  match s with
  | EmptyString => [EmptyString]
  | String c r =>
      if Ascii.eqb c sep then EmptyString :: split sep r
      else match split sep r with
           | p :: ps => String c p :: ps
           | [] => [String c EmptyString]
           end
  end.

(** [sep.join(parts)]. *)
Fixpoint join (sep : string) (parts : list string) : string :=
  match parts with
  | [] => EmptyString
  | [p] => p
  | p :: ps => p +:+ sep +:+ join sep ps
  end.

(** [s.endswith(suffix)]. *)
Definition endswith (s suffix : string) : bool :=
  (String.length suffix <=? String.length s)
  && String.eqb
       (substring (String.length s - String.length suffix)
                  (String.length suffix) s)
       suffix.

(** [s.rfind(".")]: index of the last dot. *)
Fixpoint rfind_dot (s : string) : option nat :=
  match s with
  | EmptyString => None
  | String c r =>
      match rfind_dot r with
      | Some i => Some (S i)
      | None => if Ascii.eqb c "." then Some 0 else None
      end
  end.

(** [str(n)] for a non-negative integer. *)
Definition str (n : nat) : string := NilEmpty.string_of_uint (Nat.to_uint n).

(** [parts[:-1]]. *)
Definition but_last {A : Type} (l : list A) : list A := removelast l.

End Py.

(** ** [pathlib]: the stem of a file name

    [PurePath.stem]: the final component without its last suffix, where a
    dot counts as the start of a suffix only when it is neither the first
    nor the last character of the name. *)

Definition stem (name : string) : string :=
  match Py.rfind_dot name with
  | Some i =>
      if (0 <? i) && (i <? String.length name - 1)
      then substring 0 i name
      else name
  | None => name
  end.

(** ** Filename identity extraction ([extract_datetime_from_filename]) *)

(** The loop over [parts]: the last token of eight digits becomes
    [date_part], the last token of four digits becomes [time_part]. *)
Fixpoint scan_parts (parts : list string) (date_part time_part : option string)
  : option string * option string :=
  match parts with
  | [] => (date_part, time_part)
  | part :: rest =>
      if (String.length part =? 8) && Py.isdigit part
      then scan_parts rest (Some part) time_part
      else if (String.length part =? 4) && Py.isdigit part
      then scan_parts rest date_part (Some part)
      else scan_parts rest date_part time_part
  end.

(** The argument is the file name of the path (its final component). *)
Definition extract_datetime_from_filename (filename : string) : string :=
  let name := stem filename in
  let parts := Py.split "_" name in
  match scan_parts parts None None with
  | (Some date_part, Some time_part) => date_part +:+ "_" +:+ time_part
  | _ =>
      if Py.endswith name "_pl" || Py.endswith name "_sl" || Py.endswith name "_tp"
      then Py.join "_" (Py.but_last parts)
      else name
  end.

(** ** [datetime]: naive date-times and [strptime] *)

Record datetime : Type := mk_datetime {
  year : nat;
  month : nat;
  day : nat;
  hour : nat;
  minute : nat
}.

Definition lex (c1 c2 : comparison) : comparison :=
  match c1 with
  | Eq => c2
  | _ => c1
  end.

(** Naive date-times compare field by field, most significant first. *)
Definition dt_compare (a b : datetime) : comparison :=
  lex (year a ?= year b)
      (lex (month a ?= month b)
           (lex (day a ?= day b)
                (lex (hour a ?= hour b) (minute a ?= minute b)))).

(** [a < b], [a > b], [a <= b], [a >= b]. *)
Definition dt_lt (a b : datetime) : bool :=
  match dt_compare a b with Lt => true | _ => false end.
Definition dt_gt (a b : datetime) : bool :=
  match dt_compare a b with Gt => true | _ => false end.
Definition dt_le (a b : datetime) : bool :=
  match dt_compare a b with Gt => false | _ => true end.
Definition dt_ge (a b : datetime) : bool :=
  match dt_compare a b with Lt => false | _ => true end.

(** [datetime.strptime] compiles the format to a regular expression, takes
    the first match found by backtracking (alternatives tried in order),
    rejects the input when the match does not consume it entirely, and
    then builds the date, rejecting days that do not exist.  The model
    covers the directives that occur in the three formats of the program. *)
Module Strptime.

Inductive directive : Type :=
| Year            (* %Y *)
| Month           (* %m *)
| Day             (* %d *)
| Hour            (* %H *)
| Minute          (* %M *)
| Lit (c : ascii) (* a literal character *)
| Spaces.         (* a run of white space in the format: \s+ *)

Definition char_class : Type := ascii -> bool.

Definition between (lo hi : nat) : char_class :=
  fun c => let n := nat_of_ascii c in (lo <=? n) && (n <=? hi).

(** [\d] *)
Definition dec : char_class := between 48 57.
Definition chr (c : ascii) : char_class := fun x => Ascii.eqb x c.

(** [\s] below code point 256. *)
Definition space : char_class :=
  fun c => let n := nat_of_ascii c in
           ((9 <=? n) && (n <=? 13)) || ((28 <=? n) && (n <=? 32))
           || (n =? 133) || (n =? 160).

(** The alternatives of each directive, in the order they are tried. *)
Definition alternatives (d : directive) : list (list char_class) :=
  match d with
  | Year => [[dec; dec; dec; dec]]
  | Month => [[chr "1"; between 48 50]; [chr "0"; between 49 57]; [between 49 57]]
  | Day => [[chr "3"; between 48 49]; [between 49 50; dec];
            [chr "0"; between 49 57]; [between 49 57];
            [chr " "; between 49 57]]
  | Hour => [[chr "2"; between 48 51]; [between 48 49; dec]; [dec]]
  | Minute => [[between 48 53; dec]; [dec]]
  | Lit c => [[chr c]]
  | Spaces => []
  end.

(** Match a sequence of character classes at the start of [s]. *)
Fixpoint match_classes (cls : list char_class) (s : string)
  : option (string * string) :=
  match cls with
  | [] => Some (EmptyString, s)
  | p :: ps =>
      match s with
      | String c r =>
          if p c then
            match match_classes ps r with
            | Some (txt, rest) => Some (String c txt, rest)
            | None => None
            end
          else None
      | EmptyString => None
      end
  end.

(** The ways [\s+] can match at the start of [s], longest first. *)
Fixpoint space_runs (s : string) : list (string * string) :=
  match s with
  | String c r =>
      if space c then
        map (fun '(txt, rest) => (String c txt, rest)) (space_runs r)
        ++ [(String c EmptyString, r)]
      else []
  | EmptyString => []
  end.

(** The candidate matches of one directive at the start of [s]. *)
Definition candidates (d : directive) (s : string) : list (string * string) :=
  match d with
  | Spaces => space_runs s
  | _ => omap (fun cls => match_classes cls s) (alternatives d)
  end.

Fixpoint first_success {A B : Type} (f : A -> option B) (l : list A) : option B :=
  match l with
  | [] => None
  | a :: l' =>
      match f a with
      | Some b => Some b
      | None => first_success f l'
      end
  end.

(** The first match of the whole format: the text matched by each
    directive, and the unconsumed rest of the input. *)
Fixpoint regex_match (fmt : list directive) (s : string)
  : option (list (directive * string) * string) :=
  match fmt with
  | [] => Some ([], s)
  | d :: fmt' =>
      first_success
        (fun '(txt, rest) =>
           match regex_match fmt' rest with
           | Some (found, rest') => Some ((d, txt) :: found, rest')
           | None => None
           end)
        (candidates d s)
  end.

(** [int(txt)] for a matched field: decimal digits, a leading blank
    being ignored. *)
Fixpoint int_acc (txt : string) (acc : nat) : nat :=
  match txt with
  | EmptyString => acc
  | String c r =>
      if dec c then int_acc r (10 * acc + (nat_of_ascii c - 48))
      else int_acc r acc
  end.

Definition int (txt : string) : nat := int_acc txt 0.

Definition is_leap (y : nat) : bool :=
  (y mod 4 =? 0) && (negb (y mod 100 =? 0) || (y mod 400 =? 0)).

Definition days_in_month (y m : nat) : nat :=
  match m with
  | 2 => if is_leap y then 29 else 28
  | 4 | 6 | 9 | 11 => 30
  | _ => 31
  end.

Definition same_directive (a b : directive) : bool :=
  match a, b with
  | Year, Year | Month, Month | Day, Day | Hour, Hour | Minute, Minute => true
  | _, _ => false
  end.

(** The value of a field; a directive absent from the format has the
    default value [dflt]. *)
Fixpoint field (d : directive) (dflt : nat) (found : list (directive * string)) : nat :=
  match found with
  | [] => dflt
  | (d', txt) :: found' =>
      if same_directive d d' then int txt else field d dflt found'
  end.

Definition strptime (data_string : string) (fmt : list directive) : result datetime :=
  match regex_match fmt data_string with
  | None => Raise ValueError                    (* does not match format *)
  | Some (found, rest) =>
      match rest with
      | String _ _ => Raise ValueError          (* unconverted data remains *)
      | EmptyString =>
          let y := field Year 1900 found in
          let m := field Month 1 found in
          let d := field Day 1 found in
          if (1 <=? y) && (d <=? days_in_month y m)
          then Ok (mk_datetime y m d (field Hour 0 found) (field Minute 0 found))
          else Raise ValueError                 (* no such date *)
      end
  end.

(** ["%Y%m%d_%H%M"] *)
Definition fmt_Ymd_HM : list directive :=
  [Year; Month; Day; Lit "_"; Hour; Minute].

(** ["%Y%m%d_%H00"] *)
Definition fmt_Ymd_H00 : list directive :=
  [Year; Month; Day; Lit "_"; Hour; Lit "0"; Lit "0"].

(** ["%Y-%m-%d %H:%M"] *)
Definition fmt_Y_m_d_H_M : list directive :=
  [Year; Lit "-"; Month; Lit "-"; Day; Spaces; Hour; Lit ":"; Minute].

End Strptime.

(** ** [parse_datetime_string] *)

Definition parse_datetime_string (datetime_str : string) : option datetime :=
  match Strptime.strptime datetime_str Strptime.fmt_Ymd_HM with
  | Ok dt => Some dt
  | Raise _ =>
      match Strptime.strptime datetime_str Strptime.fmt_Ymd_H00 with
      | Ok dt => Some dt
      | Raise _ => None
      end
  end.

(** ** numpy arrays *)

Module Np.

(** An array: its shape, the name of its element type ([a.dtype.name])
    and its elements in row-major order. *)
Record ndarray : Type := mk_ndarray {
  shape : list nat;
  dtype : string;
  elems : list Z
}.

(** numpy's conversion rules, taken as given: the common element type of
    several ([np.result_type]; [None] when they have none), and the value
    an element takes when it is converted from one type to another. *)
Record casting : Type := mk_casting {
  result_type : list string -> option string;
  convert : string -> string -> Z -> Z
}.

Definition ndim (a : ndarray) : nat := length (shape a).

Definition size_of (shp : list nat) : nat := fold_right Nat.mul 1 shp.

(** Every numpy array has as many elements as its shape says. *)
Definition wf (a : ndarray) : Prop := length (elems a) = size_of (shape a).

(** [a.squeeze(0)]: drops the first axis, which must have length one. *)
Definition squeeze0 (a : ndarray) : result ndarray :=
  match shape a with
  | 1 :: shp => Ok (mk_ndarray shp (dtype a) (elems a))
  | _ => Raise ValueError
  end.

(** [a[i]] for a non-negative [i]: the [i]-th slice along the first axis. *)
Definition index0 (a : ndarray) (i : nat) : result ndarray :=
  match shape a with
  | n :: shp =>
      if i <? n
      then Ok (mk_ndarray shp (dtype a)
                          (take (size_of shp) (drop (i * size_of shp) (elems a))))
      else Raise IndexError
  | [] => Raise IndexError
  end.

(** The element type [np.stack] gives its result: the one the arrays
    share, or else what numpy's promotion makes of their types. *)
Definition common_dtype (c : casting) (arrays : list ndarray) : option string :=
  match arrays with
  | [] => None
  | a :: rest =>
      if forallb (fun b => String.eqb (dtype b) (dtype a)) rest
      then Some (dtype a)
      else result_type c (map dtype arrays)
  end.

(** [a.astype(d)]: an array that has the type already is taken as it is. *)
Definition astype (c : casting) (d : string) (a : ndarray) : ndarray :=
  if String.eqb (dtype a) d then a
  else mk_ndarray (shape a) d (map (convert c (dtype a) d) (elems a)).

(** [np.stack(arrays, axis=0)]: needs at least one array, and all of the
    same shape ([ValueError] otherwise); the arrays are then converted to
    their common element type ([TypeError] when they have none) and
    joined. *)
Definition stack (c : casting) (arrays : list ndarray) : result ndarray :=
  match arrays with
  | [] => Raise ValueError
  | a :: _ =>
      if forallb (fun b => bool_decide (shape b = shape a)) arrays
      then match common_dtype c arrays with
           | Some d =>
               Ok (mk_ndarray (length arrays :: shape a) d
                              (concat (map (fun b => elems (astype c d b)) arrays)))
           | None => Raise TypeError
           end
      else Raise ValueError
  end.

(** [np.arange(n)], the values of a dimension that has no coordinate
    variable. *)
Definition arange (n : nat) : ndarray :=
  mk_ndarray [n] "int64" (map Z.of_nat (seq 0 n)).

End Np.

Export Np (ndarray).

(** ** Insertion-ordered dictionaries with string keys

    A Python [dict] keeps its keys in the order of their first insertion;
    assigning to a key already present replaces the value in place. *)

Module Dict.

Definition mem {V : Type} (k : string) (d : list (string * V)) : bool :=
  existsb (fun kv => String.eqb (fst kv) k) d.

Fixpoint get {V : Type} (k : string) (d : list (string * V)) : option V :=
  match d with
  | [] => None
  | (k', v) :: d' => if String.eqb k' k then Some v else get k d'
  end.

(** [d[k] = v] *)
Fixpoint set {V : Type} (k : string) (v : V) (d : list (string * V))
  : list (string * V) :=
  match d with
  | [] => [(k, v)]
  | (k', v') :: d' =>
      if String.eqb k' k then (k', v) :: d' else (k', v') :: set k v d'
  end.

(** In-place change of the value stored at a key that is present. *)
Fixpoint update {V : Type} (k : string) (f : V -> V) (d : list (string * V))
  : list (string * V) :=
  match d with
  | [] => []
  | (k', v') :: d' =>
      if String.eqb k' k then (k', f v') :: d' else (k', v') :: update k f d'
  end.

Definition keys {V : Type} (d : list (string * V)) : list string := map fst d.

End Dict.

(** ** Data model of the merge *)

(** An opened NetCDF dataset: its data variables in file order, the two
    grid coordinates when the file stores them as coordinate variables,
    and its dimensions with their lengths ([ds.sizes]).  No two variables
    of a dataset bear the same name. *)
Record dataset : Type := mk_dataset {
  data_vars : list (string * ndarray);
  latitude : option ndarray;
  longitude : option ndarray;
  dim_sizes : list (string * nat)
}.

(** A file of an input directory: its name, the dataset it holds when
    [xr.open_dataset] can read it, and the exception [xr.open_dataset]
    raises when it cannot (a file that is not NetCDF gives [ValueError], a
    file that cannot be read [OSError]). *)
Record nc_file : Type := mk_nc_file {
  path : string;
  payload : option dataset;
  open_error : exn
}.

Inductive kind : Type := PL | SL | TP.

(** [{'pl': ..., 'sl': ..., 'tp': ...}] *)
Record group : Type := mk_group {
  g_pl : option nc_file;
  g_sl : option nc_file;
  g_tp : option nc_file
}.

(** The dataset written for one timestep, with its attributes. *)
Record combined_record : Type := mk_combined_record {
  rec_data_vars : list (string * ndarray);
  rec_latitude : ndarray;
  rec_longitude : ndarray;
  attr_total_variables : nat;
  attr_pressure_levels : string;
  attr_pl_variables : string;
  attr_sl_variables : string;
  attr_tp_variables : string;
  attr_variable_list : string;
  attr_datetime : string
}.

(** What lies outside the program: what creating the output directory
    raises, if it raises; numpy's conversion rules; whether [xr.Dataset]
    accepts the variables and coordinates it is given; whether writing a
    given output file succeeds, and what is raised when it does not;
    whether the file can be read back afterwards, and what is raised when
    it cannot. *)
Record environment : Type := mk_environment {
  mkdir_error : option exn;
  numpy : Np.casting;
  dataset_accepted : list (string * ndarray) -> ndarray -> ndarray -> bool;
  write_succeeds : string -> bool;
  write_error : string -> exn;
  reopen_succeeds : string -> bool;
  reopen_error : string -> exn
}.

Inductive handle : Type :=
| Source (k : kind) (name : string)
| Output (name : string).

(** The observable steps of a run. *)
Inductive event : Type :=
| Skipped (datetime_str : string)
| Processing (datetime_str : string)
| Opened (h : handle)
| Closed (h : handle)
| Saved (output_file : string) (r : combined_record)
| Failed (datetime_str : string) (e : exn).

Record state : Type := mk_state {
  trace : list event;
  output_dir : gmap string combined_record;
  processed_count : nat
}.

(** Computations that change the state and may raise; what was done
    before an exception stays done. *)
Definition M (A : Type) : Type := state -> result A * state.

#[global] Instance M_bind : MBind M :=
  fun A B (k : A -> M B) (m : M A) (s : state) =>
    match m s with
    | (Ok a, s') => k a s'
    | (Raise e, s') => (Raise e, s')
    end.

#[global] Instance M_ret : MRet M := fun A a s => (Ok a, s).

Definition lift {A : Type} (r : result A) : M A := fun s => (r, s).

Definition log (e : event) (s : state) : state :=
  mk_state (trace s ++ [e]) (output_dir s) (processed_count s).

Definition emit (e : event) : M unit := fun s => (Ok tt, log e s).

(** ** Flattening the variables of one group ([merge_data], the body of
    the [try]) *)

Definition pressure_levels : list nat :=
  [50; 100; 150; 200; 250; 300; 400; 500; 600; 700; 850; 925; 1000].

(** [pressure_levels[level_idx]] *)
Definition pressure_at (level_idx : nat) : result nat :=
  match nth_error pressure_levels level_idx with
  | Some pressure => Ok pressure
  | None => Raise IndexError
  end.

(** [data.shape[0]] *)
Definition shape0 (data : ndarray) : result nat :=
  match Np.shape data with
  | n :: _ => Ok n
  | [] => Raise IndexError
  end.

(** The two lists filled in step: [all_data] and [var_names]. *)
Definition flat : Type := list ndarray * list string.

(** [for level_idx in range(data.shape[0])]: the slice is appended first,
    then the pressure is looked up, then the name is appended. *)
Fixpoint level_loop (var : string) (data : ndarray) (levels : list nat) (acc : flat)
  : result flat :=
  match levels with
  | [] => Ok acc
  | level_idx :: levels' =>
      slice ← Np.index0 data level_idx;
      let all_data := acc.1 ++ [slice] in
      pressure ← pressure_at level_idx;
      level_loop var data levels' (all_data, acc.2 ++ [var +:+ Py.str pressure])
  end.

(** [for var in pl_vars]: only four-dimensional variables are used. *)
Fixpoint pl_loop (vars : list (string * ndarray)) (acc : flat) : result flat :=
  match vars with
  | [] => Ok acc
  | (var, data) :: vars' =>
      if Np.ndim data =? 4 then
        data ← Np.squeeze0 data;
        n ← shape0 data;
        acc ← level_loop var data (seq 0 n) acc;
        pl_loop vars' acc
      else pl_loop vars' acc
  end.

(** [for var in sl_vars] and [for var in tp_vars]: a three-dimensional
    variable loses its first axis, any other is taken as it is. *)
Fixpoint surface_loop (vars : list (string * ndarray)) (acc : flat) : result flat :=
  match vars with
  | [] => Ok acc
  | (var, data) :: vars' =>
      data ← (if Np.ndim data =? 3 then Np.squeeze0 data else Ok data);
      surface_loop vars' (acc.1 ++ [data], acc.2 ++ [var])
  end.

(** [for i, var_name in enumerate(var_names): data_vars[var_name] = merged[i]] *)
Fixpoint fill_data_vars (var_names : list string) (i : nat) (merged : ndarray)
    (d : list (string * ndarray)) : result (list (string * ndarray)) :=
  match var_names with
  | [] => Ok d
  | var_name :: var_names' =>
      a ← Np.index0 merged i;
      fill_data_vars var_names' (S i) merged (Dict.set var_name a d)
  end.

(** [ds.latitude.values], [ds.longitude.values]: attribute access on a
    dataset finds a variable of that name, be it a coordinate or a data
    variable, and otherwise a dimension of that name, whose values are
    then its positions; when there is none of these the access raises
    (a global attribute of that name is found last, and has no
    [.values], which raises [AttributeError] as well).  [stored] is the
    coordinate variable of that name, if the file has one. *)
Definition coordinate (ds : dataset) (name : string) (stored : option ndarray)
  : result ndarray :=
  match stored with
  | Some a => Ok a
  | None =>
      match Dict.get name (data_vars ds) with
      | Some a => Ok a
      | None =>
          match Dict.get name (dim_sizes ds) with
          | Some n => Ok (Np.arange n)
          | None => Raise AttributeError
          end
      end
  end.

(** [xr.open_dataset] on a source file. *)
Definition open_dataset (k : kind) (file : nc_file) : M dataset :=
  fun s =>
    match payload file with
    | Some ds => (Ok ds, log (Opened (Source k (path file))) s)
    | None => (Raise (open_error file), s)
    end.

Definition close (h : handle) : M unit := emit (Closed h).

(** [xr.Dataset(data_vars, coords=coords)] followed by the attributes. *)
Definition make_dataset (env : environment) (d : list (string * ndarray))
    (lat lon : ndarray) (var_names pl_vars sl_vars tp_vars : list string)
    (datetime_str : string) : result combined_record :=
  if dataset_accepted env d lat lon then
    Ok {| rec_data_vars := d;
          rec_latitude := lat;
          rec_longitude := lon;
          attr_total_variables := length var_names;
          attr_pressure_levels := Py.join ", " (map Py.str pressure_levels);
          attr_pl_variables := Py.join ", " pl_vars;
          attr_sl_variables := Py.join ", " sl_vars;
          attr_tp_variables := Py.join ", " tp_vars;
          attr_variable_list := Py.join ", " var_names;
          attr_datetime := datetime_str |}
  else Raise ValueError.

(** [merged_ds.to_netcdf(output_file)] *)
Definition to_netcdf (env : environment) (output_file : string) (r : combined_record)
  : M unit :=
  fun s =>
    if write_succeeds env output_file then
      (Ok tt, mk_state (trace s ++ [Saved output_file r])
                       (<[output_file := r]> (output_dir s))
                       (processed_count s))
    else (Raise (write_error env output_file), s).

(** The verification read of the file just written. *)
Definition verify (env : environment) (output_file : string) (r : combined_record)
  : M unit :=
  fun s =>
    if reopen_succeeds env output_file then
      match rec_data_vars r with
      | [] => (Raise IndexError, log (Opened (Output output_file)) s)
      | _ :: _ =>
          (Ok tt, log (Closed (Output output_file)) (log (Opened (Output output_file)) s))
      end
    else (Raise (reopen_error env output_file), s).

Definition count_processed : M unit :=
  fun s => (Ok tt, mk_state (trace s) (output_dir s) (S (processed_count s))).

(** [output_dir / f"era5_{datetime_str}.nc"] *)
Definition output_name (datetime_str : string) : string :=
  "era5_" +:+ datetime_str +:+ ".nc".

(** The first part of the [try] for one complete group: the three files
    are opened and flattened, the slices are stacked and the output
    dataset is built in memory. *)
Definition build_record (env : environment) (datetime_str : string)
    (pl sl tp : nc_file) : M combined_record :=
  ds_pl ← open_dataset PL pl;
  let pl_vars := Dict.keys (data_vars ds_pl) in
  acc ← lift (pl_loop (data_vars ds_pl) ([], []));
  ds_sl ← open_dataset SL sl;
  let sl_vars := Dict.keys (data_vars ds_sl) in
  acc ← lift (surface_loop (data_vars ds_sl) acc);
  ds_tp ← open_dataset TP tp;
  let tp_vars := Dict.keys (data_vars ds_tp) in
  acc ← lift (surface_loop (data_vars ds_tp) acc);
  let all_data := acc.1 in
  let var_names := acc.2 in
  merged ← lift (Np.stack (numpy env) all_data);
  lat ← lift (coordinate ds_pl "latitude" (latitude ds_pl));
  lon ← lift (coordinate ds_pl "longitude" (longitude ds_pl));
  d ← lift (fill_data_vars var_names 0 merged []);
  lift (make_dataset env d lat lon var_names pl_vars sl_vars tp_vars datetime_str).

(** The body of the [try]: build, write, verify, close the three source
    datasets, count. *)
Definition process_group (env : environment) (datetime_str : string)
    (pl sl tp : nc_file) : M unit :=
  merged_ds ← build_record env datetime_str pl sl tp;
  let output_file := output_name datetime_str in
  to_netcdf env output_file merged_ds;;
  verify env output_file merged_ds;;
  close (Source PL (path pl));;
  close (Source SL (path sl));;
  close (Source TP (path tp));;
  count_processed.

(** [try: ... except Exception as e: print(...)] *)
Definition guarded (env : environment) (datetime_str : string)
    (pl sl tp : nc_file) (s : state) : state :=
  match process_group env datetime_str pl sl tp s with
  | (Ok _, s') => s'
  | (Raise e, s') => log (Failed datetime_str e) s'
  end.

(** [for datetime_str, files in date_groups.items()] *)
Fixpoint merge_loop (env : environment) (date_groups : list (string * group))
    (s : state) : state :=
  match date_groups with
  | [] => s
  | (datetime_str, files) :: rest =>
      match g_pl files, g_sl files, g_tp files with
      | Some pl, Some sl, Some tp =>
          merge_loop env rest
            (guarded env datetime_str pl sl tp (log (Processing datetime_str) s))
      | _, _, _ => merge_loop env rest (log (Skipped datetime_str) s)
      end
  end.

(** ** Scanning, filtering and grouping ([merge_data], before the loop) *)

(** [dir.glob("*.nc")]: the entries whose name ends in [.nc]. *)
Definition glob_nc (dir : list nc_file) : list nc_file :=
  filter (fun file => Is_true (Py.endswith (path file) ".nc")) dir.

(** [sorted(...)]: paths of one directory are ordered by name. *)
Fixpoint insert_sorted (file : nc_file) (l : list nc_file) : list nc_file :=
  match l with
  | [] => [file]
  | g :: l' =>
      if String.leb (path file) (path g) then file :: g :: l'
      else g :: insert_sorted file l'
  end.

Definition sorted (l : list nc_file) : list nc_file := fold_right insert_sorted [] l.

(** Parsing of [start_time] and of [end_time].  The outer [None] is the
    [return] that ends [merge_data]; [Some None] is "no bound", which is
    also what an empty string gives ([if start_time:]). *)
Definition parse_bound (time : option string) : option (option datetime) :=
  match time with
  | None => Some None
  | Some EmptyString => Some None
  | Some t =>
      match Strptime.strptime t Strptime.fmt_Y_m_d_H_M with
      | Ok dt => Some (Some dt)
      | Raise _ =>
          match Strptime.strptime t Strptime.fmt_Ymd_HM with
          | Ok dt => Some (Some dt)
          | Raise _ => None
          end
      end
  end.

(** [if start_dt and file_dt < start_dt: continue] *)
Definition before_start (start_dt : option datetime) (file_dt : datetime) : bool :=
  match start_dt with
  | Some dt => dt_lt file_dt dt
  | None => false
  end.

(** [if end_dt and file_dt > end_dt: continue] *)
Definition after_end (end_dt : option datetime) (file_dt : datetime) : bool :=
  match end_dt with
  | Some dt => dt_gt file_dt dt
  | None => false
  end.

Definition scanned : Type := kind * nc_file * string * datetime.

(** One of the three scanning loops. *)
Fixpoint scan_files (k : kind) (files : list nc_file)
    (start_dt end_dt : option datetime) : list scanned :=
  match files with
  | [] => []
  | file :: rest =>
      let datetime_str := extract_datetime_from_filename (path file) in
      match parse_datetime_string datetime_str with
      | Some file_dt =>
          if before_start start_dt file_dt then scan_files k rest start_dt end_dt
          else if after_end end_dt file_dt then scan_files k rest start_dt end_dt
          else (k, file, datetime_str, file_dt) :: scan_files k rest start_dt end_dt
      | None => scan_files k rest start_dt end_dt
      end
  end.

Definition empty_group : group := mk_group None None None.

(** [date_groups[datetime_str][file_type] = file] *)
Definition set_slot (k : kind) (file : nc_file) (g : group) : group :=
  match k with
  | PL => mk_group (Some file) (g_sl g) (g_tp g)
  | SL => mk_group (g_pl g) (Some file) (g_tp g)
  | TP => mk_group (g_pl g) (g_sl g) (Some file)
  end.

(** One step of the grouping loop. *)
Definition add_file (date_groups : list (string * group)) (x : scanned)
  : list (string * group) :=
  let '(file_type, file, datetime_str, _) := x in
  let date_groups :=
    if Dict.mem datetime_str date_groups then date_groups
    else Dict.set datetime_str empty_group date_groups in
  Dict.update datetime_str (set_slot file_type file) date_groups.

Definition group_files (all_files : list scanned) : list (string * group) :=
  fold_left add_file all_files [].

(** ** [merge_data] *)

(** A run ends with the exception raised when the output directory cannot
    be created, or returns early because a bound could not be parsed, or
    goes through the loop; either way it ends in a state. *)
Inductive outcome : Type :=
| Raised (e : exn) (s : state)
| Aborted (s : state)
| Completed (s : state).

Definition initial_state (out : gmap string combined_record) : state :=
  mk_state [] out 0.

(** All files that pass the filter, pressure-level files first. *)
Definition all_files (pl_dir sl_dir tp_dir : list nc_file)
    (start_dt end_dt : option datetime) : list scanned :=
  scan_files PL (sorted (glob_nc pl_dir)) start_dt end_dt
  ++ scan_files SL (sorted (glob_nc sl_dir)) start_dt end_dt
  ++ scan_files TP (sorted (glob_nc tp_dir)) start_dt end_dt.

(** The three input directories are given by their entries, the output
    directory by the files it holds once [output_dir.mkdir(parents=True,
    exist_ok=True)] has returned; it is a directory of its own.  An
    exception of [mkdir] is not caught.  The messages printed on the way
    (other than those recorded as events) are left out. *)
Definition merge_data (env : environment) (pl_dir sl_dir tp_dir : list nc_file)
    (out : gmap string combined_record) (start_time end_time : option string)
  : outcome :=
  match mkdir_error env with
  | Some e => Raised e (initial_state out)
  | None =>
      match parse_bound start_time with
      | None => Aborted (initial_state out)
      | Some start_dt =>
          match parse_bound end_time with
          | None => Aborted (initial_state out)
          | Some end_dt =>
              let date_groups :=
                group_files (all_files pl_dir sl_dir tp_dir start_dt end_dt) in
              Completed (merge_loop env date_groups (initial_state out))
          end
      end
  end.

(** ** Vocabulary of the statements *)

(** The tokens the extractor looks for. *)
Definition is_date_token (part : string) : bool :=
  (String.length part =? 8) && Py.isdigit part.

Definition is_time_token (part : string) : bool :=
  (String.length part =? 4) && Py.isdigit part.

(** Both a date token and a time token occur among the parts. *)
Definition has_both_tokens (parts : list string) : bool :=
  existsb is_date_token parts && existsb is_time_token parts.

(** A group is complete when none of its three slots is [None]. *)
Definition complete (g : group) : bool :=
  match g_pl g, g_sl g, g_tp g with
  | Some _, Some _, Some _ => true
  | _, _, _ => false
  end.

(** The directory a kind of file is scanned from. *)
Definition dir_of (k : kind) (pl_dir sl_dir tp_dir : list nc_file) : list nc_file :=
  match k with
  | PL => pl_dir
  | SL => sl_dir
  | TP => tp_dir
  end.

(** The inclusion rule in the words of the specification. *)
Definition within (start_dt end_dt : option datetime) (file_dt : datetime) : Prop :=
  (start_dt = None \/ exists dt, start_dt = Some dt /\ dt_ge file_dt dt = true)
  /\ (end_dt = None \/ exists dt, end_dt = Some dt /\ dt_le file_dt dt = true).

(** The files an output directory holds after the writes of a trace. *)
Definition apply_saves (evs : list event) (out : gmap string combined_record)
  : gmap string combined_record :=
  fold_left (fun o e => match e with
                        | Saved f r => <[f := r]> o
                        | _ => o
                        end) evs out.

(** The state in which nothing has happened yet. *)
Definition blank : state := mk_state [] ∅ 0.

(** The state [s] followed by what a run from the blank state did. *)
Definition extend (s d : state) : state :=
  mk_state (trace s ++ trace d)
           (apply_saves (trace d) (output_dir s))
           (processed_count s + processed_count d).

(** The names the flattener gives to the levels of one pressure-level
    variable. *)
Definition level_names (var : string) : list string :=
  map (fun pressure => var +:+ Py.str pressure) pressure_levels.

(** The flat names expected for given source variable names. *)
Definition flat_names (pl_vars sl_vars tp_vars : list string) : list string :=
  flat_map level_names pl_vars ++ sl_vars ++ tp_vars.

(** The slice of level [i] of a variable shaped [(1, levels, H, W)]. *)
Definition level_slice (H W : nat) (a : ndarray) (i : nat) : ndarray :=
  Np.mk_ndarray [H; W] (Np.dtype a)
    (take (Np.size_of [H; W]) (drop (i * Np.size_of [H; W]) (Np.elems a))).

(** A variable shaped [(1, H, W)] without its first axis. *)
Definition surface_slice (H W : nat) (a : ndarray) : ndarray :=
  Np.mk_ndarray [H; W] (Np.dtype a) (Np.elems a).

(** The flat arrays expected for given source variables. *)
Definition flat_arrays (H W : nat) (pl_vars sl_vars tp_vars : list (string * ndarray))
  : list ndarray :=
  flat_map (fun va => map (level_slice H W va.2) (seq 0 13)) pl_vars
  ++ map (fun va => surface_slice H W va.2) sl_vars
  ++ map (fun va => surface_slice H W va.2) tp_vars.

(** The flat names and arrays expected for three opened datasets. *)
Definition names_of (ds_pl ds_sl ds_tp : dataset) : list string :=
  flat_names (Dict.keys (data_vars ds_pl)) (Dict.keys (data_vars ds_sl))
             (Dict.keys (data_vars ds_tp)).

Definition arrays_of (H W : nat) (ds_pl ds_sl ds_tp : dataset) : list ndarray :=
  flat_arrays H W (data_vars ds_pl) (data_vars ds_sl) (data_vars ds_tp).

(** Kinds of events. *)
Definition is_source_close (e : event) : bool :=
  match e with
  | Closed (Source _ _) => true
  | _ => false
  end.

Definition is_save (e : event) : bool :=
  match e with
  | Saved _ _ => true
  | _ => false
  end.

(** The slice [a[i]] of an array whose first axis is long enough. *)
Definition slice (a : ndarray) (i : nat) : ndarray :=
  Np.mk_ndarray (tail (Np.shape a)) (Np.dtype a)
    (take (Np.size_of (tail (Np.shape a)))
          (drop (i * Np.size_of (tail (Np.shape a))) (Np.elems a))).

(** The length of the level axis of a four-dimensional variable, and of
    its time axis. *)
Definition levels (a : ndarray) : nat := nth 1 (Np.shape a) 0.
Definition times (a : ndarray) : nat := nth 0 (Np.shape a) 0.

Definition is_source_open (e : event) : bool :=
  match e with
  | Opened (Source _ _) => true
  | _ => false
  end.

(** The events that belong to the processing of the group of a key. *)
Definition group_event (key : string) (e : event) : Prop :=
  match e with
  | Opened _ | Closed _ => True
  | Saved f _ => f = output_name key
  | Failed k _ => k = key
  | Processing _ | Skipped _ => False
  end.

(** The record last saved under a name, if any. *)
Fixpoint saved_as (f : string) (evs : list event) : option combined_record :=
  match evs with
  | [] => None
  | e :: evs' =>
      match saved_as f evs' with
      | Some r => Some r
      | None =>
          match e with
          | Saved f' r => if String.eqb f' f then Some r else None
          | _ => None
          end
      end
  end.

(** A time argument matches a format when [strptime] accepts it. *)
Definition matches_format (t : string) (fmt : list Strptime.directive) : bool :=
  match Strptime.strptime t fmt with
  | Ok _ => true
  | Raise _ => false
  end.

(** A bound that is given, not empty, and matches neither format. *)
Definition bad_bound (time : option string) : Prop :=
  exists t : string,
    time = Some t /\ t <> EmptyString
    /\ matches_format t Strptime.fmt_Y_m_d_H_M = false
    /\ matches_format t Strptime.fmt_Ymd_HM = false.

(** ** Framing

    A computation is framed when running it from any state is running it
    from the blank state and appending what it did. *)
Definition framed {A : Type} (m : M A) : Prop :=
  forall s : state, m s = ((m blank).1, extend s (m blank).2).

(** A computation is quiet when all it does to the state is to append
    events that satisfy [p]. *)
Definition quiet {A : Type} (p : event -> bool) (m : M A) : Prop :=
  forall s : state, exists evs : list event,
    forallb p evs = true
    /\ (m s).2 = mk_state (trace s ++ evs) (output_dir s) (processed_count s).


(** ** Sample inputs

    One timestep on a grid of one latitude and two longitudes, with the
    environments in which everything succeeds, the write fails, and the
    verification read fails. *)

Module Sample.

(** An array of 32-bit floats of the given shape whose elements count up
    from [base]. *)
Definition ramp (shp : list nat) (base : Z) : ndarray :=
  Np.mk_ndarray shp "float32"
    (map (fun i => (base + Z.of_nat i)%Z) (seq 0 (Np.size_of shp))).

(** Conversion rules under which arrays of different element types become
    64-bit floats, with the same codes. *)
Definition to_float64 : Np.casting :=
  Np.mk_casting (fun _ => Some "float64") (fun _ _ x => x).

(** The output directory can be created, every dataset is accepted, and
    the write and the verification read succeed or fail with [OSError] as
    said. *)
Definition env_where (write_ok reopen_ok : bool) : environment :=
  mk_environment None to_float64 (fun _ _ _ => true)
                 (fun _ => write_ok) (fun _ => OSError)
                 (fun _ => reopen_ok) (fun _ => OSError).

Definition env_ok : environment := env_where true true.

Definition env_write_fails : environment := env_where false true.

Definition env_reopen_fails : environment := env_where true false.

(** The dimensions of the sample grid. *)
Definition grid : list (string * nat) := [("latitude", 1); ("longitude", 2)].

Definition lat : ndarray := ramp [1] 0.
Definition lon : ndarray := ramp [2] 0.

Definition pl_ds : dataset :=
  mk_dataset [("t", ramp [1; 13; 1; 2] 1000); ("z", ramp [1; 13; 1; 2] 2000)]
             (Some lat) (Some lon) grid.
Definition sl_ds : dataset :=
  mk_dataset [("t2m", ramp [1; 1; 2] 3000)] (Some lat) (Some lon) grid.
Definition tp_ds : dataset :=
  mk_dataset [("tp", ramp [1; 1; 2] 4000)] (Some lat) (Some lon) grid.

Definition pl : nc_file := mk_nc_file "era5_20180201_0000_pl.nc" (Some pl_ds) OSError.
Definition sl : nc_file := mk_nc_file "era5_20180201_0000_sl.nc" (Some sl_ds) OSError.
Definition tp : nc_file := mk_nc_file "era5_20180201_0000_tp.nc" (Some tp_ds) OSError.

Definition key : string := "20180201_0000".
Definition midnight : datetime := mk_datetime 2018 2 1 0 0.

(** A surface file whose variable bears the name of the precipitation
    variable. *)
Definition sl_named_tp : nc_file :=
  mk_nc_file "era5_20180201_0000_sl.nc"
             (Some (mk_dataset [("tp", ramp [1; 1; 2] 3000)] (Some lat) (Some lon) grid))
             OSError.

(** A pressure-level variable with fourteen levels, with one time and
    with two. *)
Definition pl_14 : nc_file :=
  mk_nc_file "era5_20180201_0000_pl.nc"
             (Some (mk_dataset [("t", ramp [1; 14; 1; 2] 1000)] (Some lat) (Some lon) grid))
             OSError.
Definition pl_two_times : nc_file :=
  mk_nc_file "era5_20180201_0000_pl.nc"
             (Some (mk_dataset [("t", ramp [2; 14; 1; 2] 1000)] (Some lat) (Some lon) grid))
             OSError.

(** A file whose name gives no date-time. *)
Definition notes : nc_file := mk_nc_file "notes.nc" None ValueError.

(** The three files of the timestep at a given hour of the sample day. *)
Definition at_hour (hhmm suffix : string) (ds : dataset) : nc_file :=
  mk_nc_file ("era5_20180201_" +:+ hhmm +:+ "_" +:+ suffix +:+ ".nc") (Some ds)
             OSError.

Definition hours : list string := ["0000"; "0600"; "1200"; "1800"].

(** The state a run over the three sample files ends in. *)
Definition first_run : state :=
  merge_loop env_ok (group_files (all_files [pl] [sl] [tp] None None))
             (initial_state ∅).

(** The state a run ends in when the precipitation file is missing. *)
Definition run_without_tp : state :=
  merge_loop env_ok (group_files (all_files [pl] [sl] [] None None))
             (initial_state ∅).

End Sample.


(** ** Canonical keys and file names *)

(** [f"{n:02d}"] for a non-negative [n]. *)
Definition format_02d (n : nat) : string :=
  if n <? 10 then "0" +:+ Py.str n else Py.str n.

(** [dt.strftime("%Y%m%d_%H%M")], for a year of four digits. *)
Definition key_of (dt : datetime) : string :=
  Py.str (year dt) +:+ format_02d (month dt) +:+ format_02d (day dt) +:+ "_"
  +:+ format_02d (hour dt) +:+ format_02d (minute dt).

(** A date-time that exists and whose year prints as four digits. *)
Definition valid_datetime (dt : datetime) : Prop :=
  String.length (Py.str (year dt)) = 4
  /\ 1 <= year dt
  /\ 1 <= month dt <= 12
  /\ 1 <= day dt <= Strptime.days_in_month (year dt) (month dt)
  /\ hour dt < 24
  /\ minute dt < 60.

(** ** Comparison of date-times, field by field *)

Definition dt_fields (dt : datetime) : list nat :=
  [year dt; month dt; day dt; hour dt; minute dt].

(** Lexicographic comparison of two lists of numbers. *)
Fixpoint list_compare (l1 l2 : list nat) : comparison :=
  match l1, l2 with
  | x :: l1', y :: l2' => lex (x ?= y) (list_compare l1' l2')
  | _, _ => Eq
  end.

(** ** Vocabulary of grouping *)

Definition kind_eqb (a b : kind) : bool :=
  match a, b with
  | PL, PL | SL, SL | TP, TP => true
  | _, _ => false
  end.

(** [files[file_type]] *)
Definition slot (k : kind) (g : group) : option nc_file :=
  match k with
  | PL => g_pl g
  | SL => g_sl g
  | TP => g_tp g
  end.

(** The last scanned file of a kind and key, if any. *)
Fixpoint last_file (k : kind) (key : string) (l : list scanned) : option nc_file :=
  match l with
  | [] => None
  | (k', file, key', _) :: l' =>
      match last_file k key l' with
      | Some f => Some f
      | None => if kind_eqb k' k && String.eqb key' key then Some file else None
      end
  end.

(** The strings of a list in the order of their first occurrence, those
    already [seen] being left out. *)
Fixpoint first_occurrences (l seen : list string) : list string :=
  match l with
  | [] => []
  | x :: l' =>
      if existsb (String.eqb x) seen then first_occurrences l' seen
      else x :: first_occurrences l' (seen ++ [x])
  end.

(** The group of a key after one more scanned file. *)
Definition add_to_group (key : string) (o : option group) (x : scanned) : option group :=
  if String.eqb x.1.2 key
  then Some (set_slot x.1.1.1 x.1.1.2 (default empty_group o))
  else o.

(** ** Vocabulary of the extractor *)

(** The last part that satisfies [p]. *)
Definition last_such (p : string -> bool) (parts : list string) : option string :=
  find p (rev parts).

(** ** Vocabulary of a run *)

(** What the loop reports on reaching a group. *)
Definition visit (kg : string * group) : event :=
  if complete kg.2 then Processing kg.1 else Skipped kg.1.

Definition is_visit (e : event) : bool :=
  match e with
  | Processing _ | Skipped _ => true
  | _ => false
  end.

Definition is_failed (e : event) : bool :=
  match e with
  | Failed _ _ => true
  | _ => false
  end.

(** One turn of the loop, on one group. *)
Definition turn (env : environment) (kg : string * group) : state :=
  merge_loop env [kg] blank.

(** The close of the dataset read back from the output file: the step the
    verification ends with, after which nothing in the turn can fail. *)
Definition is_output_close (e : event) : bool :=
  match e with
  | Closed (Output _) => true
  | _ => false
  end.

Definition closes_output (key : string) (e : event) : bool :=
  match e with
  | Closed (Output f) => String.eqb f (output_name key)
  | _ => false
  end.

Definition reports_failure (key : string) (e : event) : bool :=
  match e with
  | Failed k _ => String.eqb k key
  | _ => false
  end.

(** Directories with three timesteps: all three files of 00:00 are
    sound, the surface file of 06:00 is on another grid, and 12:00 has
    a pressure-level file only. *)
Definition mixed_pl : list nc_file :=
  map (fun h => Sample.at_hour h "pl" Sample.pl_ds) ["0000"; "0600"; "1200"].
Definition mixed_sl : list nc_file :=
  [Sample.at_hour "0000" "sl" Sample.sl_ds;
   Sample.at_hour "0600" "sl"
     (mk_dataset [("t2m", Sample.ramp [1; 2; 2] 3000)]
                 (Some (Sample.ramp [2] 0)) (Some Sample.lon)
                 [("latitude", 2); ("longitude", 2)])].
Definition mixed_tp : list nc_file :=
  map (fun h => Sample.at_hour h "tp" Sample.tp_ds) ["0000"; "0600"].

Definition mixed_run : state :=
  merge_loop Sample.env_ok (group_files (all_files mixed_pl mixed_sl mixed_tp None None))
             (initial_state ∅).

(** The names written, in the order of the writes. *)
Definition saved_names (evs : list event) : list string :=
  omap (fun e => match e with
                 | Saved f _ => Some f
                 | _ => None
                 end) evs.

(** ** Vocabulary of flattening in general *)

(** An array without its first axis. *)
Definition squeezed (a : ndarray) : ndarray :=
  Np.mk_ndarray (tail (Np.shape a)) (Np.dtype a) (Np.elems a).

(** What the pressure-level loop appends for one variable: a slice and a
    name for each of its levels, the names drawn from the front of the
    fixed list of pressures. *)
Definition pl_slices (va : string * ndarray) : list ndarray :=
  if Np.ndim va.2 =? 4
  then map (slice (squeezed va.2)) (seq 0 (levels va.2))
  else [].

Definition pl_names (va : string * ndarray) : list string :=
  if Np.ndim va.2 =? 4
  then map (fun pressure => va.1 +:+ Py.str pressure)
           (take (levels va.2) pressure_levels)
  else [].

(** A variable the pressure-level loop gets through. *)
Definition pl_var_ok (a : ndarray) : Prop :=
  Np.ndim a = 4 -> times a = 1 /\ levels a <= 13.

(** What the surface loop appends for one variable. *)
Definition surface_entry (a : ndarray) : ndarray :=
  if Np.ndim a =? 3 then squeezed a else a.

(** A variable the surface loop gets through. *)
Definition surface_var_ok (a : ndarray) : Prop :=
  Np.ndim a = 3 -> times a = 1.

(** The three loops, one after the other. *)
Definition flatten (ds_pl ds_sl ds_tp : dataset) : result flat :=
  acc ← pl_loop (data_vars ds_pl) ([], []);
  acc ← surface_loop (data_vars ds_sl) acc;
  surface_loop (data_vars ds_tp) acc.

(** The state after the three source files of a group have been opened. *)
Definition opened_all (pl sl tp : nc_file) (s : state) : state :=
  log (Opened (Source TP (path tp)))
      (log (Opened (Source SL (path sl)))
           (log (Opened (Source PL (path pl))) s)).

(** What follows the three loops: stacking, the coordinates of the
    pressure-level file, the variables and the attributes. *)
Definition assemble (env : environment) (datetime_str : string)
    (ds_pl ds_sl ds_tp : dataset) (acc : flat) : result combined_record :=
  merged ← Np.stack (numpy env) acc.1;
  lat ← coordinate ds_pl "latitude" (latitude ds_pl);
  lon ← coordinate ds_pl "longitude" (longitude ds_pl);
  d ← fill_data_vars acc.2 0 merged [];
  make_dataset env d lat lon acc.2 (Dict.keys (data_vars ds_pl))
               (Dict.keys (data_vars ds_sl)) (Dict.keys (data_vars ds_tp)) datetime_str.

(** The array assigned last to a name, when names and arrays are paired
    in order. *)
Fixpoint last_named (name : string) (names : list string) (arrays : list ndarray)
  : option ndarray :=
  match names, arrays with
  | n :: names', a :: arrays' =>
      match last_named name names' arrays' with
      | Some b => Some b
      | None => if String.eqb n name then Some a else None
      end
  | _, _ => None
  end.

(** A surface file on a grid of two latitudes. *)
Definition sl_other_grid : nc_file :=
  mk_nc_file "era5_20180201_0000_sl.nc"
             (Some (mk_dataset [("t2m", Sample.ramp [1; 2; 2] 3000)]
                               (Some (Sample.ramp [2] 0)) (Some Sample.lon)
                               [("latitude", 2); ("longitude", 2)]))
             OSError.

(** The dataset has nothing called [name]: no coordinate variable, no
    data variable and no dimension. *)
Definition lacks (ds : dataset) (name : string) (stored : option ndarray) : Prop :=
  stored = None
  /\ Dict.get name (data_vars ds) = None
  /\ Dict.get name (dim_sizes ds) = None.

(** A pressure-level file with a latitude dimension and no latitude
    variable, and one whose dimensions are called otherwise. *)
Definition pl_default_index : nc_file :=
  mk_nc_file "era5_20180201_0000_pl.nc"
             (Some (mk_dataset (data_vars Sample.pl_ds) None (Some Sample.lon)
                               Sample.grid))
             OSError.

Definition pl_other_names : nc_file :=
  mk_nc_file "era5_20180201_0000_pl.nc"
             (Some (mk_dataset (data_vars Sample.pl_ds) None None
                               [("lat", 1); ("lon", 2)]))
             OSError.

(** Every variable of a dataset has as many elements as its shape says. *)
Definition dataset_wf (ds : dataset) : Prop :=
  forall va, In va (data_vars ds) -> Np.wf va.2.

(** The two lists of the flattener are in step, and the arrays well
    formed. *)
Definition flat_ok (acc : flat) : Prop :=
  length acc.1 = length acc.2 /\ Forall Np.wf acc.1.

(** ** [check_data_info] and [main] *)

(** [if files: ds = xr.open_dataset(files[0]); ...; ds.close()]: only the
    first file of the sorted list is opened; what is printed about it is
    left out. *)
Definition inspect_first (k : kind) (files : list nc_file) : M unit :=
  match files with
  | [] => mret tt
  | file :: _ =>
      open_dataset k file;;
      close (Source k (path file))
  end.

Definition check_data_info (pl_dir sl_dir tp_dir : list nc_file)
  : M (list nc_file * list nc_file * list nc_file) :=
  let pl_files := sorted (glob_nc pl_dir) in
  let sl_files := sorted (glob_nc sl_dir) in
  let tp_files := sorted (glob_nc tp_dir) in
  inspect_first PL pl_files;;
  inspect_first SL sl_files;;
  inspect_first TP tp_files;;
  mret (pl_files, sl_files, tp_files).

(** [main] ends with an uncaught exception, of the inspection or of
    [merge_data], or with the return of [merge_data]. *)
Inductive main_outcome : Type :=
| Crashed (e : exn) (s : state)
| Returned (o : outcome).

(** The events of [s] after the events of [before]; the directory and
    the count are those of [s]. *)
Definition following (before s : state) : state :=
  mk_state (trace before ++ trace s) (output_dir s) (processed_count s).

(** [merge_data] called after the events of [before]. *)
Definition after (before : state) (o : outcome) : outcome :=
  match o with
  | Raised e s => Raised e (following before s)
  | Aborted s => Aborted (following before s)
  | Completed s => Completed (following before s)
  end.

(** An exception of [merge_data] ends [main] as well. *)
Definition uncaught (o : outcome) : main_outcome :=
  match o with
  | Raised e s => Crashed e s
  | _ => Returned o
  end.

(** The paths and the time bounds are the command-line arguments, a bound
    that is not given being [None]. *)
Definition main (env : environment) (pl_dir sl_dir tp_dir : list nc_file)
    (out : gmap string combined_record) (start_time end_time : option string)
  : main_outcome :=
  match check_data_info pl_dir sl_dir tp_dir (initial_state out) with
  | (Raise e, s) => Crashed e s
  | (Ok _, s) =>
      uncaught (after s (merge_data env pl_dir sl_dir tp_dir (output_dir s)
                                    start_time end_time))
  end.

(** What opening the first file of a sorted listing raises, if it
    raises. *)
Definition head_error (files : list nc_file) : option exn :=
  match files with
  | file :: _ => match payload file with
                 | None => Some (open_error file)
                 | Some _ => None
                 end
  | [] => None
  end.

(** What the inspection of one listing adds to the trace when it
    succeeds. *)
Definition inspection (k : kind) (files : list nc_file) : list event :=
  match files with
  | file :: _ => [Opened (Source k (path file)); Closed (Source k (path file))]
  | [] => []
  end.

(** The datasets open at the end of a trace: opened, and not closed
    since. *)
Definition handle_eqb (a b : handle) : bool :=
  match a, b with
  | Source k n, Source k' n' => kind_eqb k k' && String.eqb n n'
  | Output n, Output n' => String.eqb n n'
  | _, _ => false
  end.

Fixpoint remove_first (h : handle) (l : list handle) : list handle :=
  match l with
  | [] => []
  | h' :: l' => if handle_eqb h h' then l' else h' :: remove_first h l'
  end.

Definition still_open (evs : list event) : list handle :=
  fold_left (fun open e => match e with
                           | Opened h => open ++ [h]
                           | Closed h => remove_first h open
                           | _ => open
                           end) evs [].

(** The events of a complete inspection. *)
Definition inspections (pl_dir sl_dir tp_dir : list nc_file) : list event :=
  inspection PL (sorted (glob_nc pl_dir))
  ++ inspection SL (sorted (glob_nc sl_dir))
  ++ inspection TP (sorted (glob_nc tp_dir)).

(** What ends the inspection, if something does: the exception of the
    first of the three first files, in the order pl, sl, tp, that cannot
    be opened. *)
Definition inspection_error (pl_dir sl_dir tp_dir : list nc_file) : option exn :=
  match head_error (sorted (glob_nc pl_dir)) with
  | Some e => Some e
  | None =>
      match head_error (sorted (glob_nc sl_dir)) with
      | Some e => Some e
      | None => head_error (sorted (glob_nc tp_dir))
      end
  end.

(** A directory whose first file in name order is not a NetCDF file and
    bears no date. *)
Definition unreadable_first : list nc_file :=
  [Sample.pl; mk_nc_file "a.nc" None ValueError].

(** ** How a time bound may be written *)

(** [n] decimal digits. *)
Definition digits (n : nat) (txt : string) : Prop :=
  String.length txt = n /\ Py.all_chars Strptime.dec txt = true.

(** A month, an hour or a minute: one or two digits. *)
Definition short_field (txt : string) : Prop := digits 1 txt \/ digits 2 txt.

(** A day: one or two digits, or a blank and a digit. *)
Definition day_field (txt : string) : Prop :=
  short_field txt
  \/ exists c, txt = String " " (String c EmptyString) /\ Strptime.dec c = true.

(** White space, at least one character of it. *)
Definition blanks (w : string) : Prop :=
  w <> EmptyString /\ Py.all_chars Strptime.space w = true.

(** [t] is the date-time [dt] written [YYYYMMDD_HHMM] or
    [YYYY-MM-DD HH:MM]: a year of four digits, the other fields of one or
    two digits, and white space between the date and the time of the
    second form. *)
Definition spells (t : string) (dt : datetime) : Prop :=
  exists y m d h mi : string,
    digits 4 y /\ short_field m /\ day_field d /\ short_field h /\ short_field mi
    /\ dt = mk_datetime (Strptime.int y) (Strptime.int m) (Strptime.int d)
                        (Strptime.int h) (Strptime.int mi)
    /\ (t = y +:+ m +:+ d +:+ "_" +:+ h +:+ mi
        \/ exists w, blanks w
                     /\ t = y +:+ "-" +:+ m +:+ "-" +:+ d +:+ w +:+ h +:+ ":" +:+ mi).

(** The date-time exists: a month of the year, a day of that month, an
    hour of the day and a minute of the hour. *)
Definition in_calendar (dt : datetime) : Prop :=
  1 <= year dt
  /\ 1 <= month dt <= 12
  /\ 1 <= day dt <= Strptime.days_in_month (year dt) (month dt)
  /\ hour dt < 24
  /\ minute dt < 60.

(** What a directive of the format can match. *)
Definition field_ok (d : Strptime.directive) (txt : string) : Prop :=
  match d with
  | Strptime.Year => digits 4 txt
  | Strptime.Month => short_field txt /\ 1 <= Strptime.int txt <= 12
  | Strptime.Day => day_field txt /\ 1 <= Strptime.int txt <= 31
  | Strptime.Hour => short_field txt /\ Strptime.int txt < 24
  | Strptime.Minute => short_field txt /\ Strptime.int txt < 60
  | Strptime.Lit c => txt = String c EmptyString
  | Strptime.Spaces => blanks txt
  end.

(** [dt.strftime("%Y-%m-%d %H:%M")], for a year of four digits. *)
Definition dash_format (dt : datetime) : string :=
  Py.str (year dt) +:+ "-" +:+ format_02d (month dt) +:+ "-" +:+ format_02d (day dt)
  +:+ " " +:+ format_02d (hour dt) +:+ ":" +:+ format_02d (minute dt).

(** The text begins with four digits. *)
Definition starts_with_year (t : string) : bool :=
  match t with
  | String a (String b (String c (String d _))) =>
      Strptime.dec a && Strptime.dec b && Strptime.dec c && Strptime.dec d
  | _ => false
  end.

(** An environment in which the output path exists and is not a
    directory. *)
Definition env_no_output_dir : environment :=
  mk_environment (Some (Other "FileExistsError")) Sample.to_float64 (fun _ _ _ => true)
                 (fun _ => true) (fun _ => OSError) (fun _ => true) (fun _ => OSError).

(** ** The order of a listing *)

(** The order [sorted] puts the files of a directory in. *)
Definition path_le (f g : nc_file) : Prop := String.leb (path f) (path g) = true.

(** * Properties *)

(** ** Strings *)

Lemma string_app_cons (c : ascii) (s t : string) :
  String c s +:+ t = String c (s +:+ t).
Proof. reflexivity. Qed.

Lemma string_app_nil_l (t : string) : EmptyString +:+ t = t.
Proof. reflexivity. Qed.

Ltac str_simpl := simpl; rewrite ?string_app_cons, ?string_app_nil_l; simpl.

Lemma string_app_assoc (a b c : string) : (a +:+ b) +:+ c = a +:+ (b +:+ c).
Proof. induction a as [|x a IH]; str_simpl; [reflexivity | now rewrite IH]. Qed.

Lemma string_length_app (a b : string) :
  String.length (a +:+ b) = String.length a + String.length b.
Proof. induction a as [|x a IH]; str_simpl; [reflexivity | now rewrite IH]. Qed.

Lemma substring_app_suffix (p suf : string) :
  substring (String.length p) (String.length suf) (p +:+ suf) = suf.
Proof.
  induction p as [|c p IH]; str_simpl; [|exact IH].
  induction suf as [|c suf IH]; simpl; [reflexivity | now rewrite IH].
Qed.

Lemma substring_app_prefix (p suf : string) :
  substring 0 (String.length p) (p +:+ suf) = p.
Proof.
  induction p as [|c p IH]; str_simpl; [now destruct suf | now rewrite IH].
Qed.

Lemma endswith_app (p suf : string) : Py.endswith (p +:+ suf) suf = true.
Proof.
  unfold Py.endswith. rewrite string_length_app.
  replace (String.length p + String.length suf - String.length suf)
    with (String.length p) by lia.
  rewrite substring_app_suffix, String.eqb_refl.
  rewrite andb_true_r. apply Nat.leb_le. lia.
Qed.

(** A string without the separator is a single field. *)
Lemma split_no_sep (sep : ascii) (s : string) :
  Py.all_chars (fun c => negb (Ascii.eqb c sep)) s = true ->
  Py.split sep s = [s].
Proof.
  induction s as [|c s IH]; simpl; [reflexivity|].
  intros [Hc Hs]%andb_true_iff. apply negb_true_iff in Hc.
  rewrite Hc, (IH Hs). reflexivity.
Qed.

Lemma split_nonempty (sep : ascii) (s : string) : Py.split sep s <> [].
Proof.
  destruct s as [|c s]; simpl; [discriminate|].
  destruct (Ascii.eqb c sep); [discriminate|].
  destruct (Py.split sep s); discriminate.
Qed.

(** Splitting distributes over a separator. *)
Lemma split_app (sep : ascii) (s t : string) :
  Py.split sep (s +:+ String sep t) = Py.split sep s ++ Py.split sep t.
Proof.
  induction s as [|c s IH]; str_simpl.
  - rewrite Ascii.eqb_refl. reflexivity.
  - destruct (Ascii.eqb c sep); [now rewrite IH|].
    rewrite IH. destruct (Py.split sep s) eqn:E; [|reflexivity].
    now apply split_nonempty in E.
Qed.

Lemma join_split (sep : ascii) (s : string) :
  Py.join (String sep EmptyString) (Py.split sep s) = s.
Proof.
  induction s as [|c s IH]; simpl; [reflexivity|].
  destruct (Ascii.eqb c sep) eqn:E.
  - apply Ascii.eqb_eq in E. subst c.
    destruct (Py.split sep s) as [|p ps] eqn:E'; [now apply split_nonempty in E'|].
    change (Py.join (String sep EmptyString) (EmptyString :: p :: ps))
      with (EmptyString +:+ String sep EmptyString +:+ Py.join (String sep EmptyString) (p :: ps)).
    now rewrite IH.
  - destruct (Py.split sep s) as [|p ps] eqn:E'; [now apply split_nonempty in E'|].
    rewrite <- IH. destruct ps; reflexivity.
Qed.

Lemma rfind_dot_app_nc (s : string) :
  Py.rfind_dot (s +:+ ".nc") = Some (String.length s).
Proof. induction s as [|c s IH]; str_simpl; [reflexivity | now rewrite IH]. Qed.

(** The stem of [s.nc] is [s], for a non-empty [s]. *)
Lemma stem_nc (s : string) : s <> EmptyString -> stem (s +:+ ".nc") = s.
Proof.
  intros Hs. unfold stem. rewrite rfind_dot_app_nc, string_length_app.
  destruct s as [|c s]; [congruence|].
  replace (0 <? String.length (String c s)) with true
    by (symmetry; apply Nat.ltb_lt; simpl; lia).
  replace (String.length (String c s)
           <? String.length (String c s) + String.length ".nc" - 1)
    with true by (symmetry; apply Nat.ltb_lt; simpl; lia).
  apply substring_app_prefix.
Qed.

(** ** Filename identity extraction *)

Lemma all_chars_impl (p q : ascii -> bool) (s : string) :
  (forall c, p c = true -> q c = true) ->
  Py.all_chars p s = true -> Py.all_chars q s = true.
Proof.
  intros Hpq. induction s as [|c s IH]; simpl; [reflexivity|].
  intros [Hc Hs]%andb_true_iff. now rewrite (Hpq _ Hc), (IH Hs).
Qed.

Lemma digit_not_underscore (c : ascii) :
  Py.char_isdigit c = true -> negb (Ascii.eqb c "_") = true.
Proof.
  destruct (Ascii.eqb c "_") eqn:E; [|reflexivity].
  apply Ascii.eqb_eq in E. subst c. vm_compute. discriminate.
Qed.

Lemma isdigit_single_field (s : string) :
  Py.isdigit s = true -> Py.split "_" s = [s].
Proof.
  intros H. apply split_no_sep.
  destruct s as [|c s]; [discriminate|].
  eapply all_chars_impl; [apply digit_not_underscore | exact H].
Qed.

Lemma scan_parts_app (a b : list string) (dp tp : option string) :
  scan_parts (a ++ b) dp tp =
  scan_parts b (scan_parts a dp tp).1 (scan_parts a dp tp).2.
Proof.
  revert dp tp. induction a as [|part a IH]; intros dp tp; simpl; [reflexivity|].
  repeat case_match; apply IH.
Qed.

Lemma scan_parts_no_token (parts : list string) (dp tp : option string) :
  forallb (fun part => negb (is_date_token part || is_time_token part)) parts = true ->
  scan_parts parts dp tp = (dp, tp).
Proof.
  induction parts as [|part parts IH]; simpl; [reflexivity|].
  intros [Hp Hr]%andb_true_iff.
  apply negb_true_iff, orb_false_iff in Hp. destruct Hp as [Hd Ht].
  unfold is_date_token in Hd. unfold is_time_token in Ht.
  rewrite Hd, Ht. now apply IH.
Qed.

(** What the scanning loop returns: a date part is found exactly when it
    was there before or some part is a date token, and it is then one of
    those; likewise for the time part. *)
Lemma scan_parts_date (parts : list string) (dp tp : option string) (d : string) :
  (scan_parts parts dp tp).1 = Some d ->
  dp = Some d \/ (In d parts /\ is_date_token d = true).
Proof.
  revert dp tp. induction parts as [|part parts IH]; intros dp tp; simpl; [now left|].
  destruct ((String.length part =? 8) && Py.isdigit part) eqn:Hd.
  - intros H. apply IH in H as [H|[H1 H2]]; [|now right; split; [right|]].
    right. inversion H. subst. now split; [left|].
  - destruct ((String.length part =? 4) && Py.isdigit part) eqn:Ht; intros H;
      (apply IH in H as [H|[H1 H2]]; [now left | now right; split; [right|]]).
Qed.

Lemma scan_parts_time (parts : list string) (dp tp : option string) (t : string) :
  (scan_parts parts dp tp).2 = Some t ->
  tp = Some t \/ (In t parts /\ is_time_token t = true).
Proof.
  revert dp tp. induction parts as [|part parts IH]; intros dp tp; simpl; [now left|].
  destruct ((String.length part =? 8) && Py.isdigit part) eqn:Hd.
  - intros H. apply IH in H as [H|[H1 H2]]; [now left | now right; split; [right|]].
  - destruct ((String.length part =? 4) && Py.isdigit part) eqn:Ht; intros H.
    + apply IH in H as [H|[H1 H2]]; [|now right; split; [right|]].
      right. inversion H. subst. now split; [left|].
    + apply IH in H as [H|[H1 H2]]; [now left | now right; split; [right|]].
Qed.

Lemma scan_parts_date_found (parts : list string) (dp tp : option string) :
  is_Some (scan_parts parts dp tp).1 <->
  is_Some dp \/ existsb is_date_token parts = true.
Proof.
  revert dp tp. induction parts as [|part parts IH]; intros dp tp; simpl.
  - split; [now left | now intros [H|H]].
  - unfold is_date_token at 1.
    destruct ((String.length part =? 8) && Py.isdigit part) eqn:Hd; simpl.
    + rewrite IH. split; [now right | intros _; left; eauto].
    + destruct ((String.length part =? 4) && Py.isdigit part); apply IH.
Qed.

Lemma date_token_not_time (part : string) :
  is_date_token part = true -> is_time_token part = false.
Proof.
  unfold is_date_token, is_time_token.
  intros [H _]%andb_true_iff. apply Nat.eqb_eq in H. now rewrite H.
Qed.

Lemma scan_parts_time_found (parts : list string) (dp tp : option string) :
  is_Some (scan_parts parts dp tp).2 <->
  is_Some tp \/ existsb is_time_token parts = true.
Proof.
  revert dp tp. induction parts as [|part parts IH]; intros dp tp; simpl.
  - split; [now left | now intros [H|H]].
  - destruct ((String.length part =? 8) && Py.isdigit part) eqn:Hd.
    + rewrite (date_token_not_time part Hd). simpl. apply IH.
    + unfold is_time_token at 1.
      destruct ((String.length part =? 4) && Py.isdigit part) eqn:Ht; simpl.
      * rewrite IH. split; [now right | intros _; left; eauto].
      * apply IH.
Qed.

Lemma scan_parts_both (parts : list string) :
  has_both_tokens parts = true <->
  exists d t, scan_parts parts None None = (Some d, Some t).
Proof.
  unfold has_both_tokens. rewrite andb_true_iff.
  pose proof (scan_parts_date_found parts None None) as Hd.
  pose proof (scan_parts_time_found parts None None) as Ht.
  destruct (scan_parts parts None None) as [dp tp]; simpl in *. split.
  - intros [H1 H2].
    destruct Hd as [_ [d ->]]; [now right|].
    destruct Ht as [_ [t ->]]; [now right|]. eauto.
  - intros (d & t & [= -> ->]). split.
    + destruct Hd as [[H|H] _]; [eauto | now destruct H | exact H].
    + destruct Ht as [[H|H] _]; [eauto | now destruct H | exact H].
Qed.

(** Without both tokens the extractor takes the fallback branch. *)
Lemma extract_fallback (filename : string) :
  has_both_tokens (Py.split "_" (stem filename)) = false ->
  extract_datetime_from_filename filename =
  if Py.endswith (stem filename) "_pl" || Py.endswith (stem filename) "_sl"
     || Py.endswith (stem filename) "_tp"
  then Py.join "_" (Py.but_last (Py.split "_" (stem filename)))
  else stem filename.
Proof.
  intros H. unfold extract_datetime_from_filename.
  destruct (scan_parts _ None None) as [[d|] [t|]] eqn:E; try reflexivity.
  assert (has_both_tokens (Py.split "_" (stem filename)) = true) as H'
    by (apply scan_parts_both; eauto).
  congruence.
Qed.

Lemma strip_kind_suffix (base kind_name : string) :
  Py.all_chars (fun c => negb (Ascii.eqb c "_")) kind_name = true ->
  Py.join "_" (Py.but_last (Py.split "_" (base +:+ String "_" kind_name))) = base.
Proof.
  intros H. rewrite split_app, (split_no_sep _ _ H).
  unfold Py.but_last. rewrite removelast_last. apply join_split.
Qed.

(** The key of a well-named file whose suffix holds no date or time token. *)
Lemma extract_well_named (d8 d4 sfx : string) :
  is_date_token d8 = true ->
  is_time_token d4 = true ->
  forallb (fun part => negb (is_date_token part || is_time_token part))
          (Py.split "_" sfx) = true ->
  extract_datetime_from_filename
    ("era5_" +:+ d8 +:+ "_" +:+ d4 +:+ "_" +:+ sfx +:+ ".nc")
  = d8 +:+ "_" +:+ d4.
Proof.
  intros Hd Ht Hs.
  set (base := "era5" +:+ String "_" (d8 +:+ String "_" (d4 +:+ String "_" sfx))).
  assert (stem ("era5_" +:+ d8 +:+ "_" +:+ d4 +:+ "_" +:+ sfx +:+ ".nc") = base)
    as Hstem.
  { replace ("era5_" +:+ d8 +:+ "_" +:+ d4 +:+ "_" +:+ sfx +:+ ".nc")
      with (base +:+ ".nc")
      by (unfold base;
          repeat (rewrite string_app_assoc || rewrite string_app_cons);
          reflexivity).
    apply stem_nc. unfold base. discriminate. }
  unfold extract_datetime_from_filename. rewrite Hstem. unfold base.
  pose proof Hd as Hd'. pose proof Ht as Ht'.
  unfold is_date_token in Hd'. unfold is_time_token in Ht'.
  apply andb_true_iff in Hd' as [Hd8 Hdd]. apply andb_true_iff in Ht' as [Ht4 Htd].
  rewrite !split_app, (isdigit_single_field d8 Hdd), (isdigit_single_field d4 Htd).
  rewrite !scan_parts_app. simpl.
  rewrite Hd8, Hdd, Ht4, Htd. simpl.
  apply Nat.eqb_eq in Ht4. rewrite Ht4. simpl.
  rewrite (scan_parts_no_token _ _ _ Hs). reflexivity.
Qed.

Lemma find_snoc {A : Type} (p : A -> bool) (l : list A) (x : A) :
  find p (l ++ [x])
  = match find p l with
    | Some y => Some y
    | None => if p x then Some x else None
    end.
Proof.
  induction l as [|y l IH]; simpl; [reflexivity|]. now destruct (p y).
Qed.

Lemma last_such_cons (p : string -> bool) (part : string) (parts : list string) :
  last_such p (part :: parts)
  = match last_such p parts with
    | Some x => Some x
    | None => if p part then Some part else None
    end.
Proof. unfold last_such. simpl. apply find_snoc. Qed.

(** The scanning loop ends with the last token of each kind, or with what
    it started from when there is none. *)
Lemma scan_parts_last (parts : list string) (dp tp : option string) :
  scan_parts parts dp tp
  = (match last_such is_date_token parts with Some d => Some d | None => dp end,
     match last_such is_time_token parts with Some t => Some t | None => tp end).
Proof.
  revert dp tp. induction parts as [|part parts IH]; intros dp tp; [reflexivity|].
  rewrite !last_such_cons. simpl.
  fold (is_date_token part). fold (is_time_token part).
  destruct (is_date_token part) eqn:Hd.
  - rewrite (date_token_not_time part Hd), IH.
    now destruct (last_such is_date_token parts), (last_such is_time_token parts).
  - destruct (is_time_token part); rewrite IH;
      now destruct (last_such is_date_token parts), (last_such is_time_token parts).
Qed.

(** C2, as amended: the key of a well-named file is its date and time
    provided the suffix itself holds no token of eight or of four digits
    (as is the case of [pl], [sl] and [tp]); when the stem does not hold both
    a date token and a time token, a stem ending in [_pl], [_sl] or [_tp]
    loses that suffix and any other stem is returned unchanged; when it
    holds both, the key is the last date token of the stem, an
    underscore and its last time token; and extraction always returns a
    string. *)
Theorem extract_datetime_cases :
  (forall d8 d4 sfx : string,
      is_date_token d8 = true ->
      is_time_token d4 = true ->
      forallb (fun part => negb (is_date_token part || is_time_token part))
              (Py.split "_" sfx) = true ->
      extract_datetime_from_filename
        ("era5_" +:+ d8 +:+ "_" +:+ d4 +:+ "_" +:+ sfx +:+ ".nc")
      = d8 +:+ "_" +:+ d4)
  /\ (forall filename base sfx : string,
      has_both_tokens (Py.split "_" (stem filename)) = false ->
      sfx = "_pl" \/ sfx = "_sl" \/ sfx = "_tp" ->
      stem filename = base +:+ sfx ->
      extract_datetime_from_filename filename = base)
  /\ (forall filename : string,
      has_both_tokens (Py.split "_" (stem filename)) = false ->
      Py.endswith (stem filename) "_pl" = false ->
      Py.endswith (stem filename) "_sl" = false ->
      Py.endswith (stem filename) "_tp" = false ->
      extract_datetime_from_filename filename = stem filename)
  /\ (forall filename : string,
      has_both_tokens (Py.split "_" (stem filename)) = true ->
      exists d t : string,
        In d (Py.split "_" (stem filename)) /\ is_date_token d = true
        /\ In t (Py.split "_" (stem filename)) /\ is_time_token t = true
        /\ last_such is_date_token (Py.split "_" (stem filename)) = Some d
        /\ last_such is_time_token (Py.split "_" (stem filename)) = Some t
        /\ extract_datetime_from_filename filename = d +:+ "_" +:+ t)
  /\ (forall filename : string,
      exists key : string, extract_datetime_from_filename filename = key).
Proof.
  split; [exact extract_well_named|].
  split.
  { intros filename base sfx Hno Hsfx Hstem.
    rewrite (extract_fallback _ Hno), Hstem.
    assert (Py.endswith (base +:+ sfx) "_pl" || Py.endswith (base +:+ sfx) "_sl"
            || Py.endswith (base +:+ sfx) "_tp" = true) as ->.
    { destruct Hsfx as [-> | [-> | ->]]; rewrite endswith_app;
        rewrite ?orb_true_r; reflexivity. }
    destruct Hsfx as [-> | [-> | ->]]; now apply strip_kind_suffix. }
  split.
  { intros filename Hno Hpl Hsl Htp.
    rewrite (extract_fallback _ Hno), Hpl, Hsl, Htp. reflexivity. }
  split.
  { intros filename Hboth. apply scan_parts_both in Hboth as (d & t & E).
    exists d, t.
    pose proof (scan_parts_date (Py.split "_" (stem filename)) None None d) as Hd.
    pose proof (scan_parts_time (Py.split "_" (stem filename)) None None t) as Ht.
    rewrite E in Hd, Ht.
    destruct (Hd eq_refl) as [|[? ?]]; [discriminate|].
    destruct (Ht eq_refl) as [|[? ?]]; [discriminate|].
    repeat split; try assumption.
    - rewrite scan_parts_last in E.
      destruct (last_such is_date_token _); [congruence | discriminate].
    - rewrite scan_parts_last in E.
      destruct (last_such is_time_token _); [congruence | discriminate].
    - unfold extract_datetime_from_filename. now rewrite E. }
  intros filename. eauto.
Qed.

Lemma extract_datetime_cases_witness :
  extract_datetime_from_filename "era5_20180201_0000_pl.nc" = "20180201_0000"
  /\ extract_datetime_from_filename "surface_field_sl.nc" = "surface_field"
  /\ extract_datetime_from_filename "notes.nc" = "notes"
  /\ extract_datetime_from_filename "0600_20180201_0000_20180202_pl.nc"
     = "20180202_0000".
Proof.
  destruct extract_datetime_cases as (H1 & H2 & H3 & H4 & _).
  split; [apply (H1 "20180201" "0000" "pl"); reflexivity|].
  split; [apply (H2 "surface_field_sl.nc" "surface_field" "_sl");
          [reflexivity | right; left; reflexivity | reflexivity]|].
  split; [apply (H3 "notes.nc"); reflexivity|].
  destruct (H4 "0600_20180201_0000_20180202_pl.nc" eq_refl)
    as (d & t & _ & _ & _ & _ & Hd & Ht & ->).
  vm_compute in Hd, Ht. injection Hd as <-. injection Ht as <-. reflexivity.
Defined.

(** C2, as stated, fails: a four-digit suffix replaces the time of the
    file name in the key. *)
Lemma extract_datetime_suffix_counterexample :
  extract_datetime_from_filename
    ("era5_" +:+ "20180201" +:+ "_" +:+ "0000" +:+ "_" +:+ "0600" +:+ ".nc")
  <> "20180201" +:+ "_" +:+ "0000".
Proof. vm_compute. discriminate. Qed.

(** ** Scanning and the inclusion rule *)

Lemma dt_compare_antisym (a b : datetime) :
  dt_compare b a = CompOpp (dt_compare a b).
Proof.
  unfold dt_compare.
  rewrite (Nat.compare_antisym (year a)), (Nat.compare_antisym (month a)),
    (Nat.compare_antisym (day a)), (Nat.compare_antisym (hour a)),
    (Nat.compare_antisym (minute a)).
  destruct (year a ?= year b), (month a ?= month b), (day a ?= day b),
    (hour a ?= hour b), (minute a ?= minute b); reflexivity.
Qed.

(** [a >= b] is [b <= a], and the two strict tests of the scanning loop are
    the negations of the inclusive comparisons. *)
Lemma dt_ge_le (a b : datetime) : dt_ge a b = dt_le b a.
Proof.
  unfold dt_ge, dt_le. rewrite (dt_compare_antisym a b).
  now destruct (dt_compare a b).
Qed.

Lemma dt_lt_not_ge (a b : datetime) : dt_lt a b = negb (dt_ge a b).
Proof. unfold dt_lt, dt_ge. now destruct (dt_compare a b). Qed.

Lemma dt_gt_not_le (a b : datetime) : dt_gt a b = negb (dt_le a b).
Proof. unfold dt_gt, dt_le. now destruct (dt_compare a b). Qed.

Lemma within_iff (start_dt end_dt : option datetime) (file_dt : datetime) :
  within start_dt end_dt file_dt <->
  before_start start_dt file_dt = false /\ after_end end_dt file_dt = false.
Proof.
  unfold within, before_start, after_end.
  destruct start_dt as [s|], end_dt as [e|];
    rewrite ?dt_lt_not_ge, ?dt_gt_not_le, ?negb_false_iff;
    split; intros [H1 H2]; split;
    repeat match goal with
      | H : _ \/ _ |- _ => destruct H as [H|(? & H & ?)]
      | H : Some _ = None |- _ => discriminate H
      | H : Some _ = Some _ |- _ => injection H as <-
      end; eauto.
Qed.

Lemma In_insert_sorted (f g : nc_file) (l : list nc_file) :
  In g (insert_sorted f l) <-> g = f \/ In g l.
Proof.
  induction l as [|h l IH]; simpl; [intuition|].
  destruct (String.leb (path f) (path h)); simpl; [intuition|].
  rewrite IH. intuition.
Qed.

Lemma In_sorted (g : nc_file) (l : list nc_file) : In g (sorted l) <-> In g l.
Proof.
  induction l as [|h l IH]; simpl; [reflexivity|].
  rewrite In_insert_sorted, IH. intuition.
Qed.

Lemma In_glob_nc (g : nc_file) (dir : list nc_file) :
  In g (glob_nc dir) <-> In g dir /\ Py.endswith (path g) ".nc" = true.
Proof.
  unfold glob_nc. rewrite <- !list_elem_of_In, list_elem_of_filter.
  rewrite Is_true_true. tauto.
Qed.

Lemma In_scan_files (k : kind) (files : list nc_file)
    (start_dt end_dt : option datetime) (x : scanned) :
  In x (scan_files k files start_dt end_dt) <->
  exists file file_dt,
    x = (k, file, extract_datetime_from_filename (path file), file_dt)
    /\ In file files
    /\ parse_datetime_string (extract_datetime_from_filename (path file)) = Some file_dt
    /\ before_start start_dt file_dt = false
    /\ after_end end_dt file_dt = false.
Proof.
  induction files as [|f files IH]; simpl.
  - split; [tauto | now intros (? & ? & _ & [] & _)].
  - destruct (parse_datetime_string _) as [dt|] eqn:Hp.
    + destruct (before_start start_dt dt) eqn:Hb;
        [|destruct (after_end end_dt dt) eqn:Ha]; simpl; rewrite IH; split.
      * intros (f' & dt' & ?); exists f', dt'; intuition.
      * intros (f' & dt' & E & [<-|Hin] & Hp' & Hb' & Ha'); [congruence|].
        exists f', dt'; intuition.
      * intros (f' & dt' & ?); exists f', dt'; intuition.
      * intros (f' & dt' & E & [<-|Hin] & Hp' & Hb' & Ha'); [congruence|].
        exists f', dt'; intuition.
      * intros [<-|(f' & dt' & ?)]; [exists f, dt; intuition|].
        exists f', dt'; intuition.
      * intros (f' & dt' & E & [<-|Hin] & Hp' & Hb' & Ha').
        -- left. congruence.
        -- right. exists f', dt'; intuition.
    + rewrite IH. split.
      * intros (f' & dt' & ?); exists f', dt'; intuition.
      * intros (f' & dt' & E & [<-|Hin] & Hp' & Hb' & Ha'); [congruence|].
        exists f', dt'; intuition.
Qed.

Lemma scan_files_kind (k : kind) (files : list nc_file)
    (start_dt end_dt : option datetime) (x : scanned) :
  In x (scan_files k files start_dt end_dt) -> x.1.1.1 = k.
Proof. rewrite In_scan_files. now intros (f & dt & -> & _). Qed.

Lemma In_all_files (pl_dir sl_dir tp_dir : list nc_file)
    (start_dt end_dt : option datetime) (k : kind) (file : nc_file)
    (key : string) (file_dt : datetime) :
  In (k, file, key, file_dt) (all_files pl_dir sl_dir tp_dir start_dt end_dt) <->
  In (k, file, key, file_dt)
     (scan_files k (sorted (glob_nc (dir_of k pl_dir sl_dir tp_dir))) start_dt end_dt).
Proof.
  unfold all_files. rewrite !in_app_iff. split.
  - intros [H|[H|H]]; pose proof (scan_files_kind _ _ _ _ _ H) as E;
      simpl in E; subst k; exact H.
  - destruct k; simpl; tauto.
Qed.

(** C3: a scanned file whose key parses as a date-time is included exactly
    when it is not before the start bound and not after the end bound
    (both inclusive, an absent bound allowing everything); a file whose
    key does not parse is left out, whatever the bounds. *)
Theorem inclusion_rule (pl_dir sl_dir tp_dir : list nc_file)
    (start_dt end_dt : option datetime) (k : kind) (file : nc_file) :
  In file (dir_of k pl_dir sl_dir tp_dir) ->
  Py.endswith (path file) ".nc" = true ->
  let key := extract_datetime_from_filename (path file) in
  (forall file_dt : datetime,
      parse_datetime_string key = Some file_dt ->
      (In (k, file, key, file_dt) (all_files pl_dir sl_dir tp_dir start_dt end_dt)
       <-> within start_dt end_dt file_dt))
  /\ (parse_datetime_string key = None ->
      forall (k' : kind) (key' : string) (dt' : datetime),
        ~ In (k', file, key', dt') (all_files pl_dir sl_dir tp_dir start_dt end_dt)).
Proof.
  intros Hin Hnc key. split.
  - intros file_dt Hp. rewrite In_all_files, In_scan_files, within_iff. split.
    + intros (f' & dt' & E & _ & _ & Hb & Ha).
      injection E as _ _ ->. now split.
    + intros [Hb Ha]. exists file, file_dt. repeat split; try assumption.
      apply In_sorted, In_glob_nc. now split.
  - intros Hp k' key' dt'. rewrite In_all_files, In_scan_files.
    intros (f' & dt'' & E & _ & Hp' & _).
    injection E as <- _ _. fold key in Hp'. congruence.
Qed.

(** ** Runs do not depend on the state they start from *)

Lemma apply_saves_app (evs1 evs2 : list event) (out : gmap string combined_record) :
  apply_saves (evs1 ++ evs2) out = apply_saves evs2 (apply_saves evs1 out).
Proof. apply fold_left_app. Qed.

Lemma extend_assoc (s d1 d2 : state) :
  extend (extend s d1) d2 = extend s (extend d1 d2).
Proof.
  unfold extend; simpl. f_equal.
  - now rewrite app_assoc.
  - now rewrite apply_saves_app.
  - lia.
Qed.

Lemma extend_log (e : event) (s : state) :
  is_save e = false -> extend s (log e blank) = log e s.
Proof.
  intros He. unfold extend, log; simpl. f_equal.
  - now destruct e.
  - lia.
Qed.

Lemma extend_blank (s : state) : extend s blank = s.
Proof.
  destruct s. unfold extend; simpl. f_equal; [apply app_nil_r | lia].
Qed.

Lemma framed_bind {A B : Type} (m : M A) (k : A -> M B) :
  framed m -> (forall a, framed (k a)) -> framed (m ≫= k).
Proof.
  intros Hm Hk s. unfold mbind, M_bind. rewrite (Hm s).
  destruct (m blank) as [[a|e] d]; simpl; [|reflexivity].
  rewrite (Hk a (extend s d)), (Hk a d). simpl. now rewrite extend_assoc.
Qed.

Lemma framed_lift {A : Type} (r : result A) : framed (lift r).
Proof. intros s. unfold lift; simpl. now rewrite extend_blank. Qed.

Lemma framed_emit (e : event) : is_save e = false -> framed (emit e).
Proof. intros He s. unfold emit; simpl. now rewrite extend_log. Qed.

Lemma framed_open_dataset (k : kind) (file : nc_file) : framed (open_dataset k file).
Proof.
  intros s. unfold open_dataset. destruct (payload file); simpl.
  - now rewrite extend_log.
  - apply (framed_lift (Raise (open_error file))).
Qed.

Lemma framed_to_netcdf (env : environment) (f : string) (r : combined_record) :
  framed (to_netcdf env f r).
Proof.
  intros s. unfold to_netcdf. destruct (write_succeeds env f); simpl.
  - unfold extend; simpl. do 2 f_equal. lia.
  - apply (framed_lift (Raise (write_error env f))).
Qed.

Lemma framed_verify (env : environment) (f : string) (r : combined_record) :
  framed (verify env f r).
Proof.
  intros s. unfold verify.
  destruct (reopen_succeeds env f);
    [|apply (framed_lift (Raise (reopen_error env f)))].
  destruct (rec_data_vars r); simpl; unfold extend, log; simpl;
    do 2 f_equal; rewrite <- ?app_assoc; try reflexivity; lia.
Qed.

Lemma framed_count_processed : framed count_processed.
Proof.
  intros s. unfold count_processed, extend; simpl. do 2 f_equal.
  - now rewrite app_nil_r.
  - lia.
Qed.

Ltac framed_steps :=
  repeat first
    [ apply framed_bind; [|intros ?]
    | apply framed_lift
    | apply framed_open_dataset
    | apply framed_to_netcdf
    | apply framed_verify
    | apply framed_count_processed
    | apply framed_emit; reflexivity ].

Lemma framed_build_record (env : environment) (key : string) (pl sl tp : nc_file) :
  framed (build_record env key pl sl tp).
Proof. unfold build_record. framed_steps. Qed.

Lemma framed_process_group (env : environment) (key : string) (pl sl tp : nc_file) :
  framed (process_group env key pl sl tp).
Proof.
  unfold process_group, close. apply framed_bind; [apply framed_build_record|].
  intros r. framed_steps.
Qed.

Lemma guarded_frame (env : environment) (key : string) (pl sl tp : nc_file) (s : state) :
  guarded env key pl sl tp s = extend s (guarded env key pl sl tp blank).
Proof.
  unfold guarded. rewrite (framed_process_group env key pl sl tp s).
  destruct (process_group env key pl sl tp blank) as [[u|e] d]; simpl; [reflexivity|].
  rewrite <- (extend_log (Failed key e) (extend s d)) by reflexivity.
  now rewrite extend_assoc, extend_log.
Qed.

Lemma merge_loop_frame (env : environment) (date_groups : list (string * group))
    (s : state) :
  merge_loop env date_groups s = extend s (merge_loop env date_groups blank).
Proof.
  revert s. induction date_groups as [|[key g] gs IH]; intros s; simpl.
  - now rewrite extend_blank.
  - assert (forall d s', merge_loop env gs (extend s' d)
                         = extend s' (merge_loop env gs d)) as Hstep.
    { intros d s'. rewrite (IH (extend s' d)), (IH d). apply extend_assoc. }
    destruct (g_pl g) as [pl|], (g_sl g) as [sl|], (g_tp g) as [tp|];
      try (rewrite <- (extend_log (Skipped key) s) by reflexivity; apply Hstep).
    rewrite guarded_frame, (guarded_frame _ _ _ _ _ (log _ blank)).
    rewrite <- (extend_log (Processing key) s) by reflexivity.
    rewrite extend_assoc. apply Hstep.
Qed.

(** ** What the output directory holds after a trace *)

Lemma lookup_apply_saves (evs : list event) (out : gmap string combined_record)
    (f : string) :
  apply_saves evs out !! f =
  match saved_as f evs with
  | Some r => Some r
  | None => out !! f
  end.
Proof.
  revert out. induction evs as [|e evs IH]; intros out; simpl; [reflexivity|].
  rewrite IH. destruct (saved_as f evs); [reflexivity|].
  destruct e; try reflexivity.
  destruct (String.eqb output_file f) eqn:E.
  - apply String.eqb_eq in E. subst. apply lookup_insert_eq.
  - apply String.eqb_neq in E. now apply lookup_insert_ne.
Qed.

Lemma apply_saves_idempotent (evs : list event) (out : gmap string combined_record) :
  apply_saves evs (apply_saves evs out) = apply_saves evs out.
Proof.
  apply map_eq. intros f. rewrite !lookup_apply_saves.
  now destruct (saved_as f evs).
Qed.

Lemma saved_as_None (f : string) (evs : list event) :
  saved_as f evs = None <-> forall r, ~ In (Saved f r) evs.
Proof.
  induction evs as [|e evs IH]; simpl; [intuition|].
  destruct (saved_as f evs) as [r'|].
  - split; [discriminate|]. intros H. exfalso.
    destruct IH as [_ IH]. 
    assert (Some r' = None) as E; [|discriminate E].
    apply IH. intros r Hr. apply (H r). now right.
  - destruct IH as [IH _]. specialize (IH eq_refl).
    destruct e; try (split; [intros _ r [E|Hr]; [discriminate | now apply (IH r)] | reflexivity]).
    destruct (String.eqb output_file f) eqn:E.
    + apply String.eqb_eq in E. subst. split; [discriminate|].
      intros H. exfalso. apply (H r). now left.
    + apply String.eqb_neq in E. split; [|reflexivity].
      intros _ r' [E'|Hr]; [congruence | now apply (IH r')].
Qed.

(** ** The normal form of one group's processing *)

Lemma quiet_bind {A B : Type} (p : event -> bool) (m : M A) (k : A -> M B) :
  quiet p m -> (forall a, quiet p (k a)) -> quiet p (m ≫= k).
Proof.
  intros Hm Hk s. unfold mbind, M_bind.
  destruct (Hm s) as (evs1 & H1 & E1).
  destruct (m s) as [[a|e] s1]; simpl in *; [|now exists evs1].
  destruct (Hk a s1) as (evs2 & H2 & E2). exists (evs1 ++ evs2). split.
  - now rewrite forallb_app, H1, H2.
  - rewrite E2, E1; simpl. now rewrite app_assoc.
Qed.

Lemma quiet_lift {A : Type} (p : event -> bool) (r : result A) : quiet p (lift r).
Proof.
  intros s. exists []. split; [reflexivity|].
  destruct s; simpl. now rewrite app_nil_r.
Qed.

Lemma quiet_open_dataset (k : kind) (file : nc_file) :
  quiet is_source_open (open_dataset k file).
Proof.
  intros s. unfold open_dataset. destruct (payload file).
  - now exists [Opened (Source k (path file))].
  - apply (quiet_lift _ (Raise (open_error file))).
Qed.

(** Building the record only opens source files. *)
Lemma quiet_build_record (env : environment) (key : string) (pl sl tp : nc_file) :
  quiet is_source_open (build_record env key pl sl tp).
Proof.
  unfold build_record.
  repeat first [ apply quiet_bind; [|intros ?]
               | apply quiet_lift
               | apply quiet_open_dataset ].
Qed.

(** What [process_group] does, by cases on the outcome of each step. *)
Lemma process_group_unfold (env : environment) (key : string) (pl sl tp : nc_file)
    (s : state) :
  process_group env key pl sl tp s =
  match build_record env key pl sl tp s with
  | (Raise e, sb) => (Raise e, sb)
  | (Ok r, sb) =>
      if write_succeeds env (output_name key) then
        let sw := mk_state (trace sb ++ [Saved (output_name key) r])
                           (<[output_name key := r]> (output_dir sb))
                           (processed_count sb) in
        if reopen_succeeds env (output_name key) then
          match rec_data_vars r with
          | [] => (Raise IndexError, log (Opened (Output (output_name key))) sw)
          | _ :: _ =>
              (Ok tt,
               mk_state (trace sw ++ [Opened (Output (output_name key));
                                      Closed (Output (output_name key));
                                      Closed (Source PL (path pl));
                                      Closed (Source SL (path sl));
                                      Closed (Source TP (path tp))])
                        (output_dir sw)
                        (S (processed_count sw)))
          end
        else (Raise (reopen_error env (output_name key)), sw)
      else (Raise (write_error env (output_name key)), sb)
  end.
Proof.
  unfold process_group, mbind, M_bind.
  destruct (build_record env key pl sl tp s) as [[r|e] sb]; [|reflexivity].
  unfold to_netcdf, verify, close, emit, count_processed, log.
  destruct (write_succeeds env (output_name key)); [|reflexivity].
  destruct (reopen_succeeds env (output_name key)); [|reflexivity].
  destruct (rec_data_vars r); simpl; [reflexivity|].
  now rewrite <- !app_assoc.
Qed.

Lemma source_open_group_event (key : string) (evs : list event) (e : event) :
  forallb is_source_open evs = true -> In e evs -> group_event key e.
Proof.
  intros H Hin. rewrite forallb_forall in H. specialize (H e Hin).
  now destruct e as [| |[]| | |].
Qed.

Lemma process_group_trace (env : environment) (key : string) (pl sl tp : nc_file)
    (s : state) (e : event) :
  In e (trace (process_group env key pl sl tp s).2) ->
  In e (trace s) \/ group_event key e.
Proof.
  rewrite process_group_unfold.
  destruct (quiet_build_record env key pl sl tp s) as (opens & Hopens & E).
  destruct (build_record env key pl sl tp s) as [[r|x] sb]; simpl in E; subst sb.
  - destruct (write_succeeds env (output_name key));
      [destruct (reopen_succeeds env (output_name key));
       [destruct (rec_data_vars r)|]|];
      simpl; rewrite ?in_app_iff; simpl;
      intuition (subst; simpl; eauto using source_open_group_event).
  - simpl. rewrite in_app_iff. intuition eauto using source_open_group_event.
Qed.

Lemma guarded_trace (env : environment) (key : string) (pl sl tp : nc_file)
    (s : state) (e : event) :
  In e (trace (guarded env key pl sl tp s)) ->
  In e (trace s) \/ group_event key e.
Proof.
  unfold guarded. pose proof (process_group_trace env key pl sl tp s e) as H.
  destruct (process_group env key pl sl tp s) as [[u|x] s']; simpl in *; [exact H|].
  rewrite in_app_iff. intros [Hin|[<-|[]]]; [now apply H | now right].
Qed.

Lemma merge_loop_trace (env : environment) (date_groups : list (string * group))
    (s : state) (e : event) :
  In e (trace (merge_loop env date_groups s)) ->
  In e (trace s)
  \/ exists key g, In (key, g) date_groups
                   /\ if complete g then e = Processing key \/ group_event key e
                      else e = Skipped key.
Proof.
  revert s. induction date_groups as [|[key g] gs IH]; intros s; simpl; [now left|].
  assert (forall s', In e (trace (merge_loop env gs s')) ->
                     (In e (trace s') ->
                      In e (trace s) \/
                      (if complete g then e = Processing key \/ group_event key e
                       else e = Skipped key)) ->
                     In e (trace s) \/
                     exists key' g', ((key, g) = (key', g') \/ In (key', g') gs) /\
                       if complete g' then e = Processing key' \/ group_event key' e
                       else e = Skipped key') as Hstep.
  { intros s' Hin Hs'. apply IH in Hin as [Hin|(key' & g' & Hin & He)].
    - destruct (Hs' Hin) as [?|?]; [now left|]. right. exists key, g. now split; [left|].
    - right. exists key', g'. now split; [right|]. }
  unfold complete in Hstep |- *.
  destruct (g_pl g) as [pl|], (g_sl g) as [sl|], (g_tp g) as [tp|]; intros Hin;
    apply (Hstep _ Hin); simpl; try (rewrite in_app_iff; simpl; intuition).
  intros [H|H]%guarded_trace; [|now right; right].
  simpl in H. rewrite in_app_iff in H. simpl in H. intuition.
Qed.

Lemma guarded_trace_incl (env : environment) (key : string) (pl sl tp : nc_file)
    (s : state) (e : event) :
  In e (trace s) -> In e (trace (guarded env key pl sl tp s)).
Proof.
  rewrite guarded_frame. simpl. rewrite in_app_iff. now left.
Qed.

Lemma merge_loop_trace_incl (env : environment) (date_groups : list (string * group))
    (s : state) (e : event) :
  In e (trace s) -> In e (trace (merge_loop env date_groups s)).
Proof.
  rewrite merge_loop_frame. simpl. rewrite in_app_iff. now left.
Qed.

(** Every group of the list is visited, whatever happens to the others. *)
Lemma merge_loop_visits (env : environment) (date_groups : list (string * group))
    (s : state) (key : string) (g : group) :
  In (key, g) date_groups ->
  In (if complete g then Processing key else Skipped key)
     (trace (merge_loop env date_groups s)).
Proof.
  revert s. induction date_groups as [|[key' g'] gs IH]; intros s; simpl; [tauto|].
  intros [[= -> ->]|Hin]; [|now destruct (g_pl g'), (g_sl g'), (g_tp g'); apply IH].
  unfold complete.
  destruct (g_pl g), (g_sl g), (g_tp g);
    apply merge_loop_trace_incl; try apply guarded_trace_incl;
    simpl; rewrite in_app_iff; right; now left.
Qed.

(** ** Grouping *)

Lemma dict_mem_keys {V : Type} (k : string) (d : list (string * V)) :
  Dict.mem k d = true <-> In k (Dict.keys d).
Proof.
  unfold Dict.mem, Dict.keys. rewrite existsb_exists, in_map_iff. split.
  - intros ([k' v] & Hin & E). simpl in E. apply String.eqb_eq in E. subst.
    now exists (k, v).
  - intros ([k' v] & <- & Hin). exists (k', v). split; [exact Hin|]. apply String.eqb_refl.
Qed.

Lemma dict_keys_update {V : Type} (k : string) (f : V -> V) (d : list (string * V)) :
  Dict.keys (Dict.update k f d) = Dict.keys d.
Proof.
  induction d as [|[k' v] d IH]; simpl; [reflexivity|].
  destruct (String.eqb k' k); simpl; [reflexivity | now rewrite IH].
Qed.

Lemma dict_set_fresh {V : Type} (k : string) (v : V) (d : list (string * V)) :
  ~ In k (Dict.keys d) -> Dict.set k v d = d ++ [(k, v)].
Proof.
  induction d as [|[k' v'] d IH]; simpl; [reflexivity|].
  intros H. destruct (String.eqb k' k) eqn:E.
  - apply String.eqb_eq in E. tauto.
  - rewrite IH; [reflexivity | tauto].
Qed.

Lemma add_file_keys (date_groups : list (string * group)) (x : scanned) :
  Dict.keys (add_file date_groups x) =
  if Dict.mem x.1.2 date_groups then Dict.keys date_groups
  else Dict.keys date_groups ++ [x.1.2].
Proof.
  destruct x as [[[k file] key] dt]; simpl. rewrite dict_keys_update.
  destruct (Dict.mem key date_groups) eqn:E; [reflexivity|].
  rewrite dict_set_fresh.
  - unfold Dict.keys. now rewrite map_app.
  - rewrite <- dict_mem_keys. congruence.
Qed.

Lemma group_files_keys_NoDup (files : list scanned) :
  NoDup (Dict.keys (group_files files)).
Proof.
  unfold group_files.
  assert (forall d, NoDup (Dict.keys d) ->
                    NoDup (Dict.keys (fold_left add_file files d))) as H.
  { induction files as [|x files IH]; intros d Hd; simpl; [exact Hd|].
    apply IH. rewrite add_file_keys.
    destruct (Dict.mem x.1.2 d) eqn:E; [exact Hd|].
    apply NoDup_app. repeat split; [exact Hd | | apply NoDup_singleton].
    intros k Hk [E'|[]]%list_elem_of_In. apply list_elem_of_In in Hk.
    apply dict_mem_keys in Hk. congruence. }
  apply H. constructor.
Qed.

Lemma dict_entry_unique {V : Type} (d : list (string * V)) (k : string) (v v' : V) :
  NoDup (Dict.keys d) -> In (k, v) d -> In (k, v') d -> v = v'.
Proof.
  induction d as [|[k0 v0] d IH]; simpl; [tauto|].
  intros Hnd. apply NoDup_cons in Hnd as [Hk0 Hnd].
  assert (forall w, In (k0, w) d -> False) as Hfresh.
  { intros w Hw. apply Hk0, list_elem_of_In, in_map_iff. now exists (k0, w). }
  intros [E|Hin] [E'|Hin'].
  - congruence.
  - injection E as -> ->. now apply Hfresh in Hin'.
  - injection E' as -> ->. now apply Hfresh in Hin.
  - now apply IH.
Qed.

Lemma string_app_inv_tail (a b c : string) : a +:+ c = b +:+ c -> a = b.
Proof.
  revert b. induction a as [|x a IH]; intros [|y b] H.
  - reflexivity.
  - apply (f_equal String.length) in H.
    rewrite string_app_nil_l, string_app_cons in H. simpl in H.
    rewrite string_length_app in H. lia.
  - apply (f_equal String.length) in H.
    rewrite string_app_nil_l, string_app_cons in H. simpl in H.
    rewrite string_length_app in H. lia.
  - rewrite !string_app_cons in H. injection H as -> H. now rewrite (IH b H).
Qed.

Lemma output_name_inj (key key' : string) :
  output_name key = output_name key' -> key = key'.
Proof.
  unfold output_name. intros H.
  apply (inj (String.app "era5_")) in H. now apply string_app_inv_tail in H.
Qed.

(** ** The claims about the merge loop *)

(** The state a completed run ends in, in terms of the run from the
    blank state. *)
Lemma merge_data_completed (env : environment) (pl_dir sl_dir tp_dir : list nc_file)
    (out : gmap string combined_record) (start_time end_time : option string)
    (s : state) :
  merge_data env pl_dir sl_dir tp_dir out start_time end_time = Completed s ->
  exists start_dt end_dt,
    parse_bound start_time = Some start_dt
    /\ parse_bound end_time = Some end_dt
    /\ let d := merge_loop env (group_files (all_files pl_dir sl_dir tp_dir
                                                      start_dt end_dt)) blank in
       trace s = trace d
       /\ output_dir s = apply_saves (trace d) out
       /\ processed_count s = processed_count d.
Proof.
  unfold merge_data. destruct (mkdir_error env); [discriminate|].
  destruct (parse_bound start_time) as [start_dt|]; [|discriminate].
  destruct (parse_bound end_time) as [end_dt|]; [|discriminate].
  intros [= <-]. exists start_dt, end_dt. do 2 (split; [reflexivity|]).
  rewrite merge_loop_frame. simpl. auto.
Qed.

(** A run that goes through the loop has created its output directory. *)
Lemma merge_data_completed_mkdir (env : environment)
    (pl_dir sl_dir tp_dir : list nc_file) (out : gmap string combined_record)
    (start_time end_time : option string) (s : state) :
  merge_data env pl_dir sl_dir tp_dir out start_time end_time = Completed s ->
  mkdir_error env = None.
Proof. unfold merge_data. now destruct (mkdir_error env). Qed.

(** C4: a key whose group lacks one of the three kinds is never processed:
    the run does not reach the flatten-and-write step for it, writes no
    output file for it and leaves whatever the output directory held
    under that name; and every group that is processed, and every file
    that is written, belongs to a complete group. *)
Theorem incomplete_group_not_merged (env : environment)
    (pl_dir sl_dir tp_dir : list nc_file) (out : gmap string combined_record)
    (start_time end_time : option string) (start_dt end_dt : option datetime)
    (s : state) :
  parse_bound start_time = Some start_dt ->
  parse_bound end_time = Some end_dt ->
  merge_data env pl_dir sl_dir tp_dir out start_time end_time = Completed s ->
  let date_groups := group_files (all_files pl_dir sl_dir tp_dir start_dt end_dt) in
  (forall (key : string) (g : group),
      In (key, g) date_groups ->
      complete g = false ->
      ~ In (Processing key) (trace s)
      /\ (forall r, ~ In (Saved (output_name key) r) (trace s))
      /\ output_dir s !! output_name key = out !! output_name key)
  /\ (forall key : string,
        In (Processing key) (trace s) ->
        exists g, In (key, g) date_groups /\ complete g = true)
  /\ (forall (f : string) (r : combined_record),
        In (Saved f r) (trace s) ->
        exists key g, f = output_name key /\ In (key, g) date_groups
                      /\ complete g = true).
Proof.
  intros Hs He Hrun date_groups.
  apply merge_data_completed in Hrun
    as (start_dt' & end_dt' & Hs' & He' & Htr & Hout & _).
  rewrite Hs in Hs'. rewrite He in He'.
  injection Hs' as <-. injection He' as <-. fold date_groups in Htr, Hout.
  assert (forall key, In (Processing key) (trace s) ->
                      exists g, In (key, g) date_groups /\ complete g = true) as Hproc.
  { intros key Hin. rewrite Htr in Hin.
    apply merge_loop_trace in Hin as [[]|(key' & g' & Hin & Hev)].
    destruct (complete g') eqn:Hc; [|discriminate].
    destruct Hev as [[= ->]|[]]. eauto. }
  assert (forall f r, In (Saved f r) (trace s) ->
                      exists key g, f = output_name key /\ In (key, g) date_groups
                                    /\ complete g = true) as Hsaved.
  { intros f r Hin. rewrite Htr in Hin.
    apply merge_loop_trace in Hin as [[]|(key' & g' & Hin & Hev)].
    destruct (complete g') eqn:Hc; [|discriminate].
    destruct Hev as [[=]|Hev]. simpl in Hev. eauto. }
  split; [|now split].
  intros key g Hin Hc.
  assert (forall g', In (key, g') date_groups -> complete g' = true -> False) as Hno.
  { intros g' Hin' Hc'.
    assert (g = g') as <-; [|congruence].
    eapply dict_entry_unique; eauto. apply group_files_keys_NoDup. }
  assert (forall r, ~ In (Saved (output_name key) r) (trace s)) as Hnosave.
  { intros r Hr. apply Hsaved in Hr as (key' & g' & E & Hin' & Hc').
    apply output_name_inj in E. subst key'. eauto. }
  split; [|split; [exact Hnosave|]].
  - intros Hp. apply Hproc in Hp as (g' & Hin' & Hc'). eauto.
  - rewrite Hout, lookup_apply_saves, <- Htr.
    now rewrite (proj2 (saved_as_None _ _) Hnosave).
Qed.

(** C9: a second run over the same inputs, started on the output
    directory the first run left, goes through the same steps, saves the
    same records under the same names, counts the same number of merged
    groups and leaves the output directory as the first run left it. *)
Theorem merge_twice (env : environment) (pl_dir sl_dir tp_dir : list nc_file)
    (out : gmap string combined_record) (start_time end_time : option string)
    (s1 : state) :
  merge_data env pl_dir sl_dir tp_dir out start_time end_time = Completed s1 ->
  exists s2 : state,
    merge_data env pl_dir sl_dir tp_dir (output_dir s1) start_time end_time
    = Completed s2
    /\ trace s2 = trace s1
    /\ processed_count s2 = processed_count s1
    /\ output_dir s2 = output_dir s1.
Proof.
  intros Hrun. pose proof (merge_data_completed_mkdir _ _ _ _ _ _ _ _ Hrun) as Hmk.
  apply merge_data_completed in Hrun as (start_dt & end_dt & Hs & He & Htr & Hout & Hn).
  unfold merge_data. rewrite Hmk, Hs, He. eexists. split; [reflexivity|].
  rewrite merge_loop_frame. simpl. rewrite Htr, Hn, Hout.
  repeat split. apply apply_saves_idempotent.
Qed.

(** ** Flattening *)

Lemma pressure_at_lt (i : nat) :
  i < 13 -> pressure_at i = Ok (nth i pressure_levels 0).
Proof.
  intros Hi. unfold pressure_at.
  now rewrite (nth_error_nth' pressure_levels 0) by (simpl; lia).
Qed.

Lemma index0_lt (a : ndarray) (n i : nat) (shp : list nat) :
  Np.shape a = n :: shp -> i < n -> Np.index0 a i = Ok (slice a i).
Proof.
  intros Hs Hi. unfold Np.index0, slice. rewrite Hs. simpl.
  now rewrite (proj2 (Nat.ltb_lt i n) Hi).
Qed.

(** The level loop succeeds when there are at most thirteen levels... *)
Lemma level_loop_ok (var : string) (data : ndarray) (n : nat) (shp : list nat)
    (i m : nat) (acc : flat) :
  Np.shape data = n :: shp -> i + m <= n -> i + m <= 13 ->
  level_loop var data (seq i m) acc =
  Ok (acc.1 ++ map (slice data) (seq i m),
      acc.2 ++ map (fun j => var +:+ Py.str (nth j pressure_levels 0)) (seq i m)).
Proof.
  intros Hs. revert i acc. induction m as [|m IH]; intros i acc Hn H13; simpl.
  - rewrite !app_nil_r. now destruct acc.
  - rewrite (index0_lt data n i shp Hs) by lia. simpl.
    rewrite pressure_at_lt by lia. simpl.
    rewrite IH by lia. simpl. now rewrite <- !app_assoc.
Qed.

(** ... and raises [IndexError] when there are more. *)
Lemma level_loop_raises (var : string) (data : ndarray) (n : nat) (shp : list nat)
    (i m : nat) (acc : flat) :
  Np.shape data = n :: shp -> i + m <= n -> i <= 13 -> 13 < i + m ->
  level_loop var data (seq i m) acc = Raise IndexError.
Proof.
  intros Hs. revert i acc. induction m as [|m IH]; intros i acc Hn Hi H13; simpl.
  - lia.
  - rewrite (index0_lt data n i shp Hs) by lia. simpl.
    destruct (Nat.eq_dec i 13) as [->|Hne].
    + reflexivity.
    + rewrite pressure_at_lt by lia. simpl. apply IH; lia.
Qed.

(** A pressure-level variable shaped [(1, levels, ...)]: what the body of
    the loop does with it. *)
Lemma pl_loop_step (var : string) (a : ndarray) (vars : list (string * ndarray))
    (levels : nat) (shp : list nat) (acc : flat) :
  Np.shape a = 1 :: levels :: shp -> length shp = 2 ->
  pl_loop ((var, a) :: vars) acc =
  acc' ← level_loop var (Np.mk_ndarray (levels :: shp) (Np.dtype a) (Np.elems a))
                    (seq 0 levels) acc;
  pl_loop vars acc'.
Proof.
  intros Hs Hl. simpl. unfold Np.ndim, Np.squeeze0, shape0. rewrite Hs. simpl.
  now rewrite Hl.
Qed.

Lemma pl_loop_skip (var : string) (a : ndarray) (vars : list (string * ndarray))
    (acc : flat) :
  Np.ndim a <> 4 -> pl_loop ((var, a) :: vars) acc = pl_loop vars acc.
Proof.
  intros H. simpl. now rewrite (proj2 (Nat.eqb_neq _ _) H).
Qed.

(** The pressure-level loop on variables all shaped [(1, 13, H, W)]. *)
Lemma pl_loop_regular (H W : nat) (vars : list (string * ndarray)) (acc : flat) :
  (forall va, In va vars -> Np.shape va.2 = [1; 13; H; W]) ->
  pl_loop vars acc =
  Ok (acc.1 ++ flat_map (fun va => map (level_slice H W va.2) (seq 0 13)) vars,
      acc.2 ++ flat_map level_names (Dict.keys vars)).
Proof.
  revert acc. induction vars as [|[var a] vars IH]; intros acc Hall.
  - simpl. rewrite !app_nil_r. now destruct acc.
  - rewrite (pl_loop_step var a vars 13 [H; W]); [|apply (Hall (var, a)); now left | reflexivity].
    rewrite (level_loop_ok var _ 13 [H; W]) by (reflexivity || lia). simpl.
    rewrite IH by (intros va Hin; apply Hall; now right). simpl.
    now rewrite <- !app_assoc.
Qed.

(** The surface loop on variables all shaped [(1, H, W)]. *)
Lemma surface_loop_regular (H W : nat) (vars : list (string * ndarray)) (acc : flat) :
  (forall va, In va vars -> Np.shape va.2 = [1; H; W]) ->
  surface_loop vars acc =
  Ok (acc.1 ++ map (fun va => surface_slice H W va.2) vars, acc.2 ++ Dict.keys vars).
Proof.
  revert acc. induction vars as [|[var a] vars IH]; intros acc Hall.
  - simpl. rewrite !app_nil_r. now destruct acc.
  - pose proof (Hall (var, a) (or_introl eq_refl)) as Hs. simpl in Hs.
    simpl. unfold Np.ndim, Np.squeeze0. rewrite Hs. simpl.
    rewrite IH by (intros va Hin; apply Hall; now right). simpl.
    now rewrite <- !app_assoc.
Qed.

(** What the surface loop returns in general: one entry per variable, in
    order, under its own name; the array is the variable's own unless it
    is three-dimensional. *)
Lemma surface_loop_entries (vars : list (string * ndarray)) (acc : flat)
    (all_data : list ndarray) (var_names : list string) :
  surface_loop vars acc = Ok (all_data, var_names) ->
  exists datas : list ndarray,
    all_data = acc.1 ++ datas
    /\ var_names = acc.2 ++ Dict.keys vars
    /\ Forall2 (fun va d => Np.ndim va.2 <> 3 -> d = va.2) vars datas.
Proof.
  revert acc. induction vars as [|[var a] vars IH]; intros acc; simpl.
  - intros [= ->]. exists []. simpl. rewrite !app_nil_r. now repeat split.
  - destruct (Np.ndim a =? 3) eqn:E.
    + destruct (Np.squeeze0 a) as [a'|e]; simpl; [|discriminate].
      intros (datas & -> & -> & Hf)%IH. exists (a' :: datas). simpl.
      rewrite <- !app_assoc. repeat split. constructor; [|exact Hf].
      simpl. apply Nat.eqb_eq in E. congruence.
    + simpl. intros (datas & -> & -> & Hf)%IH. exists (a :: datas). simpl.
      rewrite <- !app_assoc. repeat split. now constructor.
Qed.

(** Variables that are not four-dimensional leave no trace in what the
    pressure-level loop returns. *)
Lemma pl_loop_filter (vars : list (string * ndarray)) (acc : flat) :
  pl_loop vars acc = pl_loop (filter (fun va => Np.ndim va.2 = 4) vars) acc.
Proof.
  revert acc. induction vars as [|[var a] vars IH]; intros acc; [reflexivity|].
  rewrite filter_cons. simpl. destruct (decide (Np.ndim a = 4)) as [E|E].
  - simpl. rewrite E. simpl.
    destruct (Np.squeeze0 a) as [a'|]; simpl; [|reflexivity].
    destruct (shape0 a') as [n|]; simpl; [|reflexivity].
    destruct (level_loop var a' (seq 0 n) acc); simpl; [apply IH | reflexivity].
  - rewrite (proj2 (Nat.eqb_neq _ _) E). apply IH.
Qed.

(** ** Stacking and reading back *)

Lemma astype_same (c : Np.casting) (d : string) (a : ndarray) :
  Np.dtype a = d -> Np.astype c d a = a.
Proof. intros <-. unfold Np.astype. now rewrite String.eqb_refl. Qed.

Lemma astype_shape (c : Np.casting) (d : string) (a : ndarray) :
  Np.shape (Np.astype c d a) = Np.shape a.
Proof. unfold Np.astype. now destruct (String.eqb (Np.dtype a) d). Qed.

Lemma astype_dtype (c : Np.casting) (d : string) (a : ndarray) :
  Np.dtype (Np.astype c d a) = d.
Proof.
  unfold Np.astype. destruct (String.eqb_spec (Np.dtype a) d); [assumption|reflexivity].
Qed.

Lemma astype_length (c : Np.casting) (d : string) (a : ndarray) :
  length (Np.elems (Np.astype c d a)) = length (Np.elems a).
Proof.
  unfold Np.astype. destruct (String.eqb (Np.dtype a) d); [reflexivity|].
  apply length_map.
Qed.

(** Arrays that share an element type keep it, whatever the rules of
    promotion. *)
Lemma common_dtype_same (c : Np.casting) (d : string) (arrays : list ndarray) :
  arrays <> [] ->
  (forall a, In a arrays -> Np.dtype a = d) ->
  Np.common_dtype c arrays = Some d.
Proof.
  intros Hne Hall. destruct arrays as [|a arrays]; [congruence|]. simpl.
  assert (forallb (fun b => String.eqb (Np.dtype b) (Np.dtype a)) arrays = true) as ->.
  { apply forallb_forall. intros b Hb. apply String.eqb_eq.
    rewrite (Hall b) by now right. symmetry. apply Hall. now left. }
  f_equal. apply Hall. now left.
Qed.

Lemma stack_regular (c : Np.casting) (shp : list nat) (d : string)
    (arrays : list ndarray) :
  arrays <> [] ->
  (forall a, In a arrays -> Np.shape a = shp) ->
  Np.common_dtype c arrays = Some d ->
  Np.stack c arrays =
  Ok (Np.mk_ndarray (length arrays :: shp) d
                    (concat (map (fun b => Np.elems (Np.astype c d b)) arrays))).
Proof.
  intros Hne Hall Hd. unfold Np.stack. destruct arrays as [|a arrays]; [congruence|].
  assert (forallb (fun b => bool_decide (Np.shape b = Np.shape a)) (a :: arrays) = true)
    as ->.
  { apply forallb_forall. intros b Hb. apply bool_decide_eq_true.
    rewrite (Hall b Hb). symmetry. apply Hall. now left. }
  rewrite Hd. now rewrite (Hall a) by now left.
Qed.

Lemma take_drop_concat (sz : nat) (ls : list (list Z)) (i : nat) (l : list Z) :
  (forall l', In l' ls -> length l' = sz) ->
  ls !! i = Some l ->
  take sz (drop (i * sz) (concat ls)) = l.
Proof.
  revert i. induction ls as [|l0 ls IH]; intros i Hall Hi; [discriminate|].
  assert (length l0 = sz) as Hl0 by (apply Hall; now left).
  destruct i as [|i]; simpl in *.
  - injection Hi as ->. rewrite <- Hl0. apply take_app_length.
  - rewrite drop_app_ge by lia.
    replace (sz + i * sz - length l0) with (i * sz) by lia.
    apply IH; [|exact Hi]. intros l' Hl'. apply Hall. now right.
Qed.

(** Reading the [i]-th slice of a stack gives back the [i]-th array,
    converted to the element type of the stack. *)
Lemma index0_stack (c : Np.casting) (shp : list nat) (d : string)
    (arrays : list ndarray) (i : nat) (a : ndarray) :
  (forall b, In b arrays -> Np.shape b = shp /\ Np.wf b) ->
  arrays !! i = Some a ->
  Np.index0 (Np.mk_ndarray (length arrays :: shp) d
                           (concat (map (fun b => Np.elems (Np.astype c d b)) arrays))) i
  = Ok (Np.astype c d a).
Proof.
  intros Hall Hi. unfold Np.index0. simpl.
  rewrite (proj2 (Nat.ltb_lt _ _) (lookup_lt_Some _ _ _ Hi)).
  rewrite (take_drop_concat _ _ i (Np.elems (Np.astype c d a))).
  - destruct (Hall a) as [Hs _]; [eapply list_elem_of_In, list_elem_of_lookup_2, Hi|].
    pose proof (astype_shape c d a) as Hs'. pose proof (astype_dtype c d a) as Hd'.
    destruct (Np.astype c d a); simpl in *. now subst.
  - intros l' (b & <- & Hb)%in_map_iff. destruct (Hall b Hb) as [Hs Hw].
    unfold Np.wf in Hw. now rewrite astype_length, Hw, Hs.
  - now rewrite list_lookup_fmap, Hi.
Qed.

Lemma fill_data_vars_fold (merged : ndarray) (names : list string)
    (arrays : list ndarray) (i : nat) (d : list (string * ndarray)) :
  length names = length arrays ->
  (forall j a, arrays !! j = Some a -> Np.index0 merged (i + j) = Ok a) ->
  fill_data_vars names i merged d =
  Ok (fold_left (fun d na => Dict.set na.1 na.2 d) (combine names arrays) d).
Proof.
  revert arrays i d. induction names as [|n names IH]; intros [|a arrays] i d Hlen Hidx;
    try discriminate; [reflexivity|].
  simpl. rewrite <- (Nat.add_0_r i) at 1. rewrite (Hidx 0 a eq_refl). simpl.
  apply IH; [simpl in Hlen; lia|].
  intros j b Hj. replace (S i + j) with (i + S j) by lia. now apply Hidx.
Qed.

(** With pairwise distinct names no assignment replaces an earlier one. *)
Lemma fill_distinct (names : list string) (arrays : list ndarray)
    (d : list (string * ndarray)) :
  NoDup names ->
  (forall n, In n names -> ~ In n (Dict.keys d)) ->
  fold_left (fun d na => Dict.set na.1 na.2 d) (combine names arrays) d
  = d ++ combine names arrays.
Proof.
  revert arrays d. induction names as [|n names IH]; intros arrays d Hnd Hfresh.
  - simpl. now rewrite app_nil_r.
  - destruct arrays as [|a arrays]; simpl; [now rewrite app_nil_r|].
    apply NoDup_cons in Hnd as [Hn Hnd].
    rewrite dict_set_fresh by (apply Hfresh; now left).
    rewrite IH; [now rewrite <- app_assoc | exact Hnd |].
    intros n' Hn' Hin. unfold Dict.keys in Hin. rewrite map_app, in_app_iff in Hin.
    destruct Hin as [Hin|[<-|[]]].
    + apply (Hfresh n'); [now right | exact Hin].
    + apply Hn, list_elem_of_In, Hn'.
Qed.

(** The flat arrays of regular sources all have the grid's shape. *)
Lemma flat_arrays_regular (H W : nat) (pl_vars sl_vars tp_vars : list (string * ndarray))
    (b : ndarray) :
  (forall va, In va pl_vars -> Np.shape va.2 = [1; 13; H; W] /\ Np.wf va.2) ->
  (forall va, In va sl_vars -> Np.shape va.2 = [1; H; W] /\ Np.wf va.2) ->
  (forall va, In va tp_vars -> Np.shape va.2 = [1; H; W] /\ Np.wf va.2) ->
  In b (flat_arrays H W pl_vars sl_vars tp_vars) ->
  Np.shape b = [H; W] /\ Np.wf b.
Proof.
  intros Hpl Hsl Htp. unfold flat_arrays. rewrite !in_app_iff, in_flat_map, !in_map_iff.
  assert (forall va : string * ndarray, Np.shape va.2 = [1; H; W] /\ Np.wf va.2 ->
                     Np.wf (surface_slice H W va.2)) as Hsurf.
  { intros va [Hs Hw]. unfold Np.wf in *. simpl in *. rewrite Hw, Hs. simpl. lia. }
  intros [(va & Hva & (j & <- & Hj)%in_map_iff)|[(va & <- & Hva)|(va & <- & Hva)]];
    (split; [reflexivity|]); eauto.
  destruct (Hpl va Hva) as [Hs Hw]. apply in_seq in Hj.
  unfold Np.wf in *. simpl in *. rewrite Hs in Hw. simpl in Hw.
  rewrite length_take, length_drop, Hw. nia.
Qed.

Lemma flat_lengths (H W : nat) (pl_vars sl_vars tp_vars : list (string * ndarray)) :
  length (flat_names (Dict.keys pl_vars) (Dict.keys sl_vars) (Dict.keys tp_vars))
  = 13 * length pl_vars + length sl_vars + length tp_vars
  /\ length (flat_arrays H W pl_vars sl_vars tp_vars)
     = 13 * length pl_vars + length sl_vars + length tp_vars.
Proof.
  unfold flat_names, flat_arrays, Dict.keys. rewrite !length_app, !length_map.
  assert (length (flat_map level_names (map fst pl_vars)) = 13 * length pl_vars
          /\ length (flat_map (fun va => map (level_slice H W va.2) (seq 0 13)) pl_vars)
             = 13 * length pl_vars) as [-> ->]; [|lia].
  induction pl_vars as [|va vars [IH1 IH2]]; [now split|].
  cbn [flat_map map length]. unfold level_names at 1.
  rewrite !length_app, IH1, IH2, !length_map, length_seq.
  change (length pressure_levels) with 13. split; lia.
Qed.

Lemma keys_combine (names : list string) (arrays : list ndarray) :
  length names = length arrays -> Dict.keys (combine names arrays) = names.
Proof.
  unfold Dict.keys. revert arrays.
  induction names as [|n ns IH]; intros [|a arrays] Hlen; try discriminate;
    [reflexivity|].
  simpl. f_equal. apply IH. simpl in Hlen. lia.
Qed.

(** ** The record of a regular group *)

Section regular_group.

Variables (env : environment) (key : string) (pl sl tp : nc_file).
Variables (ds_pl ds_sl ds_tp : dataset) (lat lon : ndarray) (H W : nat).
Variable d : string.

Hypothesis pl_readable : payload pl = Some ds_pl.
Hypothesis sl_readable : payload sl = Some ds_sl.
Hypothesis tp_readable : payload tp = Some ds_tp.
Hypothesis pl_shapes :
  forall va, In va (data_vars ds_pl) -> Np.shape va.2 = [1; 13; H; W] /\ Np.wf va.2.
Hypothesis sl_shapes :
  forall va, In va (data_vars ds_sl) -> Np.shape va.2 = [1; H; W] /\ Np.wf va.2.
Hypothesis tp_shapes :
  forall va, In va (data_vars ds_tp) -> Np.shape va.2 = [1; H; W] /\ Np.wf va.2.
Hypothesis some_variable : names_of ds_pl ds_sl ds_tp <> [].
Hypothesis distinct_names : NoDup (names_of ds_pl ds_sl ds_tp).
Hypothesis has_latitude : latitude ds_pl = Some lat.
Hypothesis has_longitude : longitude ds_pl = Some lon.
Hypothesis common_type :
  Np.common_dtype (numpy env) (arrays_of H W ds_pl ds_sl ds_tp) = Some d.
Hypothesis accepted :
  dataset_accepted env
    (combine (names_of ds_pl ds_sl ds_tp)
             (map (Np.astype (numpy env) d) (arrays_of H W ds_pl ds_sl ds_tp)))
    lat lon = true.

Lemma names_arrays_length :
  length (names_of ds_pl ds_sl ds_tp) = length (arrays_of H W ds_pl ds_sl ds_tp).
Proof.
  destruct (flat_lengths H W (data_vars ds_pl) (data_vars ds_sl) (data_vars ds_tp))
    as [E1 E2].
  unfold names_of, arrays_of. now rewrite E1, E2.
Qed.

Lemma flatten_regular :
  (acc ← pl_loop (data_vars ds_pl) ([], []);
   acc ← surface_loop (data_vars ds_sl) acc;
   surface_loop (data_vars ds_tp) acc)
  = Ok (arrays_of H W ds_pl ds_sl ds_tp, names_of ds_pl ds_sl ds_tp).
Proof.
  rewrite (pl_loop_regular H W) by (intros va Hva; now apply pl_shapes). simpl.
  rewrite (surface_loop_regular H W) by (intros va Hva; now apply sl_shapes). simpl.
  rewrite (surface_loop_regular H W) by (intros va Hva; now apply tp_shapes). simpl.
  unfold arrays_of, names_of, flat_arrays, flat_names. now rewrite <- !app_assoc.
Qed.

(** The record built in memory. *)
Lemma build_record_regular (s : state) :
  build_record env key pl sl tp s =
  (Ok {| rec_data_vars :=
           combine (names_of ds_pl ds_sl ds_tp)
                   (map (Np.astype (numpy env) d) (arrays_of H W ds_pl ds_sl ds_tp));
         rec_latitude := lat;
         rec_longitude := lon;
         attr_total_variables := length (names_of ds_pl ds_sl ds_tp);
         attr_pressure_levels := Py.join ", " (map Py.str pressure_levels);
         attr_pl_variables := Py.join ", " (Dict.keys (data_vars ds_pl));
         attr_sl_variables := Py.join ", " (Dict.keys (data_vars ds_sl));
         attr_tp_variables := Py.join ", " (Dict.keys (data_vars ds_tp));
         attr_variable_list := Py.join ", " (names_of ds_pl ds_sl ds_tp);
         attr_datetime := key |},
   log (Opened (Source TP (path tp)))
       (log (Opened (Source SL (path sl)))
            (log (Opened (Source PL (path pl))) s))).
Proof.
  pose proof flatten_regular as Hflat.
  unfold build_record, mbind at 1 2 3 4 5 6 7 8 9 10, M_bind, open_dataset, lift.
  rewrite pl_readable, sl_readable, tp_readable.
  destruct (pl_loop (data_vars ds_pl) ([], [])) as [acc1|]; [|discriminate].
  simpl in Hflat.
  destruct (surface_loop (data_vars ds_sl) acc1) as [acc2|]; [|discriminate].
  simpl in Hflat. rewrite Hflat. cbn [fst snd].
  assert (forall b, In b (arrays_of H W ds_pl ds_sl ds_tp) ->
                    Np.shape b = [H; W] /\ Np.wf b) as Hreg.
  { intros b. now apply flat_arrays_regular. }
  rewrite (stack_regular (numpy env) [H; W] d);
    [|intros Harr; apply some_variable, nil_length_inv;
      now rewrite names_arrays_length, Harr
     |intros b Hb; now apply Hreg
     |exact common_type].
  rewrite has_latitude, has_longitude. cbn [coordinate].
  rewrite (fill_data_vars_fold _ _ (map (Np.astype (numpy env) d)
                                        (arrays_of H W ds_pl ds_sl ds_tp)) 0 []);
    [|rewrite length_map; apply names_arrays_length
     |intros j a (b & -> & Hj)%list_lookup_fmap_Some;
      now apply (index0_stack (numpy env) [H; W])].
  rewrite fill_distinct; [|exact distinct_names|intros n _ []].
  unfold make_dataset. cbn [app]. now rewrite accepted.
Qed.

End regular_group.

(** X14: for a complete group whose pressure-level variables are all
    shaped (1, 13, H, W) and whose surface and precipitation variables
    are all shaped (1, H, W), provided there is at least one variable,
    the flat names are pairwise distinct, the flat arrays have a common
    element type, the pressure-level file stores the two grid
    coordinates, the dataset is accepted and the write succeeds, the
    record written under the key's name holds exactly
    13 x #pl + #sl + #tp flat variables: the levels of each
    pressure-level variable in source order, named variable-then-pressure
    from the fixed list, then the surface variables, then the
    precipitation variables, under their own names; each holds its slice
    of the source array converted to the common element type, which is
    the slice itself when the arrays are all of that type. *)
Theorem merge_flat_variables (env : environment) (key : string) (pl sl tp : nc_file)
    (ds_pl ds_sl ds_tp : dataset) (lat lon : ndarray) (H W : nat) (d : string)
    (s : state) :
  payload pl = Some ds_pl ->
  payload sl = Some ds_sl ->
  payload tp = Some ds_tp ->
  (forall va, In va (data_vars ds_pl) ->
              Np.shape va.2 = [1; 13; H; W] /\ Np.wf va.2) ->
  (forall va, In va (data_vars ds_sl) -> Np.shape va.2 = [1; H; W] /\ Np.wf va.2) ->
  (forall va, In va (data_vars ds_tp) -> Np.shape va.2 = [1; H; W] /\ Np.wf va.2) ->
  let names := names_of ds_pl ds_sl ds_tp in
  let arrays := arrays_of H W ds_pl ds_sl ds_tp in
  names <> [] ->
  NoDup names ->
  Np.common_dtype (numpy env) arrays = Some d ->
  latitude ds_pl = Some lat ->
  longitude ds_pl = Some lon ->
  dataset_accepted env (combine names (map (Np.astype (numpy env) d) arrays)) lat lon
  = true ->
  write_succeeds env (output_name key) = true ->
  exists r : combined_record,
    (build_record env key pl sl tp s).1 = Ok r
    /\ In (Saved (output_name key) r) (trace (process_group env key pl sl tp s).2)
    /\ output_dir (process_group env key pl sl tp s).2 !! output_name key = Some r
    /\ rec_data_vars r = combine names (map (Np.astype (numpy env) d) arrays)
    /\ ((forall a, In a arrays -> Np.dtype a = d) ->
        rec_data_vars r = combine names arrays)
    /\ Dict.keys (rec_data_vars r) = names
    /\ length (rec_data_vars r)
       = 13 * length (data_vars ds_pl) + length (data_vars ds_sl)
         + length (data_vars ds_tp)
    /\ attr_total_variables r = length (rec_data_vars r)
    /\ rec_latitude r = lat
    /\ rec_longitude r = lon.
Proof.
  intros Hpl Hsl Htp Spl Ssl Stp names arrays Hne Hnd Hd Hlat Hlon Hacc Hw.
  pose proof (build_record_regular env key pl sl tp ds_pl ds_sl ds_tp lat lon H W d
                Hpl Hsl Htp Spl Ssl Stp Hne Hnd Hlat Hlon Hd Hacc s) as Hb.
  pose proof (names_arrays_length ds_pl ds_sl ds_tp H W) as Hlen.
  fold names in Hb, Hlen. fold arrays in Hb, Hlen.
  assert (length names
          = 13 * length (data_vars ds_pl) + length (data_vars ds_sl)
            + length (data_vars ds_tp)) as Hcount
    by apply (flat_lengths H W (data_vars ds_pl) (data_vars ds_sl) (data_vars ds_tp)).
  match type of Hb with _ = (Ok ?x, _) => set (r := x) in Hb end.
  assert (rec_data_vars r = combine names (map (Np.astype (numpy env) d) arrays))
    as Hvars by reflexivity.
  assert (attr_total_variables r = length names) as Htotal by reflexivity.
  assert (rec_latitude r = lat /\ rec_longitude r = lon) as Hcoords by (now split).
  clearbody r. exists r. split; [now rewrite Hb|].
  rewrite process_group_unfold, Hb, Hw.
  split.
  { destruct (reopen_succeeds env (output_name key));
      [destruct (rec_data_vars r)|]; cbn [snd trace log];
      rewrite ?in_app_iff; cbn [In]; intuition. }
  split.
  { destruct (reopen_succeeds env (output_name key));
      [destruct (rec_data_vars r)|]; cbn [snd output_dir log];
      apply lookup_insert_eq. }
  split; [exact Hvars|].
  split.
  { intros Hsame. rewrite Hvars. f_equal. rewrite <- (map_id arrays) at 2.
    apply map_ext_in. intros a Ha. now apply astype_same, Hsame. }
  rewrite Hvars, Htotal. split; [apply keys_combine; now rewrite length_map|].
  rewrite length_combine, length_map, <- Hlen, Nat.min_id. now repeat split.
Qed.

(** ** Variables of unexpected dimensionality *)

(** C5, as amended: a surface-level or precipitation variable that is not
    three-dimensional is appended to the flat list as it is, under its own
    name and at its own place; a pressure-level variable that is not
    four-dimensional is left out of the flat list altogether. *)
Theorem unexpected_dimensionality :
  (forall (vars : list (string * ndarray)) (acc : flat)
          (all_data : list ndarray) (var_names : list string)
          (i : nat) (var : string) (data : ndarray),
      surface_loop vars acc = Ok (all_data, var_names) ->
      vars !! i = Some (var, data) ->
      Np.ndim data <> 3 ->
      var_names !! (length acc.2 + i) = Some var
      /\ all_data !! (length acc.1 + i) = Some data)
  /\ (forall (vars : list (string * ndarray)) (acc : flat),
      pl_loop vars acc
      = pl_loop (filter (fun va => Np.ndim va.2 = 4) vars) acc).
Proof.
  split; [|exact pl_loop_filter].
  intros vars acc all_data var_names i var data Hloop Hi Hdim.
  apply surface_loop_entries in Hloop as (datas & -> & -> & Hf). split.
  - rewrite lookup_app_r, Nat.add_comm, Nat.add_sub by lia.
    unfold Dict.keys. now rewrite list_lookup_fmap, Hi.
  - rewrite lookup_app_r, Nat.add_comm, Nat.add_sub by lia.
    destruct (Forall2_lookup_l _ _ _ _ _ Hf Hi) as (d & Hd & E).
    now rewrite Hd, (E Hdim).
Qed.

(** ** Closing the source datasets *)

(** C6, as amended: when the processing of a group succeeds, the three
    source datasets are closed, in the order they were opened, after the
    record has been saved and read back; when it raises, whether in the
    write or anywhere else, none of them is closed. *)
Theorem source_handles_closed_on_success (env : environment) (key : string)
    (pl sl tp : nc_file) (s : state) :
  exists evs : list event,
    trace (process_group env key pl sl tp s).2 = trace s ++ evs
    /\ match (process_group env key pl sl tp s).1 with
       | Ok _ =>
           exists (opens : list event) (r : combined_record),
             forallb is_source_open opens = true
             /\ evs = opens ++ [Saved (output_name key) r;
                                Opened (Output (output_name key));
                                Closed (Output (output_name key));
                                Closed (Source PL (path pl));
                                Closed (Source SL (path sl));
                                Closed (Source TP (path tp))]
       | Raise _ => forallb (fun e => negb (is_source_close e)) evs = true
       end.
Proof.
  rewrite process_group_unfold.
  destruct (quiet_build_record env key pl sl tp s) as (opens & Hopens & E).
  assert (forallb (fun e => negb (is_source_close e)) opens = true) as Hnc.
  { apply forallb_forall. intros e He. rewrite forallb_forall in Hopens.
    specialize (Hopens e He). now destruct e as [| |[]| | |]. }
  destruct (build_record env key pl sl tp s) as [[r|x] sb]; simpl in E; subst sb;
    [|now exists opens].
  destruct (write_succeeds env (output_name key)); [|now exists opens].
  destruct (reopen_succeeds env (output_name key)).
  - destruct (rec_data_vars r); cbn [fst snd trace log].
    + eexists. rewrite <- !app_assoc. split; [reflexivity|].
      rewrite forallb_app, Hnc. reflexivity.
    + eexists. rewrite <- !app_assoc. split; [reflexivity|].
      exists opens, r. now split.
  - cbn [fst snd trace]. eexists. rewrite <- !app_assoc. split; [reflexivity|].
    rewrite forallb_app, Hnc. reflexivity.
Qed.

(** ** Failures of one group *)

(** C7, as amended: an exception raised while a group is processed is
    caught, the group is not counted and the loop goes on with the next
    group, so that every group of the run is visited whatever happens to
    the others; a file is saved for a group only after its record has
    been built in memory, and a group that fails before its write
    completes leaves the output directory as it was.  (A group that fails
    in the verification read has been saved already.) *)
Theorem group_failure_is_contained (env : environment) :
  (forall (key : string) (pl sl tp : nc_file) (rest : list (string * group))
          (s : state) (e : exn) (s' : state),
      process_group env key pl sl tp (log (Processing key) s) = (Raise e, s') ->
      merge_loop env ((key, mk_group (Some pl) (Some sl) (Some tp)) :: rest) s
      = merge_loop env rest (log (Failed key e) s')
      /\ processed_count s' = processed_count s)
  /\ (forall (date_groups : list (string * group)) (s : state)
             (key : string) (g : group),
      In (key, g) date_groups ->
      In (if complete g then Processing key else Skipped key)
         (trace (merge_loop env date_groups s)))
  /\ (forall (key : string) (pl sl tp : nc_file) (s : state),
      exists evs : list event,
        trace (process_group env key pl sl tp s).2 = trace s ++ evs
        /\ (forall f r, In (Saved f r) evs ->
                        f = output_name key
                        /\ (build_record env key pl sl tp s).1 = Ok r
                        /\ write_succeeds env f = true)
        /\ ((forall f r, ~ In (Saved f r) evs) ->
            output_dir (process_group env key pl sl tp s).2 = output_dir s)).
Proof.
  split; [|split; [intros; now apply merge_loop_visits|]].
  - intros key pl sl tp rest s e s' Hrun. simpl. unfold guarded. rewrite Hrun.
    split; [reflexivity|].
    rewrite process_group_unfold in Hrun. cbv zeta in Hrun.
    destruct (quiet_build_record env key pl sl tp (log (Processing key) s))
      as (opens & _ & E).
    destruct (build_record env key pl sl tp (log (Processing key) s)) as [[r|x] sb];
      simpl in E; subst sb;
      repeat match type of Hrun with
        | (if ?c then _ else _) = _ => destruct c
        | match ?l with [] => _ | _ :: _ => _ end = _ => destruct l
        end;
      first [discriminate Hrun | (injection Hrun as _ <-; reflexivity)].
  - intros key pl sl tp s. rewrite process_group_unfold.
    destruct (quiet_build_record env key pl sl tp s) as (opens & Hopens & E).
    assert (forall f r, ~ In (Saved f r) opens) as Hns.
    { intros f r Hin. rewrite forallb_forall in Hopens. now apply Hopens in Hin. }
    destruct (build_record env key pl sl tp s) as [[r|x] sb]; simpl in E; subst sb;
      [|exists opens; split; [reflexivity|]; split;
        [intros f r Hin; now apply Hns in Hin | reflexivity]].
    destruct (write_succeeds env (output_name key)) eqn:Hw;
      [|exists opens; split; [reflexivity|]; split;
        [intros f r' Hin; now apply Hns in Hin | reflexivity]].
    assert (forall tl : list event,
               (forall f r', In (Saved f r') tl -> False) ->
               forall f r', In (Saved f r') (opens ++ Saved (output_name key) r :: tl) ->
                            f = output_name key /\ Ok r = Ok r' /\ write_succeeds env f = true)
      as Hin.
    { intros tl Htl f r' [H|[[= <- <-]|H]]%in_app_iff;
        [now apply Hns in H | now rewrite Hw | now apply Htl in H]. }
    assert (forall (tl : list event) (P : Prop),
               (forall f r', ~ In (Saved f r') (opens ++ Saved (output_name key) r :: tl))
               -> P) as Hex.
    { intros tl P H. exfalso. apply (H (output_name key) r), in_app_iff.
      right. now left. }
    destruct (reopen_succeeds env (output_name key));
      [destruct (rec_data_vars r)|]; cbn [fst snd trace log output_dir];
      eexists; rewrite <- !app_assoc; (split; [reflexivity|]); cbn [app];
      (split; [apply Hin | apply Hex]); cbn [In]; intuition discriminate.
Qed.

(** ** Unparseable time bounds *)

Lemma parse_bound_None (time : option string) :
  parse_bound time = None <-> bad_bound time.
Proof.
  unfold bad_bound, parse_bound, matches_format. split.
  - destruct time as [[|c t]|]; try discriminate.
    destruct (Strptime.strptime (String c t) Strptime.fmt_Y_m_d_H_M) eqn:E1;
      [discriminate|].
    destruct (Strptime.strptime (String c t) Strptime.fmt_Ymd_HM) eqn:E2;
      [discriminate|].
    intros _. exists (String c t). rewrite E1, E2.
    split; [reflexivity|]. split; [discriminate|]. split; reflexivity.
  - intros (t & -> & Hne & H1 & H2). destruct t as [|c t]; [congruence|].
    destruct (Strptime.strptime (String c t) Strptime.fmt_Y_m_d_H_M);
      [discriminate H1|].
    now destruct (Strptime.strptime (String c t) Strptime.fmt_Ymd_HM).
Qed.

(** ** More than thirteen levels *)

Lemma pl_loop_too_many_levels (vars : list (string * ndarray)) (acc : flat) :
  (forall va, In va vars -> Np.ndim va.2 = 4 -> times va.2 = 1) ->
  (exists va, In va vars /\ Np.ndim va.2 = 4 /\ 13 < levels va.2) ->
  pl_loop vars acc = Raise IndexError.
Proof.
  revert acc. induction vars as [|[var a] vars IH]; intros acc Htimes (va & Hin & Hva).
  { destruct Hin. }
  assert (forall va', In va' vars -> Np.ndim va'.2 = 4 -> times va'.2 = 1) as Htimes'
    by (intros; apply Htimes; auto; now right).
  destruct (Nat.eq_dec (Np.ndim a) 4) as [Hdim|Hdim].
  - pose proof (Htimes (var, a) (or_introl eq_refl) Hdim) as Ht.
    unfold Np.ndim, times in Hdim, Ht. simpl in Hdim, Ht.
    destruct (Np.shape a) as [|t [|n [|h [|w [|]]]]] eqn:Hs; try discriminate.
    simpl in Ht. subst t.
    rewrite (pl_loop_step var a vars n [h; w] acc Hs eq_refl).
    destruct (le_lt_dec n 13) as [Hn|Hn].
    + rewrite (level_loop_ok var _ n [h; w]) by (reflexivity || lia). simpl.
      apply IH; [exact Htimes'|].
      destruct Hin as [<-|Hin]; [|eauto].
      destruct Hva as [_ Hl]. unfold levels in Hl. simpl in Hl. rewrite Hs in Hl.
      simpl in Hl. lia.
    + now rewrite (level_loop_raises var _ n [h; w]) by (reflexivity || lia).
  - rewrite pl_loop_skip by exact Hdim. apply IH; [exact Htimes'|].
    destruct Hin as [<-|Hin]; [now destruct Hva | eauto].
Qed.

Lemma build_record_pl_raises (env : environment) (key : string) (pl sl tp : nc_file)
    (ds_pl : dataset) (e : exn) (s : state) :
  payload pl = Some ds_pl ->
  pl_loop (data_vars ds_pl) ([], []) = Raise e ->
  build_record env key pl sl tp s = (Raise e, log (Opened (Source PL (path pl))) s).
Proof.
  intros Hpl Hloop.
  unfold build_record, mbind, M_bind, open_dataset, lift.
  rewrite Hpl. cbv beta iota. now rewrite Hloop.
Qed.

(** C10, as amended: when the pressure-level file of a complete group
    holds a four-dimensional variable with more than thirteen levels, and
    its four-dimensional variables have a time axis of length one, the
    lookup in the fixed list of thirteen pressures raises [IndexError];
    the exception is caught, nothing is written for the key, the group is
    not counted, and the loop goes on with the remaining groups. *)
Theorem too_many_levels_skips_group (env : environment) (key : string)
    (pl sl tp : nc_file) (ds_pl : dataset) (var : string) (a : ndarray)
    (rest : list (string * group)) (s : state) :
  payload pl = Some ds_pl ->
  In (var, a) (data_vars ds_pl) ->
  Np.ndim a = 4 ->
  13 < levels a ->
  (forall va, In va (data_vars ds_pl) -> Np.ndim va.2 = 4 -> times va.2 = 1) ->
  let s0 := log (Processing key) s in
  let s1 := log (Opened (Source PL (path pl))) s0 in
  process_group env key pl sl tp s0 = (Raise IndexError, s1)
  /\ merge_loop env ((key, mk_group (Some pl) (Some sl) (Some tp)) :: rest) s
     = merge_loop env rest (log (Failed key IndexError) s1)
  /\ output_dir (log (Failed key IndexError) s1) = output_dir s
  /\ processed_count (log (Failed key IndexError) s1) = processed_count s
  /\ (forall f r, In (Saved f r) (trace (log (Failed key IndexError) s1)) ->
                  In (Saved f r) (trace s)).
Proof.
  intros Hpl Hin Hdim Hlev Htimes s0 s1.
  assert (process_group env key pl sl tp s0 = (Raise IndexError, s1)) as Hrun.
  { rewrite process_group_unfold.
    rewrite (build_record_pl_raises env key pl sl tp ds_pl IndexError); auto.
    apply pl_loop_too_many_levels; [exact Htimes|]. exists (var, a). auto. }
  split; [exact Hrun|]. split.
  { simpl. unfold guarded. fold s0. now rewrite Hrun. }
  split; [reflexivity|]. split; [reflexivity|].
  intros f r. simpl. rewrite !in_app_iff. simpl. intuition discriminate.
Qed.

(** ** The claims at the sample inputs *)

Lemma extract_sample_keys :
  extract_datetime_from_filename (path Sample.pl) = Sample.key
  /\ extract_datetime_from_filename (path Sample.sl) = Sample.key
  /\ extract_datetime_from_filename (path Sample.tp) = Sample.key
  /\ parse_datetime_string Sample.key = Some Sample.midnight.
Proof. repeat split; vm_compute; reflexivity. Qed.

(** The scenario of the time range: with the timesteps of 00:00, 06:00,
    12:00 and 18:00 present in all three kinds and the bounds 06:00 and
    12:00, exactly the two groups of 06:00 and 12:00 are merged. *)
Lemma time_range_scenario :
  exists s : state,
    merge_data Sample.env_ok
      (map (fun h => Sample.at_hour h "pl" Sample.pl_ds) Sample.hours)
      (map (fun h => Sample.at_hour h "sl" Sample.sl_ds) Sample.hours)
      (map (fun h => Sample.at_hour h "tp" Sample.tp_ds) Sample.hours)
      ∅ (Some "2018-02-01 06:00") (Some "2018-02-01 12:00")
    = Completed s
    /\ processed_count s = 2
    /\ map (fun h => bool_decide (is_Some (output_dir s !! output_name ("20180201_" +:+ h))))
           Sample.hours
       = [false; true; true; false].
Proof.
  eexists. split; [vm_compute; reflexivity|]. split; vm_compute; reflexivity.
Qed.

Lemma merge_flat_variables_witness :
  exists r : combined_record,
    In (Saved "era5_20180201_0000.nc" r)
       (trace (process_group Sample.env_ok Sample.key Sample.pl Sample.sl Sample.tp
                             blank).2)
    /\ Dict.keys (rec_data_vars r)
       = level_names "t" ++ level_names "z" ++ ["t2m"; "tp"]
    /\ length (rec_data_vars r) = 13 * 2 + 1 + 1
    /\ Dict.get "t2m" (rec_data_vars r) = Some (Sample.ramp [1; 2] 3000).
Proof.
  destruct (merge_flat_variables Sample.env_ok Sample.key Sample.pl Sample.sl Sample.tp
              Sample.pl_ds Sample.sl_ds Sample.tp_ds Sample.lat Sample.lon 1 2
              "float32" blank)
    as (r & _ & Hsaved & _ & _ & Hsame & Hkeys & Hlen & _);
    try reflexivity.
  - intros va [<-|[<-|[]]]; split; reflexivity.
  - intros va [<-|[]]; split; reflexivity.
  - intros va [<-|[]]; split; reflexivity.
  - vm_compute. discriminate.
  - apply (bool_decide_unpack _). vm_compute. exact I.
  - exists r. split; [exact Hsaved|]. split; [exact Hkeys|]. split; [exact Hlen|].
    rewrite Hsame; [vm_compute; reflexivity|].
    intros a Ha%list_elem_of_In. revert a Ha. apply Forall_forall.
    apply (bool_decide_unpack _). vm_compute. exact I.
Defined.

(** C1: the code at the failing input.  The pressure-level file holds t
    and z, each shaped (1, 13, 1, 2), the surface file a variable called
    tp and the precipitation file a variable called tp, each shaped
    (1, 1, 2).  The run completes and writes a record that holds 27
    variables, not 13 x 2 + 1 + 1 = 28, while the attribute
    [total_variables] of that very record says 28: the second tp has
    replaced the first. *)
Lemma merge_name_collision :
  (forall va, In va (data_vars Sample.pl_ds) -> Np.shape va.2 = [1; 13; 1; 2])
  /\ (forall va, In va [("tp", Sample.ramp [1; 1; 2] 3000)] ->
                 Np.shape va.2 = [1; 1; 2])
  /\ (forall va, In va (data_vars Sample.tp_ds) -> Np.shape va.2 = [1; 1; 2])
  /\ exists (s : state) (r : combined_record),
      merge_data Sample.env_ok [Sample.pl] [Sample.sl_named_tp] [Sample.tp] ∅ None None
      = Completed s
      /\ output_dir s !! "era5_20180201_0000.nc" = Some r
      /\ length (rec_data_vars r) = 27
      /\ length (rec_data_vars r) <> 13 * 2 + 1 + 1
      /\ attr_total_variables r = 28
      /\ Dict.get "tp" (rec_data_vars r) = Some (Sample.ramp [1; 2] 4000).
Proof.
  split; [intros va [<-|[<-|[]]]; reflexivity|].
  split; [intros va [<-|[]]; reflexivity|].
  split; [intros va [<-|[]]; reflexivity|].
  eexists. eexists. split; [vm_compute; reflexivity|].
  split; [vm_compute; reflexivity|]. split; [reflexivity|].
  split; [discriminate|]. split; reflexivity.
Qed.

Lemma inclusion_rule_witness :
  (In (PL, Sample.pl, Sample.key, Sample.midnight)
      (all_files [Sample.pl; Sample.notes] [Sample.sl] [Sample.tp]
                 (Some Sample.midnight) None)
   <-> within (Some Sample.midnight) None Sample.midnight)
  /\ (forall (k' : kind) (key' : string) (dt' : datetime),
        ~ In (k', Sample.notes, key', dt')
             (all_files [Sample.pl; Sample.notes] [Sample.sl] [Sample.tp]
                        (Some Sample.midnight) None)).
Proof.
  split.
  - apply (inclusion_rule [Sample.pl; Sample.notes] [Sample.sl] [Sample.tp]
             (Some Sample.midnight) None PL Sample.pl);
      [left; reflexivity | reflexivity | vm_compute; reflexivity].
  - apply (inclusion_rule [Sample.pl; Sample.notes] [Sample.sl] [Sample.tp]
             (Some Sample.midnight) None PL Sample.notes);
      [right; left; reflexivity | reflexivity | vm_compute; reflexivity].
Defined.

Lemma incomplete_group_not_merged_witness :
  ~ In (Processing Sample.key) (trace Sample.run_without_tp)
  /\ (forall r, ~ In (Saved (output_name Sample.key) r) (trace Sample.run_without_tp))
  /\ output_dir Sample.run_without_tp !! output_name Sample.key = None.
Proof.
  destruct (incomplete_group_not_merged Sample.env_ok [Sample.pl] [Sample.sl] [] ∅
              None None None None Sample.run_without_tp eq_refl eq_refl eq_refl)
    as [Hinc _].
  apply (Hinc Sample.key (mk_group (Some Sample.pl) (Some Sample.sl) None)).
  - vm_compute. left. reflexivity.
  - reflexivity.
Defined.

Lemma unexpected_dimensionality_witness :
  surface_loop [("t2m", Sample.ramp [1; 1; 2] 0); ("sp", Sample.ramp [1; 2] 7)] ([], [])
  = Ok ([surface_slice 1 2 (Sample.ramp [1; 1; 2] 0); Sample.ramp [1; 2] 7],
        ["t2m"; "sp"])
  /\ Np.ndim (Sample.ramp [1; 2] 7) <> 3
  /\ ["t2m"; "sp"] !! 1 = Some "sp"
  /\ [surface_slice 1 2 (Sample.ramp [1; 1; 2] 0); Sample.ramp [1; 2] 7] !! 1
     = Some (Sample.ramp [1; 2] 7).
Proof.
  assert (surface_loop [("t2m", Sample.ramp [1; 1; 2] 0); ("sp", Sample.ramp [1; 2] 7)]
                       ([], [])
          = Ok ([surface_slice 1 2 (Sample.ramp [1; 1; 2] 0); Sample.ramp [1; 2] 7],
                ["t2m"; "sp"])) as Hloop by reflexivity.
  assert (Np.ndim (Sample.ramp [1; 2] 7) <> 3) as Hdim by (vm_compute; discriminate).
  split; [exact Hloop|]. split; [exact Hdim|].
  destruct unexpected_dimensionality as [Hsurface _].
  apply (Hsurface _ ([], []) _ _ 1 "sp" (Sample.ramp [1; 2] 7) Hloop);
    [reflexivity | exact Hdim].
Defined.

(** C5, as stated, fails for the pressure-level file: a variable that is
    not four-dimensional is not appended at all. *)
Lemma pressure_variable_dropped_counterexample :
  Np.ndim (Sample.ramp [13; 1; 2] 0) <> 4
  /\ pl_loop [("t", Sample.ramp [13; 1; 2] 0)] ([], []) = Ok ([], []).
Proof. split; [vm_compute; discriminate | reflexivity]. Qed.

(** C6, as stated, fails: when the write fails after the record has been
    built, the three source datasets stay open. *)
Lemma handles_left_open_counterexample :
  (exists r, (build_record Sample.env_write_fails Sample.key Sample.pl Sample.sl
                           Sample.tp blank).1 = Ok r)
  /\ process_group Sample.env_write_fails Sample.key Sample.pl Sample.sl Sample.tp blank
     = (Raise OSError,
        mk_state [Opened (Source PL (path Sample.pl));
                  Opened (Source SL (path Sample.sl));
                  Opened (Source TP (path Sample.tp))] ∅ 0)
  /\ ~ In (Closed (Source PL (path Sample.pl)))
          (trace (process_group Sample.env_write_fails Sample.key Sample.pl Sample.sl
                                Sample.tp blank).2).
Proof.
  split; [eexists; vm_compute; reflexivity|].
  split; [vm_compute; reflexivity|].
  vm_compute. intuition discriminate.
Qed.

Lemma group_failure_is_contained_witness :
  merge_loop Sample.env_write_fails
    [(Sample.key, mk_group (Some Sample.pl) (Some Sample.sl) (Some Sample.tp));
     ("20180201_0600", mk_group (Some Sample.pl) None None)] blank
  = merge_loop Sample.env_write_fails
      [("20180201_0600", mk_group (Some Sample.pl) None None)]
      (log (Failed Sample.key OSError)
           (mk_state [Processing Sample.key;
                      Opened (Source PL (path Sample.pl));
                      Opened (Source SL (path Sample.sl));
                      Opened (Source TP (path Sample.tp))] ∅ 0)).
Proof.
  destruct (group_failure_is_contained Sample.env_write_fails) as [Hcaught _].
  apply Hcaught. vm_compute. reflexivity.
Defined.

(** C7, as stated, fails: a group whose verification read fails is a
    failed group (it is not counted), yet its output file has been
    written. *)
Lemma failed_group_keeps_output_counterexample :
  (process_group Sample.env_reopen_fails Sample.key Sample.pl Sample.sl Sample.tp
                 blank).1 = Raise OSError
  /\ processed_count
       (guarded Sample.env_reopen_fails Sample.key Sample.pl Sample.sl Sample.tp blank)
     = 0
  /\ is_Some (output_dir
                (guarded Sample.env_reopen_fails Sample.key Sample.pl Sample.sl
                         Sample.tp blank)
              !! output_name Sample.key).
Proof.
  split; [vm_compute; reflexivity|]. split; [vm_compute; reflexivity|].
  eexists. vm_compute. reflexivity.
Qed.

Lemma merge_twice_witness :
  exists s2 : state,
    merge_data Sample.env_ok [Sample.pl] [Sample.sl] [Sample.tp]
               (output_dir Sample.first_run) None None = Completed s2
    /\ trace s2 = trace Sample.first_run
    /\ processed_count s2 = processed_count Sample.first_run
    /\ output_dir s2 = output_dir Sample.first_run.
Proof.
  apply (merge_twice Sample.env_ok [Sample.pl] [Sample.sl] [Sample.tp] ∅ None None
           Sample.first_run).
  reflexivity.
Defined.

Lemma too_many_levels_skips_group_witness :
  process_group Sample.env_ok Sample.key Sample.pl_14 Sample.sl Sample.tp
                (log (Processing Sample.key) blank)
  = (Raise IndexError,
     log (Opened (Source PL (path Sample.pl_14))) (log (Processing Sample.key) blank)).
Proof.
  apply (too_many_levels_skips_group Sample.env_ok Sample.key Sample.pl_14 Sample.sl
           Sample.tp _ "t" (Sample.ramp [1; 14; 1; 2] 1000) [] blank eq_refl).
  - left. reflexivity.
  - reflexivity.
  - vm_compute. lia.
  - intros va [<-|[]] _. reflexivity.
Defined.

(** C10, as stated, fails when the time axis is not of length one: the
    exception is then the [ValueError] of [squeeze], raised before any
    level is looked up. *)
Lemma two_times_counterexample :
  Np.ndim (Sample.ramp [2; 14; 1; 2] 1000) = 4
  /\ 13 < levels (Sample.ramp [2; 14; 1; 2] 1000)
  /\ (process_group Sample.env_ok Sample.key Sample.pl_two_times Sample.sl Sample.tp
                    blank).1 = Raise ValueError
  /\ (process_group Sample.env_ok Sample.key Sample.pl_two_times Sample.sl Sample.tp
                    blank).1 <> Raise IndexError.
Proof.
  split; [reflexivity|]. split; [vm_compute; lia|].
  split; [vm_compute; reflexivity | vm_compute; discriminate].
Qed.


(** ** Canonical keys are parsed back *)

Lemma string_of_uint_dec (u : Decimal.uint) :
  Py.all_chars Strptime.dec (NilEmpty.string_of_uint u) = true.
Proof. induction u; simpl; auto. Qed.

Lemma int_acc_string_of_uint (u : Decimal.uint) (acc : nat) :
  Strptime.int_acc (NilEmpty.string_of_uint u) acc = Nat.of_uint_acc u acc.
Proof.
  revert acc. induction u; intros acc; simpl; [reflexivity|..];
    rewrite IHu, Nat.tail_mul_spec; f_equal; lia.
Qed.

(** Decimal printing gives digits only, and they read back as the number. *)
Lemma str_dec (n : nat) : Py.all_chars Strptime.dec (Py.str n) = true.
Proof. apply string_of_uint_dec. Qed.

Lemma int_str (n : nat) : Strptime.int (Py.str n) = n.
Proof.
  unfold Strptime.int, Py.str. rewrite int_acc_string_of_uint.
  apply Unsigned.of_to.
Qed.

Lemma regex_match_cons (d : Strptime.directive) (fmt : list Strptime.directive)
    (s : string) :
  Strptime.regex_match (d :: fmt) s =
  Strptime.first_success
    (fun '(txt, rest) =>
       match Strptime.regex_match fmt rest with
       | Some (found, rest') => Some ((d, txt) :: found, rest')
       | None => None
       end)
    (Strptime.candidates d s).
Proof. reflexivity. Qed.

(** One step of the match, for a field printed in the canonical way and
    followed by text that the rest of the format matches. *)
Ltac regex_step H :=
  rewrite regex_match_cons; cbv -[Strptime.regex_match]; rewrite H; reflexivity.

Section canonical_steps.

Variables (fmt : list Strptime.directive) (rest : string).
Variables (found : list (Strptime.directive * string)) (r : string).
Hypothesis rest_matches : Strptime.regex_match fmt rest = Some (found, r).

Lemma regex_step_year (y : nat) :
  String.length (Py.str y) = 4 ->
  Strptime.regex_match (Strptime.Year :: fmt) (Py.str y +:+ rest)
  = Some ((Strptime.Year, Py.str y) :: found, r).
Proof.
  intros Hlen. pose proof (str_dec y) as Hdec.
  destruct (Py.str y) as [|a [|b [|c [|d [|]]]]]; try discriminate.
  simpl in Hdec. repeat (apply andb_true_iff in Hdec as [? Hdec]).
  rewrite regex_match_cons. rewrite !string_app_cons, string_app_nil_l.
  cbn [Strptime.candidates Strptime.alternatives omap list_omap Strptime.match_classes].
  rewrite H, H0, H1, H2. simpl. now rewrite rest_matches.
Qed.

Lemma regex_step_month (m : nat) :
  1 <= m <= 12 ->
  Strptime.regex_match (Strptime.Month :: fmt) (format_02d m +:+ rest)
  = Some ((Strptime.Month, format_02d m) :: found, r).
Proof.
  intros Hm.
  do 13 (destruct m as [|m]; [first [lia | regex_step rest_matches]|]). lia.
Qed.

Lemma regex_step_day (d : nat) :
  1 <= d <= 31 ->
  Strptime.regex_match (Strptime.Day :: fmt) (format_02d d +:+ rest)
  = Some ((Strptime.Day, format_02d d) :: found, r).
Proof.
  intros Hd.
  do 32 (destruct d as [|d]; [first [lia | regex_step rest_matches]|]). lia.
Qed.

Lemma regex_step_hour (h : nat) :
  h < 24 ->
  Strptime.regex_match (Strptime.Hour :: fmt) (format_02d h +:+ rest)
  = Some ((Strptime.Hour, format_02d h) :: found, r).
Proof.
  intros Hh.
  do 24 (destruct h as [|h]; [regex_step rest_matches|]). lia.
Qed.

Lemma regex_step_minute (mi : nat) :
  mi < 60 ->
  Strptime.regex_match (Strptime.Minute :: fmt) (format_02d mi +:+ rest)
  = Some ((Strptime.Minute, format_02d mi) :: found, r).
Proof.
  intros Hmi.
  do 60 (destruct mi as [|mi]; [regex_step rest_matches|]). lia.
Qed.

Lemma regex_step_underscore :
  Strptime.regex_match (Strptime.Lit "_" :: fmt) (String "_" rest)
  = Some ((Strptime.Lit "_", String "_" EmptyString) :: found, r).
Proof. regex_step rest_matches. Qed.

End canonical_steps.

Lemma string_app_nil_r (s : string) : s +:+ EmptyString = s.
Proof. induction s as [|c s IH]; str_simpl; [reflexivity | now rewrite IH]. Qed.

Lemma int_format_02d (n : nat) : Strptime.int (format_02d n) = n.
Proof.
  unfold format_02d. destruct (n <? 10); [|apply int_str].
  rewrite string_app_cons, string_app_nil_l. apply (int_str n).
Qed.

Lemma days_in_month_le_31 (y m : nat) : Strptime.days_in_month y m <= 31.
Proof.
  unfold Strptime.days_in_month.
  do 13 (destruct m as [|m]; [try destruct (Strptime.is_leap y); lia|]). lia.
Qed.

(** The first format accepts every canonical key and gives back the
    date-time it was printed from. *)
Lemma strptime_key_of (dt : datetime) :
  valid_datetime dt ->
  Strptime.strptime (key_of dt) Strptime.fmt_Ymd_HM = Ok dt.
Proof.
  intros (Hlen & Hy & Hm & Hd & Hh & Hmi).
  pose proof (days_in_month_le_31 (year dt) (month dt)) as H31.
  unfold Strptime.strptime, Strptime.fmt_Ymd_HM, key_of.
  change ("_" +:+ format_02d (hour dt) +:+ format_02d (minute dt))
    with (String "_" (format_02d (hour dt) +:+ format_02d (minute dt))).
  rewrite <- (string_app_nil_r (format_02d (minute dt))).
  erewrite regex_step_year; [| |exact Hlen].
  2: { apply regex_step_month; [|lia].
       apply regex_step_day; [|lia].
       apply regex_step_underscore.
       apply regex_step_hour; [|lia].
       apply regex_step_minute; [|lia]. reflexivity. }
  cbn [Strptime.field Strptime.same_directive].
  rewrite int_str, !int_format_02d.
  replace (1 <=? year dt) with true by (symmetry; apply Nat.leb_le; lia).
  replace (day dt <=? Strptime.days_in_month (year dt) (month dt)) with true
    by (symmetry; apply Nat.leb_le; lia).
  now destruct dt.
Qed.


Lemma all_chars_app (p : ascii -> bool) (a b : string) :
  Py.all_chars p (a +:+ b) = Py.all_chars p a && Py.all_chars p b.
Proof.
  induction a as [|c a IH]; str_simpl; [reflexivity|].
  now rewrite IH, andb_assoc.
Qed.

Lemma dec_isdigit (c : ascii) : Strptime.dec c = true -> Py.char_isdigit c = true.
Proof.
  unfold Strptime.dec, Strptime.between, Py.char_isdigit. intros ->. reflexivity.
Qed.

Lemma isdigit_of_dec (s : string) :
  s <> EmptyString -> Py.all_chars Strptime.dec s = true -> Py.isdigit s = true.
Proof.
  intros Hne H. destruct s as [|c s]; [congruence|].
  apply (all_chars_impl _ _ _ dec_isdigit H).
Qed.

Lemma format_02d_length (n : nat) : n < 100 -> String.length (format_02d n) = 2.
Proof.
  intros Hn. do 100 (destruct n as [|n]; [reflexivity|]). lia.
Qed.

Lemma format_02d_dec (n : nat) : Py.all_chars Strptime.dec (format_02d n) = true.
Proof.
  unfold format_02d. destruct (n <? 10); [|apply str_dec].
  rewrite all_chars_app. now rewrite str_dec.
Qed.

(** The two tokens of a canonical key. *)
Lemma key_of_tokens (dt : datetime) :
  valid_datetime dt ->
  is_date_token (Py.str (year dt) +:+ format_02d (month dt) +:+ format_02d (day dt))
  = true
  /\ is_time_token (format_02d (hour dt) +:+ format_02d (minute dt)) = true.
Proof.
  intros (Hlen & Hy & Hm & Hd & Hh & Hmi).
  pose proof (days_in_month_le_31 (year dt) (month dt)) as H31.
  unfold is_date_token, is_time_token.
  rewrite !string_length_app, Hlen, !format_02d_length by lia. simpl.
  split; apply isdigit_of_dec;
    rewrite ?all_chars_app, ?str_dec, ?format_02d_dec; try reflexivity;
    intros E; apply (f_equal String.length) in E;
    rewrite !string_length_app, ?Hlen, !format_02d_length in E by lia;
    discriminate.
Qed.

(** The key of the name the merge gives to its output. *)
Lemma extract_output_name (d8 d4 : string) :
  is_date_token d8 = true ->
  is_time_token d4 = true ->
  extract_datetime_from_filename (output_name (d8 +:+ "_" +:+ d4)) = d8 +:+ "_" +:+ d4.
Proof.
  intros Hd Ht.
  set (base := "era5" +:+ String "_" (d8 +:+ String "_" d4)).
  assert (stem (output_name (d8 +:+ "_" +:+ d4)) = base) as Hstem.
  { replace (output_name (d8 +:+ "_" +:+ d4)) with (base +:+ ".nc")
      by (unfold base, output_name;
          repeat (rewrite string_app_assoc || rewrite string_app_cons);
          reflexivity).
    apply stem_nc. unfold base. discriminate. }
  unfold extract_datetime_from_filename. rewrite Hstem. unfold base.
  pose proof Hd as Hd'. pose proof Ht as Ht'.
  unfold is_date_token in Hd'. unfold is_time_token in Ht'.
  apply andb_true_iff in Hd' as [Hd8 Hdd]. apply andb_true_iff in Ht' as [Ht4 Htd].
  rewrite !split_app, (isdigit_single_field d8 Hdd), (isdigit_single_field d4 Htd).
  simpl. rewrite Hd8, Hdd, Ht4, Htd. simpl.
  apply Nat.eqb_eq in Ht4. rewrite Ht4. reflexivity.
Qed.

Lemma key_of_split (dt : datetime) :
  key_of dt
  = (Py.str (year dt) +:+ format_02d (month dt) +:+ format_02d (day dt))
    +:+ "_" +:+ (format_02d (hour dt) +:+ format_02d (minute dt)).
Proof. unfold key_of. now rewrite !string_app_assoc. Qed.

Lemma canonical_key_parses (dt : datetime) :
  valid_datetime dt -> parse_datetime_string (key_of dt) = Some dt.
Proof. intros Hv. unfold parse_datetime_string. now rewrite strptime_key_of. Qed.

(** X1: a canonical key is parsed back to the date-time it was printed
    from; hence two valid date-times with the same key are equal. *)
Theorem canonical_key_round_trip (dt : datetime) :
  valid_datetime dt ->
  parse_datetime_string (key_of dt) = Some dt
  /\ (forall dt', valid_datetime dt' -> key_of dt' = key_of dt -> dt' = dt).
Proof.
  intros Hv. split; [now apply canonical_key_parses|].
  intros dt' Hv' E. apply canonical_key_parses in Hv, Hv'. rewrite E in Hv'.
  congruence.
Qed.

(** X2: the naming convention is understood end to end: a source file
    named [era5_<key>_<suffix>.nc] for the canonical key of a valid
    date-time, with a suffix that holds no date or time token, and the
    output file [era5_<key>.nc] the merge writes for it, both give back
    the key, and the key gives back the date-time. *)
Theorem naming_convention_round_trip (dt : datetime) (sfx : string) :
  valid_datetime dt ->
  forallb (fun part => negb (is_date_token part || is_time_token part))
          (Py.split "_" sfx) = true ->
  let source_name := "era5_" +:+ key_of dt +:+ "_" +:+ sfx +:+ ".nc" in
  extract_datetime_from_filename source_name = key_of dt
  /\ extract_datetime_from_filename (output_name (key_of dt)) = key_of dt
  /\ parse_datetime_string (extract_datetime_from_filename source_name) = Some dt
  /\ parse_datetime_string (extract_datetime_from_filename (output_name (key_of dt)))
     = Some dt.
Proof.
  intros Hv Hsfx source_name.
  destruct (key_of_tokens dt Hv) as [Hd Ht].
  pose proof (canonical_key_parses dt Hv) as Hp.
  assert (extract_datetime_from_filename source_name = key_of dt) as E1.
  { rewrite key_of_split. rewrite <- (extract_well_named _ _ sfx Hd Ht Hsfx).
    f_equal. unfold source_name.
    rewrite key_of_split, !string_app_assoc. reflexivity. }
  assert (extract_datetime_from_filename (output_name (key_of dt)) = key_of dt) as E2.
  { rewrite key_of_split. now apply extract_output_name. }
  rewrite E1, E2. auto.
Qed.

Lemma canonical_key_round_trip_witness :
  valid_datetime Sample.midnight
  /\ parse_datetime_string (key_of Sample.midnight) = Some Sample.midnight
  /\ (forall dt', valid_datetime dt' -> key_of dt' = key_of Sample.midnight ->
                  dt' = Sample.midnight).
Proof.
  assert (valid_datetime Sample.midnight) as H
    by (unfold valid_datetime; simpl; repeat split; lia || reflexivity).
  split; [exact H|]. exact (canonical_key_round_trip Sample.midnight H).
Defined.

Lemma naming_convention_round_trip_witness :
  extract_datetime_from_filename "era5_20180201_0000_pl.nc" = "20180201_0000"
  /\ parse_datetime_string (extract_datetime_from_filename "era5_20180201_0000.nc")
     = Some Sample.midnight.
Proof.
  assert (valid_datetime Sample.midnight) as H
    by (unfold valid_datetime; simpl; repeat split; lia || reflexivity).
  destruct (naming_convention_round_trip Sample.midnight "pl" H eq_refl)
    as (H1 & _ & _ & H4).
  split; [exact H1 | exact H4].
Defined.


(** ** Bounds in the wrong order *)

Lemma dt_compare_fields (a b : datetime) :
  dt_compare a b = list_compare (dt_fields a) (dt_fields b).
Proof.
  unfold dt_compare, dt_fields. simpl.
  now destruct (year a ?= year b), (month a ?= month b), (day a ?= day b),
    (hour a ?= hour b), (minute a ?= minute b).
Qed.

Lemma list_compare_le_lt (l1 l2 l3 : list nat) :
  length l1 = length l2 -> length l2 = length l3 ->
  list_compare l1 l2 <> Gt -> list_compare l2 l3 = Lt -> list_compare l1 l3 = Lt.
Proof.
  revert l2 l3. induction l1 as [|x l1 IH]; intros [|y l2] [|z l3] H12 H23;
    simpl in *; try lia; try congruence.
  destruct (Nat.compare_spec x y), (Nat.compare_spec y z), (Nat.compare_spec x z);
    simpl; try congruence; try lia.
  apply IH; simpl in *; lia.
Qed.

(** No date-time is at once not before a start and not after an end that
    lies before that start. *)
Lemma within_reversed (start_dt end_dt file_dt : datetime) :
  dt_gt start_dt end_dt = true ->
  before_start (Some start_dt) file_dt = false ->
  after_end (Some end_dt) file_dt = false ->
  False.
Proof.
  unfold dt_gt, before_start, after_end, dt_lt, dt_gt.
  rewrite (dt_compare_antisym end_dt start_dt), !dt_compare_fields.
  intros Hse Hfs Hfe.
  assert (list_compare (dt_fields file_dt) (dt_fields start_dt) = Lt) as Hlt.
  { apply (list_compare_le_lt _ (dt_fields end_dt)); try reflexivity.
    - now destruct (list_compare (dt_fields file_dt) (dt_fields end_dt)).
    - now destruct (list_compare (dt_fields end_dt) (dt_fields start_dt)). }
  now rewrite Hlt in Hfs.
Qed.

Lemma scan_files_reversed (k : kind) (files : list nc_file) (start_dt end_dt : datetime) :
  dt_gt start_dt end_dt = true ->
  scan_files k files (Some start_dt) (Some end_dt) = [].
Proof.
  intros Hgt.
  destruct (scan_files k files (Some start_dt) (Some end_dt)) as [|x l] eqn:E;
    [reflexivity|].
  assert (In x (scan_files k files (Some start_dt) (Some end_dt))) as Hin
    by (rewrite E; now left).
  apply In_scan_files in Hin as (f & dt & _ & _ & _ & Hb & Ha).
  destruct (within_reversed _ _ _ Hgt Hb Ha).
Qed.




(** ** What grouping keeps *)

Lemma dict_get_update {V : Type} (k k' : string) (f : V -> V) (d : list (string * V)) :
  Dict.get k' (Dict.update k f d)
  = if String.eqb k k' then f <$> Dict.get k d else Dict.get k' d.
Proof.
  induction d as [|[k0 v0] d IH]; simpl.
  - now destruct (String.eqb k k').
  - destruct (String.eqb k0 k) eqn:E0; simpl.
    + apply String.eqb_eq in E0. subst k0. now destruct (String.eqb k k').
    + rewrite IH. destruct (String.eqb k k') eqn:E; [|reflexivity].
      apply String.eqb_eq in E. subst k'. now rewrite E0.
Qed.

Lemma dict_get_set {V : Type} (k k' : string) (v : V) (d : list (string * V)) :
  Dict.get k' (Dict.set k v d) = if String.eqb k k' then Some v else Dict.get k' d.
Proof.
  induction d as [|[k0 v0] d IH]; simpl; [reflexivity|].
  destruct (String.eqb k0 k) eqn:E0; simpl.
  - apply String.eqb_eq in E0. subst k0. now destruct (String.eqb k k').
  - rewrite IH. destruct (String.eqb k k') eqn:E; [|reflexivity].
    apply String.eqb_eq in E. subst k'. now rewrite E0.
Qed.

Lemma dict_get_mem {V : Type} (k : string) (d : list (string * V)) :
  Dict.mem k d = bool_decide (is_Some (Dict.get k d)).
Proof.
  induction d as [|[k0 v0] d IH]; simpl; [reflexivity|].
  destruct (String.eqb k0 k); simpl; [|exact IH].
  reflexivity.
Qed.

Lemma dict_get_In {V : Type} (k : string) (v : V) (d : list (string * V)) :
  NoDup (Dict.keys d) -> In (k, v) d -> Dict.get k d = Some v.
Proof.
  induction d as [|[k0 v0] d IH]; simpl; [tauto|].
  intros Hnd. apply NoDup_cons in Hnd as [Hk0 Hnd]. intros [[= -> ->]|Hin].
  - now rewrite String.eqb_refl.
  - destruct (String.eqb k0 k) eqn:E; [|now apply IH].
    apply String.eqb_eq in E. subst k0. exfalso.
    apply Hk0, list_elem_of_In, in_map_iff. now exists (k, v).
Qed.

Lemma get_add_file (key : string) (d : list (string * group)) (x : scanned) :
  Dict.get key (add_file d x) = add_to_group key (Dict.get key d) x.
Proof.
  destruct x as [[[k file] key'] dt]. unfold add_file, add_to_group. simpl.
  rewrite dict_get_update, dict_get_mem.
  destruct (String.eqb key' key) eqn:E.
  - apply String.eqb_eq in E. subst key'.
    destruct (Dict.get key d) as [g|] eqn:Hg; simpl.
    + now rewrite Hg.
    + now rewrite dict_get_set, String.eqb_refl.
  - destruct (bool_decide _); [reflexivity|]. now rewrite dict_get_set, E.
Qed.

Lemma get_fold_add_file (key : string) (l : list scanned) (d : list (string * group)) :
  Dict.get key (fold_left add_file l d) = fold_left (add_to_group key) l (Dict.get key d).
Proof.
  revert d. induction l as [|x l IH]; intros d; simpl; [reflexivity|].
  now rewrite IH, get_add_file.
Qed.

Lemma slot_set_slot (k k' : kind) (file : nc_file) (g : group) :
  slot k (set_slot k' file g) = if kind_eqb k' k then Some file else slot k g.
Proof. now destruct k, k'. Qed.

Lemma slot_fold_add_to_group (k : kind) (key : string) (l : list scanned)
    (o : option group) (g : group) :
  fold_left (add_to_group key) l o = Some g ->
  slot k g = match last_file k key l with
             | Some f => Some f
             | None => slot k (default empty_group o)
             end.
Proof.
  revert o. induction l as [|[[[k' file] key'] dt] l IH]; intros o; simpl.
  - now intros ->.
  - intros H. rewrite (IH _ H). destruct (last_file k key l); [reflexivity|].
    unfold add_to_group. simpl. destruct (String.eqb key' key); simpl.
    + rewrite slot_set_slot, andb_true_r. now destruct (kind_eqb k' k).
    + now rewrite andb_false_r.
Qed.

Lemma keys_fold_add_file (l : list scanned) (d : list (string * group)) :
  Dict.keys (fold_left add_file l d)
  = Dict.keys d ++ first_occurrences (map (fun x => x.1.2) l) (Dict.keys d).
Proof.
  revert d. induction l as [|x l IH]; intros d; simpl.
  - now rewrite app_nil_r.
  - rewrite IH, add_file_keys.
    assert (existsb (String.eqb x.1.2) (Dict.keys d) = Dict.mem x.1.2 d) as ->.
    { unfold Dict.mem, Dict.keys. induction d as [|[k' v] d IHd]; simpl;
        [reflexivity|]. now rewrite IHd, String.eqb_sym. }
    destruct (Dict.mem x.1.2 d); [reflexivity|]. now rewrite <- app_assoc.
Qed.

Lemma first_occurrences_complete (l seen : list string) (x : string) :
  In x l -> In x (seen ++ first_occurrences l seen).
Proof.
  revert seen. induction l as [|y l IH]; intros seen; simpl; [tauto|].
  intros [->|Hin].
  - destruct (existsb (String.eqb x) seen) eqn:E.
    + apply existsb_exists in E as (z & Hz & E). apply String.eqb_eq in E.
      subst z. apply in_or_app. now left.
    + apply in_or_app. right. now left.
  - destruct (existsb (String.eqb y) seen).
    + now apply IH.
    + specialize (IH (seen ++ [y]) Hin). rewrite <- app_assoc in IH. exact IH.
Qed.

(** X4: grouping keeps one group per key, in the order in which the keys
    are first met, and in each slot the last file of that kind and key in
    scanning order (a later file of the same kind and key replaces an
    earlier one). *)
Theorem group_files_spec (l : list scanned) :
  Dict.keys (group_files l) = first_occurrences (map (fun x => x.1.2) l) []
  /\ (forall (key : string) (g : group),
        In (key, g) (group_files l) ->
        forall k : kind, slot k g = last_file k key l)
  /\ (forall x, In x l -> exists g, In (x.1.2, g) (group_files l)).
Proof.
  split; [apply (keys_fold_add_file l [])|]. split.
  - intros key g Hin k.
    apply (dict_get_In _ _ _ (group_files_keys_NoDup l)) in Hin.
    unfold group_files in Hin. rewrite get_fold_add_file in Hin.
    rewrite (slot_fold_add_to_group k key l _ g Hin).
    destruct (last_file k key l); [reflexivity | now destruct k].
  - intros x Hx.
    assert (In x.1.2 (Dict.keys (group_files l))) as Hk.
    { unfold group_files. rewrite (keys_fold_add_file l []). simpl.
      apply (first_occurrences_complete _ []). apply in_map_iff. eauto. }
    unfold Dict.keys in Hk. apply in_map_iff in Hk as ([k g] & E & Hin).
    simpl in E. subst k. eauto.
Qed.


(** ** The run as a whole *)

Lemma merge_loop_cons (env : environment) (kg : string * group)
    (rest : list (string * group)) :
  merge_loop env (kg :: rest) blank
  = extend (merge_loop env [kg] blank) (merge_loop env rest blank).
Proof.
  destruct kg as [key g]. simpl.
  destruct (g_pl g), (g_sl g), (g_tp g); apply merge_loop_frame.
Qed.

(** What the processing of one group leaves, started from the blank
    state: source files opened, then either the write, the verification
    and the three closes, counted once, or a failure, not counted. *)
Lemma guarded_blank (env : environment) (key : string) (pl sl tp : nc_file) :
  exists (opens tl : list event),
    forallb is_source_open opens = true
    /\ trace (guarded env key pl sl tp blank) = opens ++ tl
    /\ ((exists r,
          tl = [Saved (output_name key) r;
                Opened (Output (output_name key));
                Closed (Output (output_name key));
                Closed (Source PL (path pl));
                Closed (Source SL (path sl));
                Closed (Source TP (path tp))]
          /\ processed_count (guarded env key pl sl tp blank) = 1)
        \/ (exists e,
             (tl = [Failed key e]
              \/ (exists r, tl = [Saved (output_name key) r; Failed key e]
                            \/ tl = [Saved (output_name key) r;
                                     Opened (Output (output_name key));
                                     Failed key e]))
             /\ processed_count (guarded env key pl sl tp blank) = 0)).
Proof.
  unfold guarded. rewrite process_group_unfold.
  destruct (quiet_build_record env key pl sl tp blank) as (opens & Hopens & E).
  exists opens.
  destruct (build_record env key pl sl tp blank) as [[r|x] sb]; simpl in E; subst sb;
    cbv zeta; cbn [trace output_dir processed_count blank app].
  - destruct (write_succeeds env (output_name key));
      [destruct (reopen_succeeds env (output_name key));
       [destruct (rec_data_vars r)|]|];
      cbn [trace processed_count log]; rewrite <- ?app_assoc; cbn [app];
      eexists; (split; [exact Hopens|]); (split; [reflexivity|]); eauto 10.
  - cbn [trace processed_count log]. eexists. split; [exact Hopens|].
    split; [reflexivity|]. eauto 10.
Qed.

Lemma source_open_kinds (opens : list event) :
  forallb is_source_open opens = true ->
  List.filter is_visit opens = []
  /\ List.filter is_failed opens = []
  /\ saved_names opens = [].
Proof.
  induction opens as [|e opens IH]; [easy|]. simpl.
  intros [He H]%andb_prop. destruct (IH H) as (-> & -> & E).
  unfold saved_names in E |- *. simpl. rewrite E.
  now destruct e as [| |[]| | |].
Qed.

(** The events of one turn of the loop. *)
Lemma merge_loop_one (env : environment) (key : string) (g : group) :
  let s := merge_loop env [(key, g)] blank in
  List.filter is_visit (trace s) = [visit (key, g)]
  /\ processed_count s + length (List.filter is_failed (trace s))
     = (if complete g then 1 else 0)
  /\ (saved_names (trace s) = [] \/ saved_names (trace s) = [output_name key])
  /\ processed_count s <= length (saved_names (trace s)).
Proof.
  unfold visit, complete. simpl.
  destruct (g_pl g) as [pl|]; [|now repeat split; auto].
  destruct (g_sl g) as [sl|]; [|now repeat split; auto].
  destruct (g_tp g) as [tp|]; [|now repeat split; auto].
  rewrite guarded_frame.
  destruct (guarded_blank env key pl sl tp) as (opens & tl & Hopens & Htr & Hcases).
  destruct (source_open_kinds opens Hopens) as (Hv & Hf & Hs).
  unfold extend. cbn [trace processed_count log blank app].
  rewrite Htr. unfold saved_names in *.
  cbn [List.filter is_visit is_failed omap list_omap].
  rewrite !List.filter_app, !omap_app, Hv, Hf, Hs. cbn [app].
  destruct Hcases as [(r & -> & ->)|(e & [-> | (r & [-> | ->])] & ->)]; simpl; auto.
Qed.

Lemma trace_extend (s d : state) : trace (extend s d) = trace s ++ trace d.
Proof. reflexivity. Qed.

Lemma merge_loop_accounting (env : environment) (date_groups : list (string * group)) :
  let s := merge_loop env date_groups blank in
  List.filter is_visit (trace s) = map visit date_groups
  /\ processed_count s + length (List.filter is_failed (trace s))
     = length (List.filter (fun kg => complete kg.2) date_groups)
  /\ sublist (saved_names (trace s)) (map (fun kg => output_name kg.1) date_groups)
  /\ processed_count s <= length (saved_names (trace s)).
Proof.
  induction date_groups as [|[key g] gs IH]; [now repeat split|].
  cbv zeta in *. rewrite merge_loop_cons.
  destruct (merge_loop_one env key g) as (Hv & Hc & Hs & Hp).
  destruct IH as (IHv & IHc & IHs & IHp).
  cbv zeta in *. unfold extend. cbn [trace processed_count].
  unfold saved_names in *.
  rewrite !List.filter_app, !omap_app, !length_app, Hv, IHv. cbn [List.filter map].
  split; [reflexivity|]. split; [|split].
  - cbn [snd]. destruct (complete g); cbn [length]; lia.
  - cbn [fst]. destruct Hs as [-> | ->]; cbn [app].
    + now apply sublist_cons.
    + now apply sublist_skip.
  - lia.
Qed.

Lemma In_saved_names (f : string) (evs : list event) :
  In f (saved_names evs) <-> exists r, In (Saved f r) evs.
Proof.
  unfold saved_names. rewrite <- list_elem_of_In, list_elem_of_omap. split.
  - intros (e & He & E). destruct e; try discriminate. injection E as ->.
    apply list_elem_of_In in He. eauto.
  - intros (r & Hr). exists (Saved f r). now rewrite list_elem_of_In.
Qed.

Lemma saved_as_In (f : string) (r : combined_record) (evs : list event) :
  saved_as f evs = Some r -> In (Saved f r) evs.
Proof.
  induction evs as [|e evs IH]; simpl; [discriminate|].
  destruct (saved_as f evs) as [r'|].
  - intros [= ->]. right. now apply IH.
  - destruct e; try discriminate.
    destruct (String.eqb output_file f) eqn:E; [|discriminate].
    apply String.eqb_eq in E. subst. intros [= ->]. now left.
Qed.

Lemma saved_as_Some (f : string) (r : combined_record) (evs : list event) :
  saved_as f evs = Some r -> exists r', In (Saved f r') evs.
Proof.
  intros E. exists r. now apply saved_as_In.
Qed.

(** When no name is written twice, the record last saved under a name is
    the record saved under it. *)
Lemma saved_as_unique (f : string) (r : combined_record) (evs : list event) :
  NoDup (saved_names evs) -> In (Saved f r) evs -> saved_as f evs = Some r.
Proof.
  induction evs as [|e evs IH]; [easy|]. intros Hnd [->|Hin].
  - unfold saved_names in Hnd. simpl in Hnd. apply NoDup_cons in Hnd as [Hf _].
    simpl. rewrite String.eqb_refl.
    destruct (saved_as f evs) as [r'|] eqn:E; [|reflexivity].
    exfalso. apply Hf, list_elem_of_In, In_saved_names.
    apply (saved_as_Some f r' evs E).
  - assert (NoDup (saved_names evs)) as Hnd'.
    { unfold saved_names in *. simpl in Hnd. destruct e; try exact Hnd.
      now apply NoDup_cons in Hnd as [_ Hnd]. }
    simpl. now rewrite (IH Hnd' Hin).
Qed.

Lemma source_open_other (opens : list event) (k : string) :
  forallb is_source_open opens = true ->
  List.filter (closes_output k) opens = []
  /\ List.filter (reports_failure k) opens = []
  /\ List.filter is_output_close opens = [].
Proof.
  induction opens as [|e opens IH]; [easy|]. simpl.
  intros [He H]%andb_prop. destruct (IH H) as (-> & -> & ->).
  now destruct e as [| |[]| | |].
Qed.

Lemma output_name_eqb (key k : string) :
  String.eqb (output_name key) (output_name k) = String.eqb key k.
Proof.
  destruct (String.eqb_spec key k) as [->|Hne]; [apply String.eqb_refl|].
  apply String.eqb_neq. intros E. apply Hne. now apply output_name_inj.
Qed.

(** What one turn of the loop leaves: a complete group is counted, its
    verification closed and no failure reported, or it is not counted
    and one failure is reported under its key; an incomplete group is
    only reported as skipped. *)
Lemma turn_spec (env : environment) (key : string) (g : group) :
  let s := turn env (key, g) in
  (forall k,
      length (List.filter (closes_output k) (trace s))
      + length (List.filter (reports_failure k) (trace s))
      = if String.eqb key k && complete g then 1 else 0)
  /\ processed_count s = length (List.filter is_output_close (trace s))
  /\ (if complete g
      then (processed_count s = 1 /\ List.filter is_failed (trace s) = [])
           \/ (processed_count s = 0
               /\ exists e, List.filter is_failed (trace s) = [Failed key e])
      else processed_count s = 0 /\ trace s = [Skipped key]).
Proof.
  unfold turn, complete. simpl.
  destruct (g_pl g) as [pl|];
    [|cbn [andb]; split; [intros k; now rewrite andb_false_r | now split]].
  destruct (g_sl g) as [sl|];
    [|cbn [andb]; split; [intros k; now rewrite andb_false_r | now split]].
  destruct (g_tp g) as [tp|];
    [|cbn [andb]; split; [intros k; now rewrite andb_false_r | now split]].
  rewrite guarded_frame.
  destruct (guarded_blank env key pl sl tp) as (opens & tl & Hopens & Htr & Hcases).
  destruct (source_open_kinds opens Hopens) as (_ & Hf & _).
  unfold extend. cbn [trace processed_count log blank app andb].
  rewrite Htr. cbn [List.filter is_failed is_output_close closes_output reports_failure].
  rewrite !List.filter_app, Hf.
  destruct (source_open_other opens key Hopens) as (_ & _ & ->).
  split; [intros k; destruct (source_open_other opens k Hopens) as (Hc1 & Hr1 & _)|].
  - rewrite andb_true_r, !List.filter_app, Hc1, Hr1.
    destruct Hcases as [(r & -> & _)|(e & [-> | (r & [-> | ->])] & _)];
      cbn [List.filter closes_output reports_failure app length];
      rewrite ?output_name_eqb;
      now destruct (String.eqb key k).
  - destruct Hcases as [(r & -> & ->)|(e & [-> | (r & [-> | ->])] & ->)];
      cbn [List.filter is_failed is_output_close app length];
      (split; [reflexivity|]); eauto.
Qed.

Lemma key_counted_once (gs : list (string * group)) (key : string) (g : group) :
  NoDup (map fst gs) -> In (key, g) gs ->
  list_sum (map (fun kg => if String.eqb kg.1 key && complete kg.2 then 1 else 0) gs)
  = if complete g then 1 else 0.
Proof.
  assert (forall (f : string * group -> nat) kg l,
             list_sum (map f (kg :: l)) = f kg + list_sum (map f l)) as Hcons
    by reflexivity.
  induction gs as [|[k' g'] gs IH]; [easy|]. rewrite Hcons. cbn [map fst snd].
  intros [Hk Hnd]%NoDup_cons [[= -> ->]|Hin].
  - rewrite String.eqb_refl. cbn [andb].
    assert (list_sum (map (fun kg => if String.eqb kg.1 key && complete kg.2
                                     then 1 else 0) gs) = 0) as ->.
    { clear IH Hnd. induction gs as [|[k2 g2] gs IH]; [reflexivity|].
      rewrite Hcons. cbn [map fst snd] in *.
      destruct (String.eqb_spec k2 key) as [->|Hne].
      - exfalso. apply Hk. now left.
      - cbn [andb]. rewrite IH; [reflexivity|]. intros H. apply Hk. now right. }
    destruct (complete g); reflexivity.
  - destruct (String.eqb_spec k' key) as [->|Hne].
    + exfalso. apply Hk. apply list_elem_of_In, in_map_iff. now exists (key, g).
    + cbn [andb]. now rewrite (IH Hnd Hin).
Qed.

Lemma merge_loop_turns (env : environment) (date_groups : list (string * group)) :
  let s := merge_loop env date_groups blank in
  trace s = flat_map (fun kg => trace (turn env kg)) date_groups
  /\ processed_count s
     = list_sum (map (fun kg => processed_count (turn env kg)) date_groups)
  /\ (forall k,
        length (List.filter (closes_output k) (trace s))
        + length (List.filter (reports_failure k) (trace s))
        = list_sum (map (fun kg => if String.eqb kg.1 k && complete kg.2 then 1 else 0)
                        date_groups))
  /\ processed_count s = length (List.filter is_output_close (trace s)).
Proof.
  induction date_groups as [|[key g] gs IH]; [now repeat split|].
  cbv zeta in *. rewrite merge_loop_cons. fold (turn env (key, g)).
  destruct (turn_spec env key g) as (Hk & Hc & _).
  destruct IH as (IHt & IHn & IHk & IHc).
  cbv zeta in *. unfold extend. cbn [trace processed_count flat_map].
  change (list_sum (map ?f ((key, g) :: gs))) with (f (key, g) + list_sum (map f gs)).
  rewrite <- IHt, <- IHn. split; [reflexivity|]. split; [reflexivity|]. split.
  - intros k. rewrite !List.filter_app, !length_app. cbn [fst snd].
    rewrite <- IHk, <- Hk. lia.
  - rewrite List.filter_app, length_app. lia.
Qed.

(** X5: in a run that goes through the loop, every group is reported
    once, in the order of the groups, as processed when it is complete and
    as skipped when it is not; and every complete group is either counted
    as merged or reported as failed, never both and never neither.  This
    holds group by group: the run is the turns of the groups one after
    the other, the count is the sum of what the turns count, and the
    turn of a complete group counts one and reports no failure, or
    counts nothing and reports exactly one failure, under the key of the
    group; the turn of an incomplete group only reports that it is
    skipped.  In the events of the whole run, a complete group has
    either the close of its verified output or one failure under its
    key, an incomplete group has neither, and the count is the number of
    verified outputs closed. *)
Theorem run_accounting (env : environment) (pl_dir sl_dir tp_dir : list nc_file)
    (out : gmap string combined_record) (start_time end_time : option string)
    (start_dt end_dt : option datetime) (s : state) :
  parse_bound start_time = Some start_dt ->
  parse_bound end_time = Some end_dt ->
  merge_data env pl_dir sl_dir tp_dir out start_time end_time = Completed s ->
  let date_groups := group_files (all_files pl_dir sl_dir tp_dir start_dt end_dt) in
  List.filter is_visit (trace s) = map visit date_groups
  /\ processed_count s + length (List.filter is_failed (trace s))
     = length (List.filter (fun kg => complete kg.2) date_groups)
  /\ trace s = flat_map (fun kg => trace (turn env kg)) date_groups
  /\ processed_count s
     = list_sum (map (fun kg => processed_count (turn env kg)) date_groups)
  /\ (forall kg, In kg date_groups ->
        if complete kg.2
        then (processed_count (turn env kg) = 1
              /\ List.filter is_failed (trace (turn env kg)) = [])
             \/ (processed_count (turn env kg) = 0
                 /\ exists e, List.filter is_failed (trace (turn env kg))
                              = [Failed kg.1 e])
        else processed_count (turn env kg) = 0 /\ trace (turn env kg) = [Skipped kg.1])
  /\ (forall key g, In (key, g) date_groups ->
        length (List.filter (closes_output key) (trace s))
        + length (List.filter (reports_failure key) (trace s))
        = if complete g then 1 else 0)
  /\ processed_count s = length (List.filter is_output_close (trace s)).
Proof.
  intros Hs He Hrun date_groups.
  apply merge_data_completed in Hrun as (sd & ed & Hs' & He' & Htr & _ & Hn).
  rewrite Hs in Hs'. rewrite He in He'. injection Hs' as <-. injection He' as <-.
  fold date_groups in Htr, Hn. rewrite Htr, Hn.
  destruct (merge_loop_accounting env date_groups) as (Hv & Hc & _).
  destruct (merge_loop_turns env date_groups) as (Ht & Hsum & Hk & Hcl).
  cbv zeta in *.
  split; [exact Hv|]. split; [exact Hc|]. split; [exact Ht|]. split; [exact Hsum|].
  split; [|split; [|exact Hcl]].
  - intros [key g] _. apply (turn_spec env key g).
  - intros key g Hin. rewrite Hk.
    apply key_counted_once; [|exact Hin]. apply group_files_keys_NoDup.
Qed.

Lemma run_accounting_witness :
  merge_data Sample.env_ok mixed_pl mixed_sl mixed_tp ∅ None None = Completed mixed_run
  /\ List.filter is_visit (trace mixed_run)
     = [Processing "20180201_0000"; Processing "20180201_0600"; Skipped "20180201_1200"]
  /\ processed_count mixed_run = 1
  /\ List.filter is_failed (trace mixed_run) = [Failed "20180201_0600" ValueError]
  /\ map (fun key => (length (List.filter (closes_output key) (trace mixed_run)),
                      length (List.filter (reports_failure key) (trace mixed_run))))
         ["20180201_0000"; "20180201_0600"; "20180201_1200"]
     = [(1, 0); (0, 1); (0, 0)].
Proof.
  assert (merge_data Sample.env_ok mixed_pl mixed_sl mixed_tp ∅ None None
          = Completed mixed_run) as Hrun by reflexivity.
  split; [exact Hrun|].
  destruct (run_accounting Sample.env_ok mixed_pl mixed_sl mixed_tp ∅ None None None None
              mixed_run eq_refl eq_refl Hrun) as (Hv & _ & _ & _ & _ & _ & _).
  split; [rewrite Hv; vm_compute; reflexivity|].
  repeat split; vm_compute; reflexivity.
Defined.

(** X6: a run that goes through the loop writes no name twice; at its end
    the output directory holds, under every name written, the record
    written under it, and under every other name what it held before the
    run, so that nothing is removed; and a group is counted only if its
    file was written. *)
Theorem saved_files_persist (env : environment) (pl_dir sl_dir tp_dir : list nc_file)
    (out : gmap string combined_record) (start_time end_time : option string)
    (s : state) :
  merge_data env pl_dir sl_dir tp_dir out start_time end_time = Completed s ->
  NoDup (saved_names (trace s))
  /\ (forall f r, In (Saved f r) (trace s) -> output_dir s !! f = Some r)
  /\ (forall f, ~ In f (saved_names (trace s)) -> output_dir s !! f = out !! f)
  /\ (forall f, is_Some (out !! f) -> is_Some (output_dir s !! f))
  /\ processed_count s <= length (saved_names (trace s)).
Proof.
  intros Hrun.
  apply merge_data_completed in Hrun as (sd & ed & _ & _ & Htr & Hout & Hn).
  cbv zeta in *.
  destruct (merge_loop_accounting env (group_files (all_files pl_dir sl_dir tp_dir sd ed)))
    as (_ & _ & Hsub & Hle).
  cbv zeta in *. rewrite <- Htr in Hsub, Hle, Hout. rewrite <- Hn in Hle.
  assert (NoDup (saved_names (trace s))) as Hnd.
  { eapply sublist_NoDup; [|exact Hsub].
    rewrite <- (map_map fst output_name). apply (@NoDup_fmap_2 _ _ output_name output_name_inj).
    apply group_files_keys_NoDup. }
  assert (forall f, ~ In f (saved_names (trace s)) -> output_dir s !! f = out !! f)
    as Hkeep.
  { intros f Hf. rewrite Hout, lookup_apply_saves.
    rewrite (proj2 (saved_as_None f (trace s))); [reflexivity|].
    intros r Hr. apply Hf, In_saved_names. eauto. }
  assert (forall f r, In (Saved f r) (trace s) -> output_dir s !! f = Some r) as Hsaved.
  { intros f r Hin. rewrite Hout, lookup_apply_saves.
    now rewrite (saved_as_unique f r (trace s) Hnd Hin). }
  repeat split; auto.
  intros f Hf. destruct (in_dec string_dec f (saved_names (trace s))) as [Hin|Hin].
  - apply In_saved_names in Hin as (r & Hr). rewrite (Hsaved f r Hr). eauto.
  - now rewrite (Hkeep f Hin).
Qed.

Lemma saved_files_persist_witness :
  NoDup (saved_names (trace Sample.first_run))
  /\ (forall f r, In (Saved f r) (trace Sample.first_run) ->
                  output_dir Sample.first_run !! f = Some r)
  /\ (forall f, ~ In f (saved_names (trace Sample.first_run)) ->
                output_dir Sample.first_run !! f = (∅ : gmap string combined_record) !! f)
  /\ (forall f, is_Some ((∅ : gmap string combined_record) !! f) ->
                is_Some (output_dir Sample.first_run !! f))
  /\ processed_count Sample.first_run <= length (saved_names (trace Sample.first_run)).
Proof.
  exact (saved_files_persist Sample.env_ok [Sample.pl] [Sample.sl] [Sample.tp] ∅
           None None Sample.first_run eq_refl).
Defined.


(** ** Flattening in general *)

Lemma squeeze0_times (a : ndarray) :
  Np.shape a <> [] ->
  Np.squeeze0 a = if times a =? 1 then Ok (squeezed a) else Raise ValueError.
Proof.
  unfold Np.squeeze0, times, squeezed.
  destruct (Np.shape a) as [|[|[|t]] shp]; simpl; congruence.
Qed.

Lemma nth_seq_take {A : Type} (l : list A) (d : A) (n : nat) :
  n <= length l -> map (fun j => nth j l d) (seq 0 n) = take n l.
Proof.
  revert n. induction l as [|x l IH]; intros [|n] Hn; simpl in *;
    try reflexivity; try lia.
  f_equal. rewrite <- seq_shift, map_map. apply IH. lia.
Qed.

Lemma pl_loop_app (l1 l2 : list (string * ndarray)) (acc : flat) :
  pl_loop (l1 ++ l2) acc = acc' ← pl_loop l1 acc; pl_loop l2 acc'.
Proof.
  revert acc. induction l1 as [|[var a] l1 IH]; intros acc; [reflexivity|].
  simpl. destruct (Np.ndim a =? 4); [|apply IH].
  destruct (Np.squeeze0 a) as [a'|]; [|reflexivity]. simpl.
  destruct (shape0 a') as [n|]; [|reflexivity]. simpl.
  destruct (level_loop var a' (seq 0 n) acc); [apply IH | reflexivity].
Qed.

(** The shape of a four-dimensional array. *)
Lemma shape_4d (a : ndarray) :
  Np.ndim a = 4 ->
  exists h w, Np.shape a = [times a; levels a; h; w].
Proof.
  unfold Np.ndim, times, levels.
  destruct (Np.shape a) as [|t [|n [|h [|w [|]]]]]; try discriminate. eauto.
Qed.

(** One turn of the pressure-level loop. *)
Lemma pl_loop_turn (var : string) (a : ndarray) (vars : list (string * ndarray))
    (acc : flat) :
  Np.ndim a = 4 ->
  pl_loop ((var, a) :: vars) acc =
  if negb (times a =? 1) then Raise ValueError
  else if 13 <? levels a then Raise IndexError
  else pl_loop vars (acc.1 ++ pl_slices (var, a), acc.2 ++ pl_names (var, a)).
Proof.
  intros Hdim. destruct (shape_4d a Hdim) as (h & w & Hs).
  unfold pl_slices, pl_names. cbn [fst snd]. rewrite Hdim. cbn [Nat.eqb].
  destruct (times a =? 1) eqn:Ht.
  - apply Nat.eqb_eq in Ht. rewrite Ht in Hs. cbn [negb].
    rewrite (pl_loop_step var a vars (levels a) [h; w] acc Hs eq_refl).
    assert (Np.mk_ndarray (levels a :: [h; w]) (Np.dtype a) (Np.elems a) = squeezed a)
      as ->
      by (unfold squeezed; now rewrite Hs).
    destruct (13 <? levels a) eqn:Hl.
    + apply Nat.ltb_lt in Hl.
      now rewrite (level_loop_raises var _ (levels a) [h; w])
        by (unfold squeezed; rewrite ?Hs; reflexivity || lia).
    + apply Nat.ltb_ge in Hl.
      rewrite (level_loop_ok var _ (levels a) [h; w])
        by (unfold squeezed; rewrite ?Hs; reflexivity || lia).
      cbn [mbind result_bind]. 
      rewrite <- (nth_seq_take pressure_levels 0) by (simpl; lia).
      now rewrite map_map.
  - simpl. rewrite Hdim. cbn [Nat.eqb]. rewrite squeeze0_times by (rewrite Hs; discriminate).
    now rewrite Ht.
Qed.

Lemma pl_loop_good (vars : list (string * ndarray)) (acc : flat) :
  (forall va, In va vars -> pl_var_ok va.2) ->
  pl_loop vars acc
  = Ok (acc.1 ++ flat_map pl_slices vars, acc.2 ++ flat_map pl_names vars).
Proof.
  revert acc. induction vars as [|[var a] vars IH]; intros acc Hall.
  - simpl. rewrite !app_nil_r. now destruct acc.
  - assert (forall va, In va vars -> pl_var_ok va.2) as Hall'
      by (intros; apply Hall; now right).
    destruct (Nat.eq_dec (Np.ndim a) 4) as [Hdim|Hdim].
    + destruct (Hall (var, a) (or_introl eq_refl) Hdim) as [Ht Hl].
      cbn [snd] in Ht, Hl. rewrite pl_loop_turn by exact Hdim.
      rewrite (proj2 (Nat.eqb_eq _ _) Ht), (proj2 (Nat.ltb_ge _ _) Hl). cbn [negb].
      rewrite IH by exact Hall'. cbn [fst snd flat_map]. now rewrite !app_assoc.
    + rewrite pl_loop_skip by exact Hdim. rewrite IH by exact Hall'.
      cbn [flat_map]. unfold pl_slices at 2, pl_names at 2. cbn [snd].
      now rewrite (proj2 (Nat.eqb_neq _ _) Hdim).
Qed.

(** X7: what the pressure-level loop returns or raises.  When every
    four-dimensional variable has a time axis of length one and at most
    thirteen levels, the loop returns, for each such variable in source
    order and for each of its levels, a slice and the name made of the
    variable and the pressure at that position of the fixed list (so that
    a variable with fewer than thirteen levels is given the first
    pressures of the list, whatever its own levels are).  Otherwise the
    first variable that breaks the condition decides: [ValueError] when
    its time axis is not of length one, [IndexError] when it has more than
    thirteen levels. *)
Theorem pl_loop_outcome (vars : list (string * ndarray)) (acc : flat) :
  ((forall va, In va vars -> pl_var_ok va.2) ->
   pl_loop vars acc
   = Ok (acc.1 ++ flat_map pl_slices vars, acc.2 ++ flat_map pl_names vars))
  /\ (forall (good : list (string * ndarray)) (var : string) (a : ndarray)
             (rest : list (string * ndarray)),
        vars = good ++ (var, a) :: rest ->
        (forall va, In va good -> pl_var_ok va.2) ->
        Np.ndim a = 4 ->
        (times a <> 1 -> pl_loop vars acc = Raise ValueError)
        /\ (times a = 1 -> 13 < levels a -> pl_loop vars acc = Raise IndexError)).
Proof.
  split; [apply pl_loop_good|].
  intros good var a rest -> Hgood Hdim.
  rewrite pl_loop_app, (pl_loop_good good acc Hgood). cbn [mbind result_bind].
  rewrite pl_loop_turn by exact Hdim. split.
  - intros Ht. now rewrite (proj2 (Nat.eqb_neq _ _) Ht).
  - intros Ht Hl. now rewrite (proj2 (Nat.eqb_eq _ _) Ht), (proj2 (Nat.ltb_lt _ _) Hl).
Qed.

Lemma pl_loop_outcome_witness :
  (exists slices,
      pl_loop [("t", Sample.ramp [1; 2; 1; 2] 0); ("lsm", Sample.ramp [1; 2] 9)] ([], [])
      = Ok (slices, ["t50"; "t100"]))
  /\ pl_loop [("z", Sample.ramp [1; 2; 1; 2] 0); ("t", Sample.ramp [2; 14; 1; 2] 0)]
             ([], []) = Raise ValueError
  /\ pl_loop [("z", Sample.ramp [1; 2; 1; 2] 0); ("t", Sample.ramp [1; 14; 1; 2] 0)]
             ([], []) = Raise IndexError.
Proof.
  assert (forall va, In va [("z", Sample.ramp [1; 2; 1; 2] 0)] -> pl_var_ok va.2) as Hz.
  { intros va [<-|[]] _. split; [reflexivity | simpl; unfold levels; simpl; lia]. }
  split; [|split].
  - eexists.
    apply (proj1 (pl_loop_outcome
                    [("t", Sample.ramp [1; 2; 1; 2] 0); ("lsm", Sample.ramp [1; 2] 9)]
                    ([], []))).
    intros va [<-|[<-|[]]] Hdim; [|discriminate Hdim].
    split; [reflexivity | simpl; unfold levels; simpl; lia].
  - apply (proj2 (pl_loop_outcome _ ([], [])) _ "t" (Sample.ramp [2; 14; 1; 2] 0) []
             eq_refl Hz eq_refl).
    discriminate.
  - apply (proj2 (pl_loop_outcome _ ([], [])) _ "t" (Sample.ramp [1; 14; 1; 2] 0) []
             eq_refl Hz eq_refl); [reflexivity|].
    unfold levels. simpl. lia.
Defined.

(** ** The surface loop in general *)

Lemma surface_loop_app (l1 l2 : list (string * ndarray)) (acc : flat) :
  surface_loop (l1 ++ l2) acc = acc' ← surface_loop l1 acc; surface_loop l2 acc'.
Proof.
  revert acc. induction l1 as [|[var a] l1 IH]; intros acc; [reflexivity|].
  simpl. destruct (if Np.ndim a =? 3 then Np.squeeze0 a else Ok a); [apply IH|reflexivity].
Qed.

Lemma surface_loop_turn (var : string) (a : ndarray) (vars : list (string * ndarray))
    (acc : flat) :
  surface_loop ((var, a) :: vars) acc =
  if (Np.ndim a =? 3) && negb (times a =? 1) then Raise ValueError
  else surface_loop vars (acc.1 ++ [surface_entry a], acc.2 ++ [var]).
Proof.
  simpl. unfold surface_entry. destruct (Np.ndim a =? 3) eqn:Hdim; [|reflexivity].
  rewrite squeeze0_times.
  - now destruct (times a =? 1).
  - apply Nat.eqb_eq in Hdim. unfold Np.ndim in Hdim. now destruct (Np.shape a).
Qed.

Lemma surface_loop_good (vars : list (string * ndarray)) (acc : flat) :
  (forall va, In va vars -> surface_var_ok va.2) ->
  surface_loop vars acc
  = Ok (acc.1 ++ map (fun va => surface_entry va.2) vars, acc.2 ++ Dict.keys vars).
Proof.
  revert acc. induction vars as [|[var a] vars IH]; intros acc Hall.
  - simpl. rewrite !app_nil_r. now destruct acc.
  - rewrite surface_loop_turn.
    assert ((Np.ndim a =? 3) && negb (times a =? 1) = false) as ->.
    { destruct (Np.ndim a =? 3) eqn:Hdim; [|reflexivity].
      apply Nat.eqb_eq in Hdim.
      pose proof (Hall (var, a) (or_introl eq_refl) Hdim) as Ht. cbn [snd] in Ht.
      now rewrite Ht. }
    rewrite IH by (intros; apply Hall; now right).
    cbn [fst snd map Dict.keys]. now rewrite <- !app_assoc.
Qed.

Lemma surface_loop_bad (vars : list (string * ndarray)) (acc : flat) :
  (exists va, In va vars /\ Np.ndim va.2 = 3 /\ times va.2 <> 1) ->
  surface_loop vars acc = Raise ValueError.
Proof.
  revert acc. induction vars as [|[var a] vars IH]; intros acc (va & Hin & Hdim & Ht);
    [destruct Hin|].
  rewrite surface_loop_turn.
  destruct ((Np.ndim a =? 3) && negb (times a =? 1)) eqn:E; [reflexivity|].
  apply IH. exists va. destruct Hin as [<-|Hin]; [|auto].
  cbn [snd] in Hdim, Ht.
  rewrite (proj2 (Nat.eqb_eq _ _) Hdim), (proj2 (Nat.eqb_neq _ _) Ht) in E.
  discriminate E.
Qed.

Lemma surface_loop_raises (vars : list (string * ndarray)) (acc : flat) (e : exn) :
  surface_loop vars acc = Raise e ->
  e = ValueError /\ exists va, In va vars /\ Np.ndim va.2 = 3 /\ times va.2 <> 1.
Proof.
  revert acc. induction vars as [|[var a] vars IH]; intros acc; [discriminate|].
  rewrite surface_loop_turn.
  destruct (Np.ndim a =? 3) eqn:Hdim; cbn [andb].
  - destruct (times a =? 1) eqn:Ht; cbn [negb].
    + intros (-> & va & Hin & Hva)%IH. split; [reflexivity|]. exists va.
      auto with datatypes.
    + intros [= <-]. split; [reflexivity|]. exists (var, a).
      apply Nat.eqb_eq in Hdim. apply Nat.eqb_neq in Ht. auto with datatypes.
  - intros (-> & va & Hin & Hva)%IH. split; [reflexivity|]. exists va.
    auto with datatypes.
Qed.

(** X8: what the surface loop returns or raises.  When every
    three-dimensional variable has a time axis of length one, it appends
    one entry per variable, in source order and under the variable's own
    name: the array without its first axis when it is three-dimensional,
    the array as it is otherwise.  When some three-dimensional variable
    has a time axis of another length it raises [ValueError]; and it
    raises nothing else, and for no other reason. *)
Theorem surface_loop_outcome (vars : list (string * ndarray)) (acc : flat) :
  ((forall va, In va vars -> surface_var_ok va.2) ->
   surface_loop vars acc
   = Ok (acc.1 ++ map (fun va => surface_entry va.2) vars, acc.2 ++ Dict.keys vars))
  /\ ((exists va, In va vars /\ Np.ndim va.2 = 3 /\ times va.2 <> 1) ->
      surface_loop vars acc = Raise ValueError)
  /\ (forall e, surface_loop vars acc = Raise e ->
                e = ValueError
                /\ exists va, In va vars /\ Np.ndim va.2 = 3 /\ times va.2 <> 1).
Proof.
  split; [apply surface_loop_good|].
  split; [apply surface_loop_bad | apply surface_loop_raises].
Qed.

Lemma surface_loop_outcome_witness :
  surface_loop [("t2m", Sample.ramp [1; 1; 2] 0); ("sp", Sample.ramp [1; 2] 7)] ([], [])
  = Ok ([squeezed (Sample.ramp [1; 1; 2] 0); Sample.ramp [1; 2] 7], ["t2m"; "sp"])
  /\ surface_loop [("sp", Sample.ramp [1; 2] 7); ("t2m", Sample.ramp [2; 1; 2] 0)] ([], [])
     = Raise ValueError.
Proof.
  split.
  - apply (proj1 (surface_loop_outcome
                    [("t2m", Sample.ramp [1; 1; 2] 0); ("sp", Sample.ramp [1; 2] 7)]
                    ([], []))).
    intros va [<-|[<-|[]]] Hdim; [reflexivity | discriminate Hdim].
  - apply (proj1 (proj2 (surface_loop_outcome _ ([], [])))).
    exists ("t2m", Sample.ramp [2; 1; 2] 0). split; [right; now left|].
    split; [reflexivity | discriminate].
Defined.


(** ** Building the record in general *)

(** [build_record] on three readable files. *)
Lemma build_record_readable (env : environment) (key : string) (pl sl tp : nc_file)
    (ds_pl ds_sl ds_tp : dataset) (acc : flat) (s : state) :
  payload pl = Some ds_pl ->
  payload sl = Some ds_sl ->
  payload tp = Some ds_tp ->
  flatten ds_pl ds_sl ds_tp = Ok acc ->
  build_record env key pl sl tp s
  = (assemble env key ds_pl ds_sl ds_tp acc, opened_all pl sl tp s).
Proof.
  intros Hpl Hsl Htp Hflat. unfold flatten in Hflat.
  unfold build_record, mbind at 1 2 3 4 5 6 7 8 9 10, M_bind, open_dataset, lift.
  rewrite Hpl, Hsl, Htp.
  destruct (pl_loop (data_vars ds_pl) ([], [])) as [acc1|]; [|discriminate].
  simpl in Hflat.
  destruct (surface_loop (data_vars ds_sl) acc1) as [acc2|]; [|discriminate].
  simpl in Hflat. rewrite Hflat. unfold assemble, opened_all.
  destruct (Np.stack (numpy env) acc.1) as [merged|]; [|reflexivity].
  cbn [mbind result_bind].
  destruct (coordinate ds_pl "latitude" (latitude ds_pl)) as [lat|]; [|reflexivity].
  destruct (coordinate ds_pl "longitude" (longitude ds_pl)) as [lon|]; [|reflexivity].
  cbn [mbind result_bind].
  destruct (fill_data_vars acc.2 0 merged []) as [d|]; reflexivity.
Qed.

(** When [np.stack] refuses the shapes of its argument. *)
Lemma stack_raises (c : Np.casting) (arrays : list ndarray) :
  (arrays = []
   \/ exists a b, In a arrays /\ In b arrays /\ Np.shape a <> Np.shape b)
  <-> Np.stack c arrays = Raise ValueError.
Proof.
  unfold Np.stack. destruct arrays as [|a0 arrays]; [intuition|].
  destruct (forallb _ (a0 :: arrays)) eqn:E; split.
  - intros [|(a & b & Ha & Hb & Hne)]; [discriminate|]. exfalso. apply Hne.
    rewrite forallb_forall in E.
    apply E, bool_decide_eq_true in Ha. apply E, bool_decide_eq_true in Hb. congruence.
  - destruct (Np.common_dtype c (a0 :: arrays)); discriminate.
  - reflexivity.
  - intros _. right.
    assert (exists b, In b (a0 :: arrays) /\ Np.shape b <> Np.shape a0) as (b & Hb & Hne).
    { induction (a0 :: arrays) as [|b l IH]; [discriminate|]. simpl in E.
      destruct (bool_decide (Np.shape b = Np.shape a0)) eqn:Eb.
      - destruct (IH E) as (b' & Hb' & Hne). exists b'. auto with datatypes.
      - apply bool_decide_eq_false in Eb. exists b. auto with datatypes. }
    exists b, a0. auto with datatypes.
Qed.

(** X9: [np.stack] raises [ValueError] for an empty list and for arrays
    of different shapes, and for nothing else.  A group of three readable
    files whose flattened
    arrays are not all of one shape, or which yields no array at all,
    fails with [ValueError] once the three files have been opened:
    nothing is written, the group is not counted, and none of the three
    datasets is closed. *)
Theorem mixed_shapes_fail (env : environment) (key : string) (pl sl tp : nc_file)
    (ds_pl ds_sl ds_tp : dataset) (all_data : list ndarray) (var_names : list string)
    (s : state) :
  payload pl = Some ds_pl ->
  payload sl = Some ds_sl ->
  payload tp = Some ds_tp ->
  flatten ds_pl ds_sl ds_tp = Ok (all_data, var_names) ->
  (all_data = []
   \/ exists a b, In a all_data /\ In b all_data /\ Np.shape a <> Np.shape b) ->
  process_group env key pl sl tp s = (Raise ValueError, opened_all pl sl tp s)
  /\ guarded env key pl sl tp s
     = log (Failed key ValueError) (opened_all pl sl tp s)
  /\ output_dir (guarded env key pl sl tp s) = output_dir s
  /\ processed_count (guarded env key pl sl tp s) = processed_count s.
Proof.
  intros Hpl Hsl Htp Hflat Hbad.
  assert (process_group env key pl sl tp s = (Raise ValueError, opened_all pl sl tp s))
    as Hrun.
  { rewrite process_group_unfold.
    rewrite (build_record_readable env key pl sl tp ds_pl ds_sl ds_tp _ s
               Hpl Hsl Htp Hflat).
    unfold assemble. cbn [fst].
    now rewrite (proj1 (stack_raises (numpy env) all_data) Hbad). }
  split; [exact Hrun|]. unfold guarded. rewrite Hrun. now repeat split.
Qed.

Lemma mixed_shapes_fail_witness :
  guarded Sample.env_ok Sample.key Sample.pl sl_other_grid Sample.tp blank
  = log (Failed Sample.key ValueError)
        (opened_all Sample.pl sl_other_grid Sample.tp blank).
Proof.
  refine (proj1 (proj2 (mixed_shapes_fail Sample.env_ok Sample.key Sample.pl
                          sl_other_grid Sample.tp _ _ _
                          (flat_map pl_slices (data_vars Sample.pl_ds)
                           ++ [Sample.ramp [2; 2] 3000; Sample.ramp [1; 2] 4000])
                          _ blank eq_refl eq_refl eq_refl _ _))).
  - vm_compute. reflexivity.
  - right. exists (Sample.ramp [2; 2] 3000), (Sample.ramp [1; 2] 4000).
    rewrite !in_app_iff. simpl. split; [auto|]. split; [auto|]. discriminate.
Defined.

(** What [ds.latitude] and [ds.longitude] find. *)
Lemma coordinate_cases (ds : dataset) (name : string) (stored : option ndarray) :
  (forall a, stored = Some a -> coordinate ds name stored = Ok a)
  /\ (forall a, stored = None -> Dict.get name (data_vars ds) = Some a ->
                coordinate ds name stored = Ok a)
  /\ (forall n, stored = None -> Dict.get name (data_vars ds) = None ->
                Dict.get name (dim_sizes ds) = Some n ->
                coordinate ds name stored = Ok (Np.arange n))
  /\ (lacks ds name stored <-> coordinate ds name stored = Raise AttributeError).
Proof.
  unfold coordinate, lacks. repeat split.
  - now intros a ->.
  - now intros a -> ->.
  - now intros n -> -> ->.
  - now intros (-> & -> & ->).
  - destruct stored; [discriminate|].
    destruct (Dict.get name (data_vars ds)); [discriminate|].
    now destruct (Dict.get name (dim_sizes ds)).
  - destruct stored; [discriminate|].
    now destruct (Dict.get name (data_vars ds)).
  - destruct stored; [discriminate|].
    destruct (Dict.get name (data_vars ds)); [discriminate|].
    now destruct (Dict.get name (dim_sizes ds)).
Qed.

Lemma fill_data_vars_raises (names : list string) (i : nat) (merged : ndarray)
    (d : list (string * ndarray)) (e : exn) :
  fill_data_vars names i merged d = Raise e -> e = IndexError.
Proof.
  revert i d. induction names as [|n names IH]; intros i d; simpl; [discriminate|].
  unfold Np.index0. destruct (Np.shape merged) as [|m shp]; simpl; [congruence|].
  destruct (i <? m); simpl; [apply IH | congruence].
Qed.

(** X10: where the grid coordinates of the record come from, for three
    readable files whose arrays have been flattened and stacked.  They
    are read from the pressure-level file alone: a stored coordinate
    variable gives its values; without one, a dimension of that name
    gives its positions 0, 1, ... (the group is merged all the same); and
    the group fails with [AttributeError], the three files open and
    nothing written, exactly when the pressure-level file has no
    variable and no dimension called latitude, or none called
    longitude. *)
Theorem coordinates_from_pressure_file (env : environment) (key : string)
    (pl sl tp : nc_file) (ds_pl ds_sl ds_tp : dataset) (acc : flat) (merged : ndarray)
    (s : state) :
  payload pl = Some ds_pl ->
  payload sl = Some ds_sl ->
  payload tp = Some ds_tp ->
  flatten ds_pl ds_sl ds_tp = Ok acc ->
  Np.stack (numpy env) acc.1 = Ok merged ->
  (lacks ds_pl "latitude" (latitude ds_pl) \/ lacks ds_pl "longitude" (longitude ds_pl)
   <-> build_record env key pl sl tp s = (Raise AttributeError, opened_all pl sl tp s))
  /\ (forall (r : combined_record) (s' : state),
        build_record env key pl sl tp s = (Ok r, s') ->
        (forall a, latitude ds_pl = Some a -> rec_latitude r = a)
        /\ (forall a, longitude ds_pl = Some a -> rec_longitude r = a)
        /\ (forall n, latitude ds_pl = None ->
                      Dict.get "latitude" (data_vars ds_pl) = None ->
                      Dict.get "latitude" (dim_sizes ds_pl) = Some n ->
                      rec_latitude r = Np.arange n)
        /\ (forall n, longitude ds_pl = None ->
                      Dict.get "longitude" (data_vars ds_pl) = None ->
                      Dict.get "longitude" (dim_sizes ds_pl) = Some n ->
                      rec_longitude r = Np.arange n)).
Proof.
  intros Hpl Hsl Htp Hflat Hstack.
  rewrite (build_record_readable env key pl sl tp ds_pl ds_sl ds_tp acc s
             Hpl Hsl Htp Hflat).
  unfold assemble. rewrite Hstack. cbn [mbind result_bind].
  destruct (coordinate_cases ds_pl "latitude" (latitude ds_pl))
    as (La & _ & Lc & Ld).
  destruct (coordinate_cases ds_pl "longitude" (longitude ds_pl))
    as (Oa & _ & Oc & Od).
  destruct (coordinate ds_pl "latitude" (latitude ds_pl)) as [lat|e1] eqn:E1.
  - destruct (coordinate ds_pl "longitude" (longitude ds_pl)) as [lon|e2] eqn:E2;
      cbn [mbind result_bind].
    + destruct (fill_data_vars acc.2 0 merged []) as [d|e3] eqn:E3;
        cbn [mbind result_bind].
      * unfold make_dataset. split.
        -- split.
           ++ intros [H|H]; [apply Ld in H | apply Od in H]; discriminate H.
           ++ destruct (dataset_accepted env d lat lon); discriminate.
        -- intros r s'. destruct (dataset_accepted env d lat lon); [|discriminate].
           intros [= <- _]. cbn [rec_latitude rec_longitude].
           repeat split.
           ++ intros a Ha. specialize (La a Ha). congruence.
           ++ intros a Ha. specialize (Oa a Ha). congruence.
           ++ intros n H1 H2 H3. specialize (Lc n H1 H2 H3). congruence.
           ++ intros n H1 H2 H3. specialize (Oc n H1 H2 H3). congruence.
      * split; [|discriminate]. split.
        -- intros [H|H]; [apply Ld in H | apply Od in H]; discriminate H.
        -- intros [= ->]. apply fill_data_vars_raises in E3. discriminate E3.
    + assert (e2 = AttributeError) as ->.
      { unfold coordinate in E2. destruct (longitude ds_pl); [discriminate|].
        destruct (Dict.get "longitude" (data_vars ds_pl)); [discriminate|].
        destruct (Dict.get "longitude" (dim_sizes ds_pl)); congruence. }
      split; [|discriminate]. split; [reflexivity|]. intros _. right. now apply Od.
  - assert (e1 = AttributeError) as ->.
    { unfold coordinate in E1. destruct (latitude ds_pl); [discriminate|].
      destruct (Dict.get "latitude" (data_vars ds_pl)); [discriminate|].
      destruct (Dict.get "latitude" (dim_sizes ds_pl)); congruence. }
    cbn [mbind result_bind].
    split; [|discriminate]. split; [reflexivity|]. intros _. left. now apply Ld.
Qed.

Lemma coordinates_from_pressure_file_witness :
  build_record Sample.env_ok Sample.key pl_other_names Sample.sl Sample.tp blank
  = (Raise AttributeError, opened_all pl_other_names Sample.sl Sample.tp blank)
  /\ exists r s',
      build_record Sample.env_ok Sample.key pl_default_index Sample.sl Sample.tp blank
      = (Ok r, s')
      /\ rec_latitude r = Np.arange 1
      /\ rec_longitude r = Sample.lon.
Proof.
  split.
  - refine (proj1 (proj1 (coordinates_from_pressure_file Sample.env_ok Sample.key
                            pl_other_names Sample.sl Sample.tp _ _ _ (_, _) _ blank
                            eq_refl eq_refl eq_refl _ _)) (or_introl _)).
    + vm_compute. reflexivity.
    + vm_compute. reflexivity.
    + now repeat split.
  - destruct (build_record Sample.env_ok Sample.key pl_default_index Sample.sl
                           Sample.tp blank) as [[r|e] s'] eqn:E;
      [|vm_compute in E; discriminate E].
    exists r, s'. split; [reflexivity|].
    assert (exists acc merged,
               flatten (mk_dataset (data_vars Sample.pl_ds) None (Some Sample.lon)
                                   Sample.grid) Sample.sl_ds Sample.tp_ds = Ok acc
               /\ Np.stack (numpy Sample.env_ok) acc.1 = Ok merged)
      as (acc & merged & Hflat & Hstack).
    { eexists (_, _), _. split; vm_compute; reflexivity. }
    destruct (proj2 (coordinates_from_pressure_file Sample.env_ok Sample.key
                       pl_default_index Sample.sl Sample.tp _ _ _ acc merged blank
                       eq_refl eq_refl eq_refl Hflat Hstack) r s' E)
      as (_ & Hlon & Hlat & _).
    split; [apply Hlat; reflexivity | apply Hlon; reflexivity].
Defined.

(** ** Names that occur twice *)

Lemma index0_wf (a b : ndarray) (i : nat) :
  Np.wf a -> Np.index0 a i = Ok b -> Np.wf b.
Proof.
  unfold Np.wf, Np.index0. destruct (Np.shape a) as [|n shp]; [discriminate|].
  destruct (i <? n) eqn:Hi; [|discriminate]. apply Nat.ltb_lt in Hi.
  intros Hlen [= <-]. simpl in *. rewrite length_take, length_drop, Hlen. nia.
Qed.

Lemma squeeze0_wf (a b : ndarray) : Np.wf a -> Np.squeeze0 a = Ok b -> Np.wf b.
Proof.
  unfold Np.wf, Np.squeeze0. destruct (Np.shape a) as [|[|[|n]] shp]; try discriminate.
  intros Hlen [= <-]. simpl in *. lia.
Qed.

Lemma level_loop_flat_ok (var : string) (data : ndarray) (levels : list nat)
    (acc acc' : flat) :
  Np.wf data -> flat_ok acc -> level_loop var data levels acc = Ok acc' -> flat_ok acc'.
Proof.
  intros Hwf. revert acc. induction levels as [|i levels IH]; intros acc Hacc; simpl.
  - now intros [= <-].
  - destruct (Np.index0 data i) as [b|] eqn:Hb; [|discriminate]. simpl.
    destruct (pressure_at i) as [p|]; [|discriminate]. simpl.
    apply IH. destruct Hacc as [Hlen Hall]. split; simpl.
    + rewrite !length_app, Hlen. reflexivity.
    + apply Forall_app. split; [exact Hall|]. constructor; [|constructor].
      eapply index0_wf; eauto.
Qed.

Lemma pl_loop_flat_ok (vars : list (string * ndarray)) (acc acc' : flat) :
  (forall va, In va vars -> Np.wf va.2) ->
  flat_ok acc -> pl_loop vars acc = Ok acc' -> flat_ok acc'.
Proof.
  revert acc. induction vars as [|[var a] vars IH]; intros acc Hwf Hacc; simpl.
  - now intros [= <-].
  - assert (forall va, In va vars -> Np.wf va.2) as Hwf' by (intros; apply Hwf; now right).
    destruct (Np.ndim a =? 4); [|now apply IH].
    destruct (Np.squeeze0 a) as [a'|] eqn:Ha; [|discriminate]. simpl.
    destruct (shape0 a') as [n|]; [|discriminate]. simpl.
    destruct (level_loop var a' (seq 0 n) acc) as [acc1|] eqn:E; [|discriminate]. simpl.
    apply IH; [exact Hwf'|]. eapply level_loop_flat_ok; [|exact Hacc|exact E].
    eapply squeeze0_wf; [|exact Ha]. apply (Hwf (var, a)). now left.
Qed.

Lemma surface_loop_flat_ok (vars : list (string * ndarray)) (acc acc' : flat) :
  (forall va, In va vars -> Np.wf va.2) ->
  flat_ok acc -> surface_loop vars acc = Ok acc' -> flat_ok acc'.
Proof.
  revert acc. induction vars as [|[var a] vars IH]; intros acc Hwf Hacc; simpl.
  - now intros [= <-].
  - assert (Np.wf a) as Ha by (apply (Hwf (var, a)); now left).
    destruct (if Np.ndim a =? 3 then Np.squeeze0 a else Ok a) as [a'|] eqn:E;
      [|discriminate]. simpl.
    apply IH; [intros; apply Hwf; now right|].
    destruct Hacc as [Hlen Hall]. split; simpl.
    + rewrite !length_app, Hlen. reflexivity.
    + apply Forall_app. split; [exact Hall|]. constructor; [|constructor].
      destruct (Np.ndim a =? 3); [eapply squeeze0_wf; eauto | congruence].
Qed.

Lemma flatten_flat_ok (ds_pl ds_sl ds_tp : dataset) (acc : flat) :
  dataset_wf ds_pl -> dataset_wf ds_sl -> dataset_wf ds_tp ->
  flatten ds_pl ds_sl ds_tp = Ok acc -> flat_ok acc.
Proof.
  intros Hpl Hsl Htp. unfold flatten.
  destruct (pl_loop (data_vars ds_pl) ([], [])) as [acc1|] eqn:E1; [|discriminate].
  simpl.
  destruct (surface_loop (data_vars ds_sl) acc1) as [acc2|] eqn:E2; [|discriminate].
  simpl. intros E3.
  eapply surface_loop_flat_ok; [exact Htp| |exact E3].
  eapply surface_loop_flat_ok; [exact Hsl| |exact E2].
  eapply pl_loop_flat_ok; [exact Hpl| |exact E1]. split; [reflexivity | constructor].
Qed.

Lemma dict_keys_set {V : Type} (k : string) (v : V) (d : list (string * V)) :
  Dict.keys (Dict.set k v d)
  = if Dict.mem k d then Dict.keys d else Dict.keys d ++ [k].
Proof.
  induction d as [|[k' v'] d IH]; simpl; [reflexivity|].
  destruct (String.eqb k' k); simpl; [reflexivity|]. rewrite IH.
  now destruct (Dict.mem k d).
Qed.

Lemma existsb_eqb_mem {V : Type} (k : string) (d : list (string * V)) :
  existsb (String.eqb k) (Dict.keys d) = Dict.mem k d.
Proof.
  unfold Dict.mem, Dict.keys. induction d as [|[k' v] d IH]; simpl; [reflexivity|].
  now rewrite IH, String.eqb_sym.
Qed.

Lemma keys_fold_set (names : list string) (arrays : list ndarray)
    (d : list (string * ndarray)) :
  length names = length arrays ->
  Dict.keys (fold_left (fun d na => Dict.set na.1 na.2 d) (combine names arrays) d)
  = Dict.keys d ++ first_occurrences names (Dict.keys d).
Proof.
  revert arrays d. induction names as [|n names IH]; intros [|a arrays] d Hlen;
    try discriminate; simpl.
  - now rewrite app_nil_r.
  - rewrite IH by (simpl in Hlen; lia). rewrite dict_keys_set, existsb_eqb_mem.
    destruct (Dict.mem n d); [reflexivity|]. now rewrite <- app_assoc.
Qed.

Lemma get_fold_set (name : string) (names : list string) (arrays : list ndarray)
    (d : list (string * ndarray)) :
  Dict.get name (fold_left (fun d na => Dict.set na.1 na.2 d) (combine names arrays) d)
  = match last_named name names arrays with
    | Some a => Some a
    | None => Dict.get name d
    end.
Proof.
  revert arrays d. induction names as [|n names IH]; intros [|a arrays] d; simpl;
    try reflexivity.
  rewrite IH. destruct (last_named name names arrays); [reflexivity|].
  rewrite dict_get_set. now destruct (String.eqb n name).
Qed.

Lemma first_occurrences_length (l seen : list string) :
  length (first_occurrences l seen) <= length l
  /\ (length (first_occurrences l seen) = length l
      <-> NoDup l /\ forall x, In x l -> ~ In x seen).
Proof.
  revert seen. induction l as [|x l IH]; intros seen; simpl.
  - split; [lia|]. split; [|reflexivity]. intros _. split; [constructor | tauto].
  - destruct (existsb (String.eqb x) seen) eqn:E.
    + destruct (IH seen) as [Hle _]. split; [lia|]. split; [lia|].
      intros [_ Hx]. exfalso. apply (Hx x); [now left|].
      apply existsb_exists in E as (y & Hy & E). apply String.eqb_eq in E. now subst.
    + destruct (IH (seen ++ [x])) as [Hle Hiff]. simpl. split; [lia|].
      assert (~ In x seen) as Hx.
      { intros Hin. apply not_true_iff_false in E. apply E, existsb_exists.
        exists x. split; [exact Hin | apply String.eqb_refl]. }
      split.
      * intros [= Hlen]. apply Hiff in Hlen as [Hnd Hfresh]. split.
        -- apply NoDup_cons. split; [|exact Hnd].
           intros Hin%list_elem_of_In. apply (Hfresh x Hin), in_or_app. right. now left.
        -- intros y [<-|Hy]; [exact Hx|]. intros Hin. apply (Hfresh y Hy), in_or_app.
           now left.
      * intros [[Hxl Hnd]%NoDup_cons Hfresh]. f_equal. apply Hiff. split; [exact Hnd|].
        intros y Hy [Hin|[<-|[]]]%in_app_iff.
        -- apply (Hfresh y); [now right | exact Hin].
        -- apply Hxl, list_elem_of_In, Hy.
Qed.

Lemma last_named_map (f : ndarray -> ndarray) (name : string)
    (names : list string) (arrays : list ndarray) :
  last_named name names (map f arrays) = f <$> last_named name names arrays.
Proof.
  revert arrays. induction names as [|n names IH]; intros [|a arrays]; simpl;
    try reflexivity.
  rewrite IH. destruct (last_named name names arrays); [reflexivity|].
  now destruct (String.eqb n name).
Qed.

(** X11: the variables of the record, when the three files are readable
    and their arrays well formed.  The record has one variable per
    distinct flat name, in the order in which the names first occur; a
    name that occurs more than once keeps its first place and holds the
    array that was flattened last under it, converted to the element
    type [np.stack] gave the stack; and the attribute [total_variables]
    counts the flat names with their repetitions, so that it equals the
    number of variables only when the names are pairwise distinct. *)
Theorem duplicate_names_last_wins (env : environment) (key : string)
    (pl sl tp : nc_file) (ds_pl ds_sl ds_tp : dataset)
    (all_data : list ndarray) (var_names : list string)
    (r : combined_record) (s s' : state) :
  payload pl = Some ds_pl ->
  payload sl = Some ds_sl ->
  payload tp = Some ds_tp ->
  dataset_wf ds_pl -> dataset_wf ds_sl -> dataset_wf ds_tp ->
  flatten ds_pl ds_sl ds_tp = Ok (all_data, var_names) ->
  build_record env key pl sl tp s = (Ok r, s') ->
  Dict.keys (rec_data_vars r) = first_occurrences var_names []
  /\ (exists d, Np.common_dtype (numpy env) all_data = Some d
                /\ forall name,
                     Dict.get name (rec_data_vars r)
                     = Np.astype (numpy env) d <$> last_named name var_names all_data)
  /\ attr_total_variables r = length var_names
  /\ length (rec_data_vars r) <= attr_total_variables r
  /\ (length (rec_data_vars r) = attr_total_variables r <-> NoDup var_names).
Proof.
  intros Hpl Hsl Htp Wpl Wsl Wtp Hflat.
  destruct (flatten_flat_ok ds_pl ds_sl ds_tp _ Wpl Wsl Wtp Hflat) as [Hlen Hwf].
  cbn [fst snd] in Hlen, Hwf.
  rewrite (build_record_readable env key pl sl tp ds_pl ds_sl ds_tp _ s
             Hpl Hsl Htp Hflat).
  unfold assemble. cbn [fst snd].
  destruct (Np.stack (numpy env) all_data) as [merged|] eqn:Hstack; [|discriminate].
  cbn [mbind result_bind].
  destruct (coordinate ds_pl "latitude" (latitude ds_pl)) as [lat|]; [|discriminate].
  destruct (coordinate ds_pl "longitude" (longitude ds_pl)) as [lon|]; [|discriminate].
  cbn [mbind result_bind].
  assert (exists d, Np.common_dtype (numpy env) all_data = Some d
                    /\ fill_data_vars var_names 0 merged []
                       = Ok (fold_left (fun d na => Dict.set na.1 na.2 d)
                               (combine var_names
                                        (map (Np.astype (numpy env) d) all_data)) []))
    as (d & Hd & ->).
  { unfold Np.stack in Hstack. destruct all_data as [|a0 arrays]; [discriminate|].
    destruct (forallb _ (a0 :: arrays)) eqn:E; [|discriminate].
    destruct (Np.common_dtype (numpy env) (a0 :: arrays)) as [d|]; [|discriminate].
    injection Hstack as <-. exists d. split; [reflexivity|].
    apply fill_data_vars_fold; [now rewrite length_map|].
    intros j a (b & -> & Hj)%list_lookup_fmap_Some.
    refine (index0_stack (numpy env) (Np.shape a0) d (a0 :: arrays) j b _ Hj).
    intros b' Hb. split.
    - rewrite forallb_forall in E. now apply E, bool_decide_eq_true in Hb.
    - rewrite Forall_forall in Hwf. apply Hwf, list_elem_of_In, Hb. }
  cbn [mbind result_bind]. unfold make_dataset.
  destruct (dataset_accepted env _ lat lon); [|discriminate].
  intros [= <- _]. cbn [rec_data_vars attr_total_variables].
  assert (length var_names = length (map (Np.astype (numpy env) d) all_data)) as Hlen'
    by now rewrite length_map.
  pose proof (keys_fold_set var_names _ [] Hlen') as Hkeys.
  cbn [Dict.keys map app] in Hkeys.
  split; [exact Hkeys|]. split.
  { exists d. split; [exact Hd|]. intros name.
    rewrite get_fold_set, last_named_map.
    now destruct (last_named name var_names all_data). }
  split; [reflexivity|].
  assert (length (fold_left (fun d na => Dict.set na.1 na.2 d)
                            (combine var_names (map (Np.astype (numpy env) d) all_data))
                            [])
          = length (first_occurrences var_names [])) as ->.
  { rewrite <- Hkeys. unfold Dict.keys. now rewrite length_map. }
  destruct (first_occurrences_length var_names []) as [Hle Hiff].
  split; [exact Hle|]. rewrite Hiff. split; [tauto|]. intros Hnd. split; [exact Hnd|].
  intros x _ [].
Qed.

Lemma duplicate_names_last_wins_witness :
  exists r : combined_record,
    (build_record Sample.env_ok Sample.key Sample.pl Sample.sl_named_tp Sample.tp
                  blank).1 = Ok r
    /\ Dict.get "tp" (rec_data_vars r) = Some (Sample.ramp [1; 2] 4000)
    /\ attr_total_variables r = 28
    /\ length (rec_data_vars r) <= attr_total_variables r.
Proof.
  destruct (build_record Sample.env_ok Sample.key Sample.pl Sample.sl_named_tp
                         Sample.tp blank) as [[r|e] s'] eqn:E;
    [|vm_compute in E; discriminate E].
  exists r. split; [reflexivity|].
  assert (flatten Sample.pl_ds
                  (mk_dataset [("tp", Sample.ramp [1; 1; 2] 3000)]
                              (Some Sample.lat) (Some Sample.lon) Sample.grid)
                  Sample.tp_ds
          = Ok (flat_map pl_slices (data_vars Sample.pl_ds)
                ++ [Sample.ramp [1; 2] 3000; Sample.ramp [1; 2] 4000],
                flat_map pl_names (data_vars Sample.pl_ds) ++ ["tp"; "tp"])) as Hflat
    by (vm_compute; reflexivity).
  assert (dataset_wf Sample.pl_ds) as W1 by (intros va [<-|[<-|[]]]; reflexivity).
  assert (dataset_wf (mk_dataset [("tp", Sample.ramp [1; 1; 2] 3000)]
                                 (Some Sample.lat) (Some Sample.lon) Sample.grid))
    as W2
    by (intros va [<-|[]]; reflexivity).
  assert (dataset_wf Sample.tp_ds) as W3 by (intros va [<-|[]]; reflexivity).
  destruct (duplicate_names_last_wins Sample.env_ok Sample.key Sample.pl
              Sample.sl_named_tp Sample.tp _ _ _ _ _ r blank s'
              eq_refl eq_refl eq_refl W1 W2 W3 Hflat E)
    as (_ & (d & Hd & Hget) & Htotal & Hle & _).
  assert (d = "float32") as -> by (vm_compute in Hd; congruence).
  split; [rewrite Hget; vm_compute; reflexivity|].
  split; [rewrite Htotal; vm_compute; reflexivity | exact Hle].
Defined.


(** ** Inspection before the merge *)

Lemma inspect_first_run (k : kind) (files : list nc_file) (s : state) :
  inspect_first k files s
  = match head_error files with
    | Some e => (Raise e, s)
    | None => (Ok tt, mk_state (trace s ++ inspection k files) (output_dir s)
                               (processed_count s))
    end.
Proof.
  destruct files as [|file files]; simpl.
  - unfold mret, M_ret. destruct s. simpl. now rewrite app_nil_r.
  - unfold mbind, M_bind, open_dataset, close, emit, log.
    destruct (payload file); [|reflexivity]. simpl. now rewrite <- app_assoc.
Qed.

Lemma check_data_info_run (pl_dir sl_dir tp_dir : list nc_file) (s : state) :
  let pl_files := sorted (glob_nc pl_dir) in
  let sl_files := sorted (glob_nc sl_dir) in
  let tp_files := sorted (glob_nc tp_dir) in
  let seen evs := mk_state (trace s ++ evs) (output_dir s) (processed_count s) in
  check_data_info pl_dir sl_dir tp_dir s
  = match head_error pl_files with
    | Some e => (Raise e, seen [])
    | None =>
        match head_error sl_files with
        | Some e => (Raise e, seen (inspection PL pl_files))
        | None =>
            match head_error tp_files with
            | Some e =>
                (Raise e, seen (inspection PL pl_files ++ inspection SL sl_files))
            | None =>
                (Ok (pl_files, sl_files, tp_files),
                 seen (inspection PL pl_files ++ inspection SL sl_files
                       ++ inspection TP tp_files))
            end
        end
    end.
Proof.
  cbv zeta. unfold check_data_info. cbv zeta.
  unfold mbind at 1 2 3, M_bind. rewrite inspect_first_run.
  destruct (head_error (sorted (glob_nc pl_dir))).
  { destruct s. simpl. now rewrite app_nil_r. }
  rewrite inspect_first_run. cbn [trace output_dir processed_count].
  destruct (head_error (sorted (glob_nc sl_dir))); [reflexivity|].
  rewrite inspect_first_run. cbn [trace output_dir processed_count].
  destruct (head_error (sorted (glob_nc tp_dir))).
  - now rewrite <- app_assoc.
  - unfold mret, M_ret. now rewrite <- !app_assoc.
Qed.

Lemma handle_eqb_refl (h : handle) : handle_eqb h h = true.
Proof.
  destruct h as [k n|n]; simpl; rewrite String.eqb_refl; [now destruct k | reflexivity].
Qed.

Lemma still_open_inspection (k : kind) (files : list nc_file) (open : list handle) :
  fold_left (fun open e => match e with
                           | Opened h => open ++ [h]
                           | Closed h => remove_first h open
                           | _ => open
                           end) (inspection k files) open
  = match files with
    | file :: _ => remove_first (Source k (path file)) (open ++ [Source k (path file)])
    | [] => open
    end.
Proof. now destruct files. Qed.

Lemma still_open_inspection_nil (k : kind) (files : list nc_file) :
  fold_left (fun open e => match e with
                           | Opened h => open ++ [h]
                           | Closed h => remove_first h open
                           | _ => open
                           end) (inspection k files) [] = [].
Proof.
  rewrite still_open_inspection. destruct files as [|file files]; [reflexivity|].
  cbn [app remove_first]. now rewrite handle_eqb_refl.
Qed.





(** ** What the formats of a time bound cover *)

Lemma first_success_Some {A B : Type} (f : A -> option B) (l : list A) (b : B) :
  Strptime.first_success f l = Some b -> exists a, In a l /\ f a = Some b.
Proof.
  induction l as [|a l IH]; simpl; [discriminate|].
  destruct (f a) as [b'|] eqn:E.
  - intros [= <-]. exists a. auto.
  - intros H. destruct (IH H) as (a' & Hin & Ha'). exists a'. auto.
Qed.

Lemma chr_true (x c : ascii) : Strptime.chr x c = true -> c = x.
Proof. unfold Strptime.chr. apply Ascii.eqb_eq. Qed.

Lemma between_true (lo hi : nat) (c : ascii) :
  Strptime.between lo hi c = true -> lo <= nat_of_ascii c <= hi.
Proof.
  unfold Strptime.between. cbv zeta. intros [H1 H2]%andb_true_iff.
  apply Nat.leb_le in H1, H2. lia.
Qed.

Lemma dec_between (c : ascii) :
  48 <= nat_of_ascii c <= 57 -> Strptime.dec c = true.
Proof.
  intros H. unfold Strptime.dec, Strptime.between. cbv zeta.
  apply andb_true_iff. split; apply Nat.leb_le; lia.
Qed.

Lemma int_one (c : ascii) :
  Strptime.dec c = true ->
  Strptime.int (String c EmptyString) = nat_of_ascii c - 48.
Proof. intros H. unfold Strptime.int. simpl. now rewrite H. Qed.

Lemma int_two (c1 c2 : ascii) :
  Strptime.dec c1 = true -> Strptime.dec c2 = true ->
  Strptime.int (String c1 (String c2 EmptyString))
  = 10 * (nat_of_ascii c1 - 48) + (nat_of_ascii c2 - 48).
Proof. intros H1 H2. unfold Strptime.int. simpl. rewrite H1, H2. lia. Qed.

Lemma int_blank (c : ascii) :
  Strptime.dec c = true ->
  Strptime.int (String " " (String c EmptyString)) = nat_of_ascii c - 48.
Proof. intros H. unfold Strptime.int. simpl. now rewrite H. Qed.

Lemma digits_one (c : ascii) :
  Strptime.dec c = true -> digits 1 (String c EmptyString).
Proof. intros H. split; [reflexivity|]. simpl. now rewrite H. Qed.

Lemma digits_two (c1 c2 : ascii) :
  Strptime.dec c1 = true -> Strptime.dec c2 = true ->
  digits 2 (String c1 (String c2 EmptyString)).
Proof. intros H1 H2. split; [reflexivity|]. simpl. now rewrite H1, H2. Qed.

Lemma match_cons (p : Strptime.char_class) (ps : list Strptime.char_class)
    (s txt r : string) :
  Strptime.match_classes (p :: ps) s = Some (txt, r) ->
  exists c s' txt',
    s = String c s' /\ p c = true
    /\ Strptime.match_classes ps s' = Some (txt', r) /\ txt = String c txt'.
Proof.
  destruct s as [|c s]; simpl; [discriminate|].
  destruct (p c) eqn:Hp; [|discriminate].
  destruct (Strptime.match_classes ps s) as [[txt' r']|] eqn:E; [|discriminate].
  intros [= <- <-]. exists c, s, txt'. now repeat split.
Qed.

(** What a sequence of one or two character classes matches. *)
Lemma match_one (p : Strptime.char_class) (s txt r : string) :
  Strptime.match_classes [p] s = Some (txt, r) ->
  exists c, p c = true /\ txt = String c EmptyString /\ s = txt +:+ r.
Proof.
  destruct s as [|c s]; simpl; [discriminate|].
  destruct (p c) eqn:Hp; [|discriminate]. intros [= <- <-]. exists c. auto.
Qed.

Lemma match_two (p q : Strptime.char_class) (s txt r : string) :
  Strptime.match_classes [p; q] s = Some (txt, r) ->
  exists c1 c2, p c1 = true /\ q c2 = true
                /\ txt = String c1 (String c2 EmptyString) /\ s = txt +:+ r.
Proof.
  destruct s as [|c1 [|c2 s]]; simpl; try discriminate.
  - destruct (p c1); discriminate.
  - destruct (p c1) eqn:Hp; [|discriminate].
    destruct (q c2) eqn:Hq; [|discriminate]. intros [= <- <-]. exists c1, c2. auto.
Qed.

Ltac char_facts :=
  repeat match goal with
         | H : Strptime.chr _ _ = true |- _ => apply chr_true in H; subst
         | H : Strptime.between _ _ _ = true |- _ => apply between_true in H
         | H : Strptime.dec _ = true |- _ => apply between_true in H
         end.

Ltac field_two :=
  match goal with
  | |- context [String ?c1 (String ?c2 EmptyString)] =>
      assert (Strptime.dec c1 = true) by (apply dec_between; first [lia | vm_compute; lia]);
      assert (Strptime.dec c2 = true) by (apply dec_between; first [lia | vm_compute; lia]);
      rewrite ?int_two by assumption;
      repeat match goal with
             | |- context [nat_of_ascii (Ascii ?a ?b ?c ?d ?e ?f ?g ?h)] =>
                 let n := eval vm_compute in (nat_of_ascii (Ascii a b c d e f g h)) in
                 change (nat_of_ascii (Ascii a b c d e f g h)) with n
             end
  end.

Ltac field_one :=
  match goal with
  | |- context [String ?c EmptyString] =>
      assert (Strptime.dec c = true) by (apply dec_between; first [lia | vm_compute; lia]);
      rewrite ?int_one by assumption
  end.

Lemma space_runs_sound (s txt r : string) :
  In (txt, r) (Strptime.space_runs s) -> s = txt +:+ r /\ blanks txt.
Proof.
  revert txt r. induction s as [|c s IH]; intros txt r; simpl; [tauto|].
  destruct (Strptime.space c) eqn:Hc; [|intros []].
  intros [Hin|Hin]%in_app_or.
  - apply in_map_iff in Hin as ([txt' r'] & [= <- <-] & Hin).
    destruct (IH txt' r' Hin) as (-> & Hne & Hall).
    split; [reflexivity|]. split; [discriminate|]. simpl. now rewrite Hc.
  - destruct Hin as [[= <- <-]|[]].
    split; [reflexivity|]. split; [discriminate|]. simpl. now rewrite Hc.
Qed.

Lemma candidates_sound (d : Strptime.directive) (s txt r : string) :
  In (txt, r) (Strptime.candidates d s) -> s = txt +:+ r /\ field_ok d txt.
Proof.
  destruct d; cbn [Strptime.candidates]; try apply space_runs_sound;
    rewrite <- list_elem_of_In, list_elem_of_omap;
    intros (cls & Hcls%list_elem_of_In & Hm); cbn [Strptime.alternatives] in Hcls;
    cbn [field_ok].
  - (* Year *)
    destruct Hcls as [<-|[]].
    apply match_cons in Hm as (a & s1 & t1 & -> & Ha & Hm & ->).
    apply match_cons in Hm as (b & s2 & t2 & -> & Hb & Hm & ->).
    apply match_cons in Hm as (c & s3 & t3 & -> & Hc & Hm & ->).
    apply match_cons in Hm as (d & s4 & t4 & -> & Hd & Hm & ->).
    injection Hm as <- <-. split; [reflexivity|]. split; [reflexivity|].
    simpl. now rewrite Ha, Hb, Hc, Hd.
  - (* Month *)
    destruct Hcls as [<-|[<-|[<-|[]]]].
    + apply match_two in Hm as (c1 & c2 & H1 & H2 & -> & ->). char_facts.
      split; [reflexivity|]. field_two. split; [right; now apply digits_two | lia].
    + apply match_two in Hm as (c1 & c2 & H1 & H2 & -> & ->). char_facts.
      split; [reflexivity|]. field_two. split; [right; now apply digits_two | lia].
    + apply match_one in Hm as (c & H1 & -> & ->). char_facts.
      split; [reflexivity|]. field_one. split; [left; now apply digits_one | lia].
  - (* Day *)
    destruct Hcls as [<-|[<-|[<-|[<-|[<-|[]]]]]].
    + apply match_two in Hm as (c1 & c2 & H1 & H2 & -> & ->). char_facts.
      split; [reflexivity|]. field_two.
      split; [left; right; now apply digits_two | lia].
    + apply match_two in Hm as (c1 & c2 & H1 & H2 & -> & ->). char_facts.
      split; [reflexivity|]. field_two.
      split; [left; right; now apply digits_two | lia].
    + apply match_two in Hm as (c1 & c2 & H1 & H2 & -> & ->). char_facts.
      split; [reflexivity|]. field_two.
      split; [left; right; now apply digits_two | lia].
    + apply match_one in Hm as (c & H1 & -> & ->). char_facts.
      split; [reflexivity|]. field_one.
      split; [left; left; now apply digits_one | lia].
    + apply match_two in Hm as (c1 & c2 & H1 & H2 & -> & ->). char_facts.
      split; [reflexivity|].
      assert (Strptime.dec c2 = true) by (apply dec_between; lia).
      rewrite int_blank by assumption. split; [right; eauto | lia].
  - (* Hour *)
    destruct Hcls as [<-|[<-|[<-|[]]]].
    + apply match_two in Hm as (c1 & c2 & H1 & H2 & -> & ->). char_facts.
      split; [reflexivity|]. field_two. split; [right; now apply digits_two | lia].
    + apply match_two in Hm as (c1 & c2 & H1 & H2 & -> & ->). char_facts.
      split; [reflexivity|]. field_two. split; [right; now apply digits_two | lia].
    + apply match_one in Hm as (c & H1 & -> & ->). char_facts.
      split; [reflexivity|]. field_one. split; [left; now apply digits_one | lia].
  - (* Minute *)
    destruct Hcls as [<-|[<-|[]]].
    + apply match_two in Hm as (c1 & c2 & H1 & H2 & -> & ->). char_facts.
      split; [reflexivity|]. field_two. split; [right; now apply digits_two | lia].
    + apply match_one in Hm as (c & H1 & -> & ->). char_facts.
      split; [reflexivity|]. field_one. split; [left; now apply digits_one | lia].
  - (* Lit *)
    destruct Hcls as [<-|[]].
    apply match_one in Hm as (c' & H1 & -> & ->). char_facts. now split.
Qed.

(** A match of a format splits the text into the fields of its
    directives, in order, each of them such as its directive matches. *)
Lemma regex_match_sound (fmt : list Strptime.directive) (s : string)
    (found : list (Strptime.directive * string)) (rest : string) :
  Strptime.regex_match fmt s = Some (found, rest) ->
  map fst found = fmt
  /\ s = fold_right String.append rest (map snd found)
  /\ Forall (fun x => field_ok x.1 x.2) found.
Proof.
  revert s found rest. induction fmt as [|d fmt IH]; intros s found rest.
  - simpl. intros [= <- <-]. now repeat split.
  - rewrite regex_match_cons.
    intros ([txt r] & Hin & Hf)%first_success_Some.
    destruct (Strptime.regex_match fmt r) as [[found' rest']|] eqn:E; [|discriminate].
    injection Hf as <- <-.
    destruct (IH r found' rest' E) as (Hfmt & Hs & Hok).
    destruct (candidates_sound d s txt r Hin) as (-> & Hd).
    simpl. rewrite Hfmt, <- Hs. repeat split. now constructor.
Qed.

Ltac next_field found Hfmt Hok :=
  let d := fresh "d" in
  let txt := fresh "txt" in
  let Hd := fresh "Hfield" in
  destruct found as [|[d txt] found]; [discriminate Hfmt|];
  simpl in Hfmt; injection Hfmt as -> Hfmt;
  apply Forall_cons in Hok as [Hd Hok]; cbn [fst snd field_ok] in Hd.

(** A bound that [strptime] accepts under one of the two formats spells
    the date-time it gives, and that date-time exists. *)
Lemma strptime_dashed_spells (t : string) (dt : datetime) :
  Strptime.strptime t Strptime.fmt_Y_m_d_H_M = Ok dt -> spells t dt /\ in_calendar dt.
Proof.
  unfold Strptime.strptime.
  destruct (Strptime.regex_match Strptime.fmt_Y_m_d_H_M t) as [[found rest]|] eqn:E;
    [|discriminate].
  destruct rest; [|discriminate].
  apply regex_match_sound in E as (Hfmt & Hs & Hok).
  unfold Strptime.fmt_Y_m_d_H_M in Hfmt.
  do 9 next_field found Hfmt Hok.
  destruct found; [|discriminate Hfmt]. clear Hfmt Hok.
  cbn [Strptime.field Strptime.same_directive]. cbv zeta.
  destruct (_ && _) eqn:Hc; [|discriminate]. intros [= <-].
  apply andb_true_iff in Hc as [Hy Hd]. apply Nat.leb_le in Hy, Hd.
  subst txt0 txt2 txt6. simpl in Hs. rewrite string_app_nil_r in Hs.
  split.
  - exists txt, txt1, txt3, txt5, txt7.
    do 5 (split; [tauto|]). split; [reflexivity|].
    right. exists txt4. split; [assumption|]. exact Hs.
  - unfold in_calendar. simpl. lia.
Qed.

Lemma strptime_compact_spells (t : string) (dt : datetime) :
  Strptime.strptime t Strptime.fmt_Ymd_HM = Ok dt -> spells t dt /\ in_calendar dt.
Proof.
  unfold Strptime.strptime.
  destruct (Strptime.regex_match Strptime.fmt_Ymd_HM t) as [[found rest]|] eqn:E;
    [|discriminate].
  destruct rest; [|discriminate].
  apply regex_match_sound in E as (Hfmt & Hs & Hok).
  unfold Strptime.fmt_Ymd_HM in Hfmt.
  do 6 next_field found Hfmt Hok.
  destruct found; [|discriminate Hfmt]. clear Hfmt Hok.
  cbn [Strptime.field Strptime.same_directive]. cbv zeta.
  destruct (_ && _) eqn:Hc; [|discriminate]. intros [= <-].
  apply andb_true_iff in Hc as [Hy Hd]. apply Nat.leb_le in Hy, Hd.
  subst txt2. simpl in Hs. rewrite string_app_nil_r in Hs.
  split.
  - exists txt, txt0, txt1, txt3, txt4.
    do 5 (split; [tauto|]). split; [reflexivity|]. left. exact Hs.
  - unfold in_calendar. simpl. lia.
Qed.

Lemma parse_bound_spells (t : string) (dt : datetime) :
  parse_bound (Some t) = Some (Some dt) -> spells t dt /\ in_calendar dt.
Proof.
  unfold parse_bound. destruct t as [|c t]; [discriminate|].
  destruct (Strptime.strptime (String c t) Strptime.fmt_Y_m_d_H_M) as [dt1|] eqn:E1.
  - intros [= <-]. now apply strptime_dashed_spells.
  - destruct (Strptime.strptime (String c t) Strptime.fmt_Ymd_HM) as [dt2|] eqn:E2;
      [|discriminate].
    intros [= <-]. now apply strptime_compact_spells.
Qed.

(** ** The two formats of a time bound *)

Section more_steps.

Variables (fmt : list Strptime.directive) (rest : string).
Variables (found : list (Strptime.directive * string)) (r : string).
Hypothesis rest_matches : Strptime.regex_match fmt rest = Some (found, r).

Lemma regex_step_lit (c : ascii) :
  Strptime.regex_match (Strptime.Lit c :: fmt) (String c rest)
  = Some ((Strptime.Lit c, String c EmptyString) :: found, r).
Proof.
  rewrite regex_match_cons.
  cbn [Strptime.candidates Strptime.alternatives omap list_omap Strptime.match_classes].
  unfold Strptime.chr. rewrite Ascii.eqb_refl. simpl. now rewrite rest_matches.
Qed.

Lemma regex_step_space :
  Strptime.space_runs rest = [] ->
  Strptime.regex_match (Strptime.Spaces :: fmt) (String " " rest)
  = Some ((Strptime.Spaces, String " " EmptyString) :: found, r).
Proof.
  intros Hruns. rewrite regex_match_cons.
  cbn [Strptime.candidates Strptime.space_runs]. 
  change (Strptime.space " "%char) with true. cbv iota. rewrite Hruns. simpl.
  now rewrite rest_matches.
Qed.

End more_steps.

Lemma dec_not_space (c : ascii) : Strptime.dec c = true -> Strptime.space c = false.
Proof.
  unfold Strptime.dec, Strptime.between, Strptime.space. cbv zeta.
  generalize (nat_of_ascii c). intros n [H1 H2]%andb_true_iff.
  apply Nat.leb_le in H1, H2.
  repeat match goal with
         | |- context [?a <=? ?b] => destruct (Nat.leb_spec a b); try lia
         | |- context [?a =? ?b] => destruct (Nat.eqb_spec a b); try lia
         end; reflexivity.
Qed.

Lemma space_runs_format_02d (n : nat) (rest : string) :
  n < 100 -> Strptime.space_runs (format_02d n +:+ rest) = [].
Proof.
  intros Hn.
  pose proof (format_02d_dec n) as Hdec. pose proof (format_02d_length n Hn) as Hlen.
  destruct (format_02d n) as [|c s]; [discriminate Hlen|].
  rewrite string_app_cons. simpl in Hdec |- *.
  apply andb_true_iff in Hdec as [Hc _]. now rewrite (dec_not_space c Hc).
Qed.

Lemma strptime_dash_format (dt : datetime) :
  valid_datetime dt ->
  Strptime.strptime (dash_format dt) Strptime.fmt_Y_m_d_H_M = Ok dt.
Proof.
  intros (Hlen & Hy & Hm & Hd & Hh & Hmi).
  pose proof (days_in_month_le_31 (year dt) (month dt)) as H31.
  unfold Strptime.strptime, Strptime.fmt_Y_m_d_H_M, dash_format.
  change ("-" +:+ format_02d (month dt) +:+ "-" +:+ format_02d (day dt) +:+ " "
          +:+ format_02d (hour dt) +:+ ":" +:+ format_02d (minute dt))
    with (String "-" (format_02d (month dt) +:+ String "-" (format_02d (day dt)
          +:+ String " " (format_02d (hour dt)
          +:+ String ":" (format_02d (minute dt)))))).
  rewrite <- (string_app_nil_r (format_02d (minute dt))).
  erewrite regex_step_year; [| |exact Hlen].
  2: { apply regex_step_lit.
       apply regex_step_month; [|lia].
       apply regex_step_lit.
       apply regex_step_day; [|lia].
       apply regex_step_space; [|apply space_runs_format_02d; lia].
       apply regex_step_hour; [|lia].
       apply regex_step_lit.
       apply regex_step_minute; [|lia]. reflexivity. }
  cbn [Strptime.field Strptime.same_directive].
  rewrite int_str, !int_format_02d.
  replace (1 <=? year dt) with true by (symmetry; apply Nat.leb_le; lia).
  replace (day dt <=? Strptime.days_in_month (year dt) (month dt)) with true
    by (symmetry; apply Nat.leb_le; lia).
  now destruct dt.
Qed.

(** The format with dashes rejects a canonical key: after the year it
    wants a dash and finds a digit. *)
Lemma strptime_key_not_dashed (dt : datetime) :
  valid_datetime dt ->
  Strptime.strptime (key_of dt) Strptime.fmt_Y_m_d_H_M = Raise ValueError.
Proof.
  intros (Hlen & Hy & Hm & Hd & Hh & Hmi).
  unfold Strptime.strptime, Strptime.fmt_Y_m_d_H_M, key_of.
  pose proof (str_dec (year dt)) as Hdec.
  pose proof (format_02d_dec (month dt)) as Hmdec.
  pose proof (format_02d_length (month dt)) as Hmlen.
  destruct (Py.str (year dt)) as [|a [|b [|c [|d [|]]]]]; try discriminate.
  destruct (format_02d (month dt)) as [|m1 ms]; [simpl in Hmlen; lia|].
  simpl in Hdec, Hmdec. repeat (apply andb_true_iff in Hdec as [? Hdec]).
  apply andb_true_iff in Hmdec as [Hm1 _].
  rewrite regex_match_cons. rewrite !string_app_cons, string_app_nil_l.
  cbn [Strptime.candidates Strptime.alternatives omap list_omap Strptime.match_classes].
  rewrite H, H0, H1, H2. cbn [Strptime.first_success].
  rewrite regex_match_cons.
  cbn [Strptime.candidates Strptime.alternatives omap list_omap Strptime.match_classes].
  assert (Strptime.chr "-" m1 = false) as ->.
  { unfold Strptime.chr. apply Ascii.eqb_neq. intros ->. discriminate Hm1. }
  reflexivity.
Qed.

Lemma dash_format_nonempty (dt : datetime) :
  valid_datetime dt -> exists c s, dash_format dt = String c s.
Proof.
  intros (Hlen & _). unfold dash_format.
  destruct (Py.str (year dt)) as [|c s]; [discriminate Hlen|].
  rewrite string_app_cons. eauto.
Qed.

Lemma key_of_nonempty (dt : datetime) :
  valid_datetime dt -> exists c s, key_of dt = String c s.
Proof.
  intros (Hlen & _). unfold key_of.
  destruct (Py.str (year dt)) as [|c s]; [discriminate Hlen|].
  rewrite string_app_cons. eauto.
Qed.

Lemma parse_bound_dash_format (dt : datetime) :
  valid_datetime dt -> parse_bound (Some (dash_format dt)) = Some (Some dt).
Proof.
  intros Hv. destruct (dash_format_nonempty dt Hv) as (c & s & E).
  pose proof (strptime_dash_format dt Hv) as Hp.
  unfold parse_bound. rewrite E in Hp |- *. now rewrite Hp.
Qed.

Lemma parse_bound_key_of (dt : datetime) :
  valid_datetime dt -> parse_bound (Some (key_of dt)) = Some (Some dt).
Proof.
  intros Hv. destruct (key_of_nonempty dt Hv) as (c & s & E).
  pose proof (strptime_key_not_dashed dt Hv) as H1.
  pose proof (strptime_key_of dt Hv) as H2.
  unfold parse_bound. rewrite E in H1, H2 |- *. now rewrite H1, H2.
Qed.


Lemma spells_starts_with_year (t : string) (dt : datetime) :
  spells t dt -> starts_with_year t = true.
Proof.
  intros (y & m & d & h & mi & (Hlen & Hdec) & _ & _ & _ & _ & _ & Ht).
  destruct y as [|a [|b [|c [|e [|]]]]]; try discriminate Hlen.
  cbn [Py.all_chars] in Hdec.
  apply andb_true_iff in Hdec as [Ha Hdec]. apply andb_true_iff in Hdec as [Hb Hdec].
  apply andb_true_iff in Hdec as [Hc Hdec]. apply andb_true_iff in Hdec as [He _].
  destruct Ht as [-> | (w & _ & ->)]; rewrite !string_app_cons;
    cbn [starts_with_year]; now rewrite Ha, Hb, Hc, He.
Qed.

Lemma unspelled_bad_bound (t : string) :
  t <> EmptyString -> (forall dt, spells t dt -> ~ in_calendar dt) -> bad_bound (Some t).
Proof.
  intros Hne Hno. apply parse_bound_None.
  destruct (parse_bound (Some t)) as [[dt|]|] eqn:E; [| |reflexivity].
  - destruct (parse_bound_spells t dt E) as [Hs Hc]. now destruct (Hno dt Hs).
  - unfold parse_bound in E. destruct t as [|c t]; [congruence|].
    destruct (Strptime.strptime (String c t) Strptime.fmt_Y_m_d_H_M); [discriminate|].
    destruct (Strptime.strptime (String c t) Strptime.fmt_Ymd_HM); discriminate.
Qed.

Lemma bad_bound_run (env : environment) (pl_dir sl_dir tp_dir : list nc_file)
    (out : gmap string combined_record) (start_time end_time : option string) :
  mkdir_error env = None ->
  bad_bound start_time \/ bad_bound end_time ->
  merge_data env pl_dir sl_dir tp_dir out start_time end_time
  = Aborted (initial_state out).
Proof.
  intros Hmk. rewrite <- !parse_bound_None. unfold merge_data. rewrite Hmk.
  destruct (parse_bound start_time); [|reflexivity].
  destruct (parse_bound end_time); [|reflexivity].
  now intros [|].
Qed.




(** ** The order in which a directory is listed *)

Lemma string_leb_cases (a b : string) :
  String.leb a b = true <-> String.compare a b = Lt \/ a = b.
Proof.
  unfold String.leb. split.
  - destruct (String.compare a b) eqn:E; try discriminate; intros _.
    + right. now apply String.compare_eq_iff.
    + now left.
  - intros [-> | ->]; [reflexivity|].
    assert (String.compare b b = Eq) as ->; [|reflexivity].
    induction b as [|c b IH]; simpl; [reflexivity|].
    unfold Ascii.compare. now rewrite N.compare_refl.
Qed.

Lemma string_leb_trans (a b c : string) :
  String.leb a b = true -> String.leb b c = true -> String.leb a c = true.
Proof.
  rewrite !string_leb_cases. intros [Hab | ->] [Hbc | ->]; auto.
  left. exact (StrictOrder_Transitive (R := String_as_OT.lt) a b c Hab Hbc).
Qed.

Lemma insert_sorted_perm (f : nc_file) (l : list nc_file) :
  Permutation (insert_sorted f l) (f :: l).
Proof.
  induction l as [|g l IH]; simpl; [reflexivity|].
  destruct (String.leb (path f) (path g)); [reflexivity|].
  rewrite IH. apply perm_swap.
Qed.

Lemma sorted_perm (l : list nc_file) : Permutation (sorted l) l.
Proof.
  induction l as [|f l IH]; simpl; [reflexivity|].
  unfold sorted in *. simpl. now rewrite insert_sorted_perm, IH.
Qed.

Lemma insert_sorted_sorted (f : nc_file) (l : list nc_file) :
  StronglySorted path_le l -> StronglySorted path_le (insert_sorted f l).
Proof.
  induction 1 as [|g l Hl IH Hg]; simpl; [repeat constructor|].
  destruct (String.leb (path f) (path g)) eqn:E.
  - constructor; [now constructor|]. constructor; [exact E|].
    eapply Forall_impl; [exact Hg|]. intros h Hh. unfold path_le in *.
    eapply string_leb_trans; eauto.
  - constructor; [exact IH|].
    rewrite insert_sorted_perm. constructor; [|exact Hg].
    unfold path_le. destruct (String.leb_total (path f) (path g)); congruence.
Qed.

Lemma sorted_sorted (l : list nc_file) : StronglySorted path_le (sorted l).
Proof.
  induction l as [|f l IH]; [constructor|]. now apply insert_sorted_sorted.
Qed.

Lemma path_inj_in (l : list nc_file) (f g : nc_file) :
  NoDup (map path l) -> In f l -> In g l -> path f = path g -> f = g.
Proof.
  induction l as [|h l IH]; [easy|]. simpl.
  intros [Hh Hnd]%NoDup_cons [->|Hf] [->|Hg] E; auto.
  - exfalso. apply Hh, list_elem_of_In. rewrite E. now apply in_map.
  - exfalso. apply Hh, list_elem_of_In. rewrite <- E. now apply in_map.
Qed.

Lemma sorted_listing_unique (l1 l2 : list nc_file) :
  StronglySorted path_le l1 -> StronglySorted path_le l2 ->
  Permutation l1 l2 -> NoDup (map path l1) -> l1 = l2.
Proof.
  intros H1. revert l2. induction H1 as [|x l1 Hl1 IH Hx]; intros l2 H2 Hp Hnd.
  - now apply Permutation_nil in Hp.
  - destruct H2 as [|y l2 Hl2 Hy]; [now apply Permutation_sym, Permutation_nil in Hp|].
    assert (x = y) as <-.
    { assert (In y (x :: l1)) as Hin
        by (apply (Permutation_in _ (Permutation_sym Hp)); now left).
      assert (In x (y :: l2)) as Hin' by (apply (Permutation_in _ Hp); now left).
      destruct Hin as [E|Hin]; [exact E|]. destruct Hin' as [E|Hin']; [now symmetry|].
      rewrite Forall_forall in Hx, Hy.
      apply (path_inj_in (x :: l1)); [exact Hnd | now left | now right|].
      apply String.leb_antisym.
      - apply Hx, list_elem_of_In, Hin.
      - apply Hy, list_elem_of_In, Hin'. }
    f_equal. apply IH; [exact Hl2 | now apply Permutation_cons_inv in Hp|].
    simpl in Hnd. now apply NoDup_cons in Hnd as [_ Hnd].
Qed.

Lemma sorted_glob_perm (dir dir' : list nc_file) :
  Permutation dir dir' -> NoDup (map path dir) ->
  sorted (glob_nc dir) = sorted (glob_nc dir').
Proof.
  intros Hp Hnd. apply sorted_listing_unique; try apply sorted_sorted.
  - rewrite !sorted_perm. unfold glob_nc. now rewrite Hp.
  - rewrite sorted_perm. eapply sublist_NoDup; [exact Hnd|].
    apply (fmap_sublist path). unfold glob_nc. apply sublist_filter.
Qed.

(** X15: the order in which the operating system lists a directory plays
    no part.  When the names of each directory are pairwise distinct,
    listing the three directories in any other order gives the same
    scanned files in the same order, the same inspection, the same run of
    [merge_data] and the same run of [main]. *)
Theorem listing_order_irrelevant (pl_dir sl_dir tp_dir pl_dir' sl_dir' tp_dir' : list nc_file) :
  Permutation pl_dir pl_dir' -> NoDup (map path pl_dir) ->
  Permutation sl_dir sl_dir' -> NoDup (map path sl_dir) ->
  Permutation tp_dir tp_dir' -> NoDup (map path tp_dir) ->
  (forall start_dt end_dt,
      all_files pl_dir' sl_dir' tp_dir' start_dt end_dt
      = all_files pl_dir sl_dir tp_dir start_dt end_dt)
  /\ (forall s, check_data_info pl_dir' sl_dir' tp_dir' s
                = check_data_info pl_dir sl_dir tp_dir s)
  /\ (forall env out start_time end_time,
        merge_data env pl_dir' sl_dir' tp_dir' out start_time end_time
        = merge_data env pl_dir sl_dir tp_dir out start_time end_time)
  /\ (forall env out start_time end_time,
        main env pl_dir' sl_dir' tp_dir' out start_time end_time
        = main env pl_dir sl_dir tp_dir out start_time end_time).
Proof.
  intros Ppl Npl Psl Nsl Ptp Ntp.
  pose proof (sorted_glob_perm _ _ Ppl Npl) as Epl.
  pose proof (sorted_glob_perm _ _ Psl Nsl) as Esl.
  pose proof (sorted_glob_perm _ _ Ptp Ntp) as Etp.
  assert (forall start_dt end_dt,
             all_files pl_dir' sl_dir' tp_dir' start_dt end_dt
             = all_files pl_dir sl_dir tp_dir start_dt end_dt) as Hall
    by (intros; unfold all_files; now rewrite Epl, Esl, Etp).
  assert (forall s, check_data_info pl_dir' sl_dir' tp_dir' s
                    = check_data_info pl_dir sl_dir tp_dir s) as Hcheck
    by (intros; unfold check_data_info; now rewrite Epl, Esl, Etp).
  assert (forall env out start_time end_time,
             merge_data env pl_dir' sl_dir' tp_dir' out start_time end_time
             = merge_data env pl_dir sl_dir tp_dir out start_time end_time) as Hmerge.
  { intros. unfold merge_data. destruct (mkdir_error env); [reflexivity|].
    destruct (parse_bound start_time); [|reflexivity].
    destruct (parse_bound end_time); [|reflexivity]. now rewrite Hall. }
  repeat split; auto.
  intros. unfold main. rewrite Hcheck.
  destruct (check_data_info pl_dir sl_dir tp_dir (initial_state out)) as [[files|e] s];
    [|reflexivity].
  now rewrite Hmerge.
Qed.

Lemma listing_order_irrelevant_witness :
  merge_data Sample.env_ok [Sample.notes; Sample.pl] [Sample.sl] [Sample.tp] ∅ None None
  = merge_data Sample.env_ok [Sample.pl; Sample.notes] [Sample.sl] [Sample.tp] ∅ None None.
Proof.
  refine (proj1 (proj2 (proj2 (listing_order_irrelevant
                                 [Sample.pl; Sample.notes] [Sample.sl] [Sample.tp]
                                 [Sample.notes; Sample.pl] [Sample.sl] [Sample.tp]
                                 (perm_swap _ _ _) _ (Permutation_refl _) _
                                 (Permutation_refl _) _)))
                Sample.env_ok ∅ None None);
    apply (bool_decide_unpack _); vm_compute; exact I.
Defined.
